(** * Flocker: configuration parsing and the control/agent protocol

    A shallow embedding of [flocker/node/_config.py] and
    [flocker/control/_protocol.py].

    - [Py]         the fragment of Python 2 values and builtins that the
                   code exercises (what [yaml.safe_load] hands over);
    - [Model]      the objects of [flocker.node._model], as [_config.py]
                   constructs them;
    - [Config]     [flocker/node/_config.py];
    - [Codec]      the serialization contract the protocol arguments
                   delegate to;
    - [Protocol]   [flocker/control/_protocol.py];
    - [Scenarios], [WireScenarios]  concrete inputs;
    - [Properties] the predicates that the theorems state;
    - [ConfigFacts], [CodecFacts], [ProtocolFacts]  the theorems. *)

From stdpp Require Import gmap strings list pretty.
From Stdlib Require Import ZArith Lia Ascii.

Local Open Scope Z_scope.
Local Open Scope string_scope.

#[local] Set Warnings "-register-all".

(* ===================================================================== *)
(** * Python values and builtins *)
(* ===================================================================== *)

Module Py.

(** The values that a YAML document loads into, together with the two
    immutable containers the parser itself builds ([tuple], [frozenset]).
    Dictionaries are association lists in iteration order; their keys are
    strings.  [PStr] is Python 2's byte [str], [PUnicode] its [unicode]. *)
Inductive pyval :=
| PNone
| PBool (b : bool)
| PInt (z : Z)
| PStr (s : string)
| PUnicode (s : string)
| PList (l : list pyval)
| PTuple (l : list pyval)
| PDict (d : list (string * pyval))
| PFrozenset (l : list pyval).

Definition dict := list (string * pyval).

(** Exceptions.  [ConfigurationError] is the class defined at the top of
    [_config.py]; the others are the builtins that the code either
    catches ([ValueError], [KeyError]) or lets escape. *)
Inductive exn :=
| ConfigurationError (msg : string)
| ValueError (msg : string)
| KeyError (key : string)
| TypeError
| AttributeError
| IndexError
| StopIteration.

(** A computation either raises ([inl]) or returns ([inr]). *)
Definition result (A : Type) : Type := exn + A.

Definition raise {A} (e : exn) : result A := inl e.
Definition ret {A} (a : A) : result A := inr a.

Definition rbind {A B} (m : result A) (k : A -> result B) : result B :=
  match m with
  | inl e => inl e
  | inr a => k a
  end.

(** [try: m except ValueError as e: h e.message] *)
Definition except_ValueError {A} (m : result A) (h : string -> result A)
  : result A :=
  match m with
  | inl (ValueError msg) => h msg
  | _ => m
  end.

(** [try: m except KeyError as e: h e.message] *)
Definition except_KeyError {A} (m : result A) (h : string -> result A)
  : result A :=
  match m with
  | inl (KeyError k) => h k
  | _ => m
  end.

Definition is_ConfigurationError {A} (r : result A) : bool :=
  match r with
  | inl (ConfigurationError _) => true
  | _ => false
  end.

(** ** Classes, [isinstance], [type(v).__name__] *)

Inductive pytype :=
| TNoneType | TBool | TInt | TLong | TStr | TUnicode | TList | TTuple | TDict
| TFrozenset.

(** [sys.maxint] of a 64-bit build.  An integer outside
    [-maxint - 1 .. maxint] is a [long], which is no [int]. *)
Definition maxint : Z := 9223372036854775807.

Definition is_long (z : Z) : bool :=
  (Z.ltb z (- maxint - 1)) || (Z.ltb maxint z).

Definition type_of (v : pyval) : pytype :=
  match v with
  | PNone => TNoneType
  | PBool _ => TBool
  | PInt z => if is_long z then TLong else TInt
  | PStr _ => TStr
  | PUnicode _ => TUnicode
  | PList _ => TList
  | PTuple _ => TTuple
  | PDict _ => TDict
  | PFrozenset _ => TFrozenset
  end.

Definition type_name (t : pytype) : string :=
  match t with
  | TNoneType => "NoneType"
  | TBool => "bool"
  | TInt => "int"
  | TLong => "long"
  | TStr => "str"
  | TUnicode => "unicode"
  | TList => "list"
  | TTuple => "tuple"
  | TDict => "dict"
  | TFrozenset => "frozenset"
  end.

Definition pytype_eqb (a b : pytype) : bool :=
  match a, b with
  | TNoneType, TNoneType | TBool, TBool | TInt, TInt | TLong, TLong
  | TStr, TStr
  | TUnicode, TUnicode | TList, TList | TTuple, TTuple | TDict, TDict
  | TFrozenset, TFrozenset => true
  | _, _ => false
  end.

(** [bool] is a subclass of [int]; [long] is not. *)
Definition subclass (t c : pytype) : bool :=
  pytype_eqb t c ||
  match t, c with
  | TBool, TInt => true
  | _, _ => false
  end.

(** [isinstance(v, types)] for a tuple of classes. *)
Definition isinstance (v : pyval) (types : list pytype) : bool :=
  existsb (subclass (type_of v)) types.

(** [types.StringTypes] *)
Definition StringTypes : list pytype := [TStr; TUnicode].

(** ** Truth value *)

Definition truthy (v : pyval) : bool :=
  match v with
  | PNone => false
  | PBool b => b
  | PInt z => negb (Z.eqb z 0)
  | PStr s | PUnicode s => negb (String.eqb s "")
  | PList l | PTuple l | PFrozenset l =>
      match l with [] => false | _ => true end
  | PDict d => match d with [] => false | _ => true end
  end.

(** ** Strings *)

(** [needle in hay] for two strings. *)
Fixpoint mentions (needle hay : string) : bool :=
  String.prefix needle hay ||
  match hay with
  | EmptyString => false
  | String _ hay' => mentions needle hay'
  end.

(** [s.split(sep)] for a one-character separator: never empty. *)
Fixpoint split (sep : ascii) (s : string) : list string :=
  match s with
  | EmptyString => [""]
  | String c s' =>
      if Ascii.eqb c sep then "" :: split sep s'
      else match split sep s' with
           | [] => [String c ""]
           | w :: ws => String c w :: ws
           end
  end.

(** [sep.join(l)] *)
Definition join (sep : string) (l : list string) : string :=
  String.concat sep l.

Fixpoint insert_sorted (x : string) (l : list string) : list string :=
  match l with
  | [] => [x]
  | y :: l' => if String.leb x y then x :: l else y :: insert_sorted x l'
  end.

(** [sorted(l)] for a list of strings. *)
Definition sorted (l : list string) : list string :=
  foldr insert_sorted [] l.

(** [os.path.isabs] on POSIX. *)
Definition isabs (s : string) : bool := String.prefix "/" s.

Definition is_space (c : ascii) : bool :=
  let n := nat_of_ascii c in
  (Nat.eqb n 32 || (Nat.leb 9 n && Nat.leb n 13))%bool.

Definition digit_of (c : ascii) : option Z :=
  let n := Z.of_nat (nat_of_ascii c) in
  if (Z.leb 48 n && Z.leb n 57)%bool then Some (n - 48)%Z else None.

Fixpoint lstrip (s : string) : string :=
  match s with
  | String c s' => if is_space c then lstrip s' else s
  | EmptyString => s
  end.

(** Digits, then optional trailing white space, and nothing else. *)
Fixpoint digits_then_space (acc : Z) (seen : bool) (s : string) : option Z :=
  match s with
  | EmptyString => if seen then Some acc else None
  | String c s' =>
      match digit_of c with
      | Some d => digits_then_space (10 * acc + d) true s'
      | None =>
          if seen && String.eqb (lstrip s) "" then Some acc else None
      end
  end.

Definition repr_str (s : string) : string := "'" +:+ s +:+ "'".

(** [int(s)] for a string: surrounding white space, an optional sign,
    decimal digits; anything else is a [ValueError]. *)
Definition int_of_string (s : string) : result Z :=
  let parsed :=
    match lstrip s with
    | String "-" s' => Z.opp <$> digits_then_space 0 false s'
    | String "+" s' => digits_then_space 0 false s'
    | s' => digits_then_space 0 false s'
    end in
  match parsed with
  | Some z => ret z
  | None =>
      raise (ValueError ("invalid literal for int() with base 10: "
                           +:+ repr_str s))
  end.

(** ** [repr], [str] and [format]

    Quotes inside strings are not escaped. *)
Fixpoint repr (v : pyval) : string :=
  match v with
  | PNone => "None"
  | PBool true => "True"
  | PBool false => "False"
  | PInt z => pretty z +:+ (if is_long z then "L" else "")
  | PStr s => "'" +:+ s +:+ "'"
  | PUnicode s => "u'" +:+ s +:+ "'"
  | PList l => "[" +:+ join ", " (map repr l) +:+ "]"
  | PTuple l =>
      match l with
      | [x] => "(" +:+ repr x +:+ ",)"
      | _ => "(" +:+ join ", " (map repr l) +:+ ")"
      end
  | PDict d =>
      "{" +:+ join ", "
            (map (fun kv => "'" +:+ fst kv +:+ "': " +:+ repr (snd kv)) d)
          +:+ "}"
  | PFrozenset l => "frozenset([" +:+ join ", " (map repr l) +:+ "])"
  end.

(** [str(v)], and what ["{x}".format(x=v)] substitutes. *)
Definition str (v : pyval) : string :=
  match v with
  | PStr s | PUnicode s => s
  | PInt z => pretty z
  | _ => repr v
  end.

(** ** Dictionaries *)

(** [k in d] *)
Definition dict_has (k : string) (d : dict) : bool :=
  existsb (fun kv => String.eqb k (fst kv)) d.

(** [d.get(k)] *)
Fixpoint dict_get (k : string) (d : dict) : option pyval :=
  match d with
  | [] => None
  | (k', v) :: d' => if String.eqb k k' then Some v else dict_get k d'
  end.

(** [del d[k]] *)
Definition dict_del (k : string) (d : dict) : dict :=
  filter (fun kv => k ≠ fst kv) d.

(** [d.keys()] *)
Definition keys (d : dict) : list string := map fst d.

(** [d[k] = v], in place: the position of an existing key is kept. *)
Fixpoint dict_set (k : string) (v : pyval) (d : dict) : dict :=
  match d with
  | [] => [(k, v)]
  | (k', v') :: d' =>
      if String.eqb k k' then (k, v) :: d' else (k', v') :: dict_set k v d'
  end.

(** ** Operations on an arbitrary object *)

(** [key in v] for a string [key]: keys of a dictionary, elements of a
    sequence, substrings of a string. *)
Definition is_string_eq (key : string) (v : pyval) : bool :=
  match v with
  | PStr s | PUnicode s => String.eqb key s
  | _ => false
  end.

Definition contains (key : string) (v : pyval) : result bool :=
  match v with
  | PDict d => ret (dict_has key d)
  | PList l | PTuple l | PFrozenset l => ret (existsb (is_string_eq key) l)
  | PStr s | PUnicode s => ret (mentions key s)
  | PNone | PBool _ | PInt _ => raise TypeError
  end.

(** [v[key]] for a string [key]. *)
Definition getitem (v : pyval) (key : string) : result pyval :=
  match v with
  | PDict d =>
      match dict_get key d with
      | Some x => ret x
      | None => raise (KeyError key)
      end
  | _ => raise TypeError
  end.

(** [v.items()] *)
Definition items (v : pyval) : result (list (string * pyval)) :=
  match v with
  | PDict d => ret d
  | _ => raise AttributeError
  end.

(** [for x in v]: the elements the loop visits. *)
Fixpoint chars (s : string) : list string :=
  match s with
  | EmptyString => []
  | String c s' => String c "" :: chars s'
  end.

Definition iter (v : pyval) : result (list pyval) :=
  match v with
  | PList l | PTuple l | PFrozenset l => ret l
  | PDict d => ret (map PStr (keys d))
  | PStr s => ret (map PStr (chars s))
  | PUnicode s => ret (map PUnicode (chars s))
  | PNone | PBool _ | PInt _ => raise TypeError
  end.

(** [v.split(':')] *)
Definition split_colon (v : pyval) : result (list pyval) :=
  match v with
  | PStr s => ret (map PStr (split ":" s))
  | PUnicode s => ret (map PUnicode (split ":" s))
  | _ => raise AttributeError
  end.

(** [int(v)] *)
Definition int (v : pyval) : result Z :=
  match v with
  | PStr s | PUnicode s => int_of_string s
  | PInt z => ret z
  | PBool b => ret (if b then 1 else 0)
  | _ => raise TypeError
  end.

(** [iter(l).next()] *)
Definition next {A} (l : list A) : result A :=
  match l with
  | [] => raise StopIteration
  | x :: _ => ret x
  end.

(** [l.pop()]: the last element and the list without it. *)
Definition list_pop (l : list pyval) : result (pyval * list pyval) :=
  match reverse l with
  | [] => raise IndexError
  | x :: r => ret (x, reverse r)
  end.

(** The truth value of a list or set. *)
Definition nonempty {A} (l : list A) : bool :=
  match l with
  | [] => false
  | _ => true
  end.

Definition is_None (v : pyval) : bool :=
  match v with
  | PNone => true
  | _ => false
  end.

(** ** Paths *)

(** [posixpath.normpath] *)
Definition normpath (path : string) : string :=
  if String.eqb path "" then "." else
  let initial_slashes :=
    if String.prefix "/" path then
      if String.prefix "//" path && negb (String.prefix "///" path)
      then 2%nat else 1%nat
    else 0%nat in
  let new_comps :=
    fold_left
      (fun new_comps comp =>
         if String.eqb comp "" || String.eqb comp "." then new_comps
         else if negb (String.eqb comp "..")
                 || (Nat.eqb initial_slashes 0 && negb (nonempty new_comps))
                 || String.eqb (List.last new_comps "") ".."
         then (new_comps ++ [comp])%list
         else removelast new_comps)
      (split "/" path) [] in
  let path :=
    String.concat "" (List.repeat "/" initial_slashes)
      +:+ join "/" new_comps in
  if String.eqb path "" then "." else path.

(** [posixpath.join(a, b)] *)
Definition path_join (a b : string) : string :=
  if String.prefix "/" b then b
  else if String.eqb a ""
          || Ascii.eqb (List.last (String.list_ascii_of_string a) "a"%char)
                       "/"%char
  then a +:+ b
  else a +:+ "/" +:+ b.

(** [os.getcwd()], which the process has. *)
Class WorkingDirectory := getcwd : string.

(** [os.path.abspath] *)
Definition abspath `{WorkingDirectory} (path : string) : string :=
  normpath (if isabs path then path else path_join getcwd path).

(** Whether [hash(v)] succeeds. *)
Fixpoint hashable (v : pyval) : bool :=
  match v with
  | PList _ | PDict _ => false
  | PTuple l | PFrozenset l => forallb hashable l
  | _ => true
  end.

(** [v != n] for an integer literal [n] ([True == 1] and [False == 0]). *)
Definition ne_int (v : pyval) (n : Z) : bool :=
  match v with
  | PInt z => negb (Z.eqb z n)
  | PBool b => negb (Z.eqb (if b then 1 else 0) n)
  | _ => true
  end.

(** ** Structural equality

    Used to remove duplicates when a [set] or [frozenset] is built. *)

Fixpoint list_eqb {A} (eqb : A -> A -> bool) (a b : list A) : bool :=
  match a, b with
  | [], [] => true
  | x :: a', y :: b' => eqb x y && list_eqb eqb a' b'
  | _, _ => false
  end.

Fixpoint pyval_eqb (x y : pyval) {struct x} : bool :=
  match x, y with
  | PNone, PNone => true
  | PBool a, PBool b => Bool.eqb a b
  | PInt a, PInt b => Z.eqb a b
  | PStr a, PStr b => String.eqb a b
  | PUnicode a, PUnicode b => String.eqb a b
  | PList a, PList b => list_eqb pyval_eqb a b
  | PTuple a, PTuple b => list_eqb pyval_eqb a b
  | PFrozenset a, PFrozenset b => list_eqb pyval_eqb a b
  | PDict a, PDict b =>
      list_eqb (fun p q => String.eqb (fst p) (fst q)
                           && pyval_eqb (snd p) (snd q)) a b
  | _, _ => false
  end.

Section pyval_rect_nested.
Variable P : pyval -> Prop.
Hypothesis HNone : P PNone.
Hypothesis HBool : forall b, P (PBool b).
Hypothesis HInt : forall z, P (PInt z).
Hypothesis HStr : forall s, P (PStr s).
Hypothesis HUnicode : forall s, P (PUnicode s).
Hypothesis HList : forall l, Forall P l -> P (PList l).
Hypothesis HTuple : forall l, Forall P l -> P (PTuple l).
Hypothesis HDict : forall d, Forall (fun kv => P (snd kv)) d -> P (PDict d).
Hypothesis HFrozenset : forall l, Forall P l -> P (PFrozenset l).

Fixpoint pyval_ind_nested (v : pyval) : P v :=
  let all :=
    fix all (l : list pyval) : Forall P l :=
      match l with
      | [] => @List.Forall_nil _ P
      | x :: l' => @List.Forall_cons _ P x l' (pyval_ind_nested x) (all l')
      end in
  match v with
  | PNone => HNone
  | PBool b => HBool b
  | PInt z => HInt z
  | PStr s => HStr s
  | PUnicode s => HUnicode s
  | PList l => HList l (all l)
  | PTuple l => HTuple l (all l)
  | PFrozenset l => HFrozenset l (all l)
  | PDict d =>
      HDict d
        ((fix alld (d : list (string * pyval))
            : Forall (fun kv => P (snd kv)) d :=
            match d with
            | [] => @List.Forall_nil _ _
            | kv :: d' =>
                @List.Forall_cons _ (fun kv => P (snd kv)) kv d'
                  (pyval_ind_nested (snd kv)) (alld d')
            end) d)
  end.
End pyval_rect_nested.

Lemma list_eqb_eq {A} (eqb : A -> A -> bool) (a : list A) :
  Forall (fun x => forall y, eqb x y = true <-> x = y) a ->
  forall b, list_eqb eqb a b = true <-> a = b.
Proof.
  induction 1 as [|x a Hx _ IH]; intros [|y b]; simpl; try (split; congruence).
  rewrite andb_true_iff, Hx, IH. split; [intros [-> ->]|intros [= -> ->]]; auto.
Qed.

Lemma pyval_eqb_eq (x y : pyval) : pyval_eqb x y = true <-> x = y.
Proof.
  revert y. induction x using pyval_ind_nested; intros y; destruct y; simpl;
    try (split; congruence).
  - rewrite Bool.eqb_true_iff. split; congruence.
  - rewrite Z.eqb_eq. split; congruence.
  - rewrite String.eqb_eq. split; congruence.
  - rewrite String.eqb_eq. split; congruence.
  - rewrite (list_eqb_eq _ _ H). split; congruence.
  - rewrite (list_eqb_eq _ _ H). split; congruence.
  - rewrite list_eqb_eq; [split; congruence|].
    eapply Forall_impl; [exact H|]. intros [k v] Hv [k' v']; simpl in *.
    rewrite andb_true_iff, String.eqb_eq, Hv. split; [intros [-> ->]|intros [= -> ->]]; auto.
  - rewrite (list_eqb_eq _ _ H). split; congruence.
Qed.

#[global] Instance pyval_eq_dec : EqDecision pyval.
Proof.
  intros x y. destruct (pyval_eqb x y) eqn:E.
  - left. now apply pyval_eqb_eq.
  - right. intros H. apply pyval_eqb_eq in H. congruence.
Defined.

(** ** Python's [==]

    An integer equals the boolean of its value, a [str] equals the
    [unicode] of the same ASCII text, lists and tuples are compared
    element by element, frozensets as sets and dictionaries as
    mappings. *)

Definition is_ascii (s : string) : bool :=
  forallb (fun c => Nat.ltb (nat_of_ascii c) 128)
          (String.list_ascii_of_string s).

Fixpoint py_eq (x y : pyval) {struct x} : bool :=
  match x, y with
  | PNone, PNone => true
  | PBool a, PBool b => Bool.eqb a b
  | PBool a, PInt z | PInt z, PBool a => Z.eqb (if a then 1 else 0) z
  | PInt a, PInt b => Z.eqb a b
  | PStr a, PStr b | PUnicode a, PUnicode b => String.eqb a b
  | PStr a, PUnicode b | PUnicode a, PStr b => is_ascii a && String.eqb a b
  | PList a, PList b => list_eqb py_eq a b
  | PTuple a, PTuple b => list_eqb py_eq a b
  | PFrozenset a, PFrozenset b =>
      forallb (fun x' => existsb (py_eq x') b) a
      && forallb (fun y' => existsb (fun x' => py_eq x' y') a) b
  | PDict a, PDict b =>
      Nat.eqb (length a) (length b)
      && forallb (fun kv =>
                    match dict_get (fst kv) b with
                    | Some v => py_eq (snd kv) v
                    | None => false
                    end) a
  | _, _ => false
  end.

(** ** State and exceptions

    A method that mutates the object it was handed is a function from
    the object's state to an outcome and the object's new state.  The
    state survives an exception: what was popped stays popped. *)

Definition M (S A : Type) : Type := S -> result A * S.

Definition mret {S A} (a : A) : M S A := fun s => (inr a, s).
Definition mraise {S A} (e : exn) : M S A := fun s => (inl e, s).
Definition lift {S A} (r : result A) : M S A := fun s => (r, s).
Definition get {S} : M S S := fun s => (inr s, s).
Definition put {S} (s : S) : M S unit := fun _ => (inr tt, s).

Definition bind {S A B} (m : M S A) (k : A -> M S B) : M S B :=
  fun s =>
    match m s with
    | (inl e, s') => (inl e, s')
    | (inr a, s') => k a s'
    end.

(** [try: m except ValueError as e: h e.message] *)
Definition mexcept_ValueError {S A} (m : M S A) (h : string -> M S A)
  : M S A :=
  fun s =>
    match m s with
    | (inl (ValueError msg), s') => h msg s'
    | r => r
    end.

(** [try: m except KeyError as e: h e.message] *)
Definition mexcept_KeyError {S A} (m : M S A) (h : string -> M S A)
  : M S A :=
  fun s =>
    match m s with
    | (inl (KeyError k), s') => h k s'
    | r => r
    end.

(** [v.pop(key)] and [v.pop(key, default)], on the object in the state. *)
Definition pop (key : string) (default : option pyval) : M pyval pyval :=
  fun v =>
    match v with
    | PDict d =>
        match dict_get key d with
        | Some x => (ret x, PDict (dict_del key d))
        | None =>
            match default with
            | Some x => (ret x, v)
            | None => (raise (KeyError key), v)
            end
        end
    | PList _ => (raise TypeError, v)
    | _ => (raise AttributeError, v)
    end.

(** [v.keys()] *)
Definition keys_of (v : pyval) : result (list string) :=
  match v with
  | PDict d => ret (keys d)
  | _ => raise AttributeError
  end.

(** [for x in l: body], where the body may mutate the element [x] it
    visits.  Returns what the bodies returned and the list's elements as
    the loop left them. *)
Fixpoint for_each {A} (body : M pyval A) (l : list pyval)
  : result (list A) * list pyval :=
  match l with
  | [] => (ret [], [])
  | x :: l' =>
      match body x with
      | (inl e, x') => (inl e, x' :: l')
      | (inr a, x') =>
          let '(r, l'') := for_each body l' in
          (rbind r (fun rest => ret (a :: rest)), x' :: l'')
      end
  end.

(** [for k, v in d.items(): body], likewise. *)
Fixpoint for_items {A} (body : string -> M pyval A) (d : dict)
  : result (list (string * A)) * dict :=
  match d with
  | [] => (ret [], [])
  | (k, v) :: d' =>
      match body k v with
      | (inl e, v') => (inl e, (k, v') :: d')
      | (inr a, v') =>
          let '(r, d'') := for_items body d' in
          (rbind r (fun rest => ret ((k, a) :: rest)), (k, v') :: d'')
      end
  end.

(** [for x in v: body] for an object [v]; only the elements of a list or
    tuple can be objects that the body mutates. *)
Definition for_each_in {A} (body : M pyval A) : M pyval (list A) :=
  fun v =>
    match v with
    | PList l => let '(r, l') := for_each body l in (r, PList l')
    | PTuple l => let '(r, l') := for_each body l in (r, PTuple l')
    | _ =>
        match iter v with
        | inl e => (inl e, v)
        | inr l => (fst (for_each body l), v)
        end
    end.

(** The object under [key] of the dictionary in the state has been
    mutated in place into [child]. *)
Definition update_item (key : string) (child : pyval) : M pyval unit :=
  fun v =>
    match v with
    | PDict d => (ret tt, PDict (dict_set key child d))
    | _ => (ret tt, v)
    end.

(** A loop whose body mutates nothing and returns nothing. *)
Fixpoint for_ {A} (l : list A) (body : A -> result unit) : result unit :=
  match l with
  | [] => ret tt
  | x :: l' => rbind (body x) (fun _ => for_ l' body)
  end.

(** A loop that collects what its body returns. *)
Fixpoint for_collect {A B} (l : list A) (body : A -> result B)
  : result (list B) :=
  match l with
  | [] => ret []
  | x :: l' =>
      rbind (body x) (fun b =>
      rbind (for_collect l' body) (fun bs => ret (b :: bs)))
  end.

(** ** [__hash__], [__eq__] and sets

    What a [set] or [frozenset] asks of its elements: [py_hashable x]
    says whether [hash(x)] returns, [py_equal x y] is [x == y]. *)
Class PyValue (A : Type) := {
  py_hashable : A -> bool;
  py_equal : A -> A -> bool
}.

#[global] Instance pyval_value : PyValue pyval :=
  {| py_hashable := hashable; py_equal := py_eq |}.

#[global] Instance string_value : PyValue string :=
  {| py_hashable _ := true; py_equal := String.eqb |}.

(** [s.add(x)]: an element equal to one that is there is not added. *)
Definition set_add {A} `{PyValue A} (x : A) (s : list A) : list A :=
  if existsb (fun y => py_equal y x) s then s else (s ++ [x])%list.

(** The elements of [l] as a set built by adding them one by one; the
    order of the list stands for the set's iteration order. *)
Definition distinct {A} `{PyValue A} (l : list A) : list A :=
  fold_left (fun s x => set_add x s) l [].

(** [frozenset(l)] and [set(l)]: every element is hashed. *)
Definition frozenset {A} `{PyValue A} (l : list A) : result (list A) :=
  if forallb py_hashable l then ret (distinct l) else raise TypeError.

(** [a == b] for two sets. *)
Definition set_equal {A} `{PyValue A} (a b : list A) : bool :=
  forallb (fun x => existsb (py_equal x) b) a
  && forallb (fun y => existsb (py_equal y) a) b.

End Py.

Declare Scope py_scope.
Delimit Scope py_scope with py.
Notation "'let*' x ':=' m 'in' k" :=
  (Py.bind m (fun x => k))
  (at level 10, x pattern, m at level 100, k at level 200) : py_scope.
Notation "'let?' x ':=' m 'in' k" :=
  (Py.rbind m (fun x => k))
  (at level 10, x pattern, m at level 100, k at level 200) : py_scope.

(* ===================================================================== *)
(** * The model objects *)
(* ===================================================================== *)

Module Model.
Import Py.

(** The classes of [flocker.node._model], with the attributes that
    [_config.py] passes to their constructors.  Attributes the parser
    fills with an unchecked configuration value are [pyval]s.  A
    [frozenset] is a list without two equal elements, whose order stands
    for the set's iteration order. *)

Record DockerImage := { repository : string; tag : string }.

Record FilePath := { path : string }.

Record AttachedVolume := {
  volume_name : string;
  mountpoint : option FilePath
}.

Record Port := { internal_port : pyval; external_port : pyval }.

Record Link := { local_port : pyval; remote_port : pyval; alias : pyval }.

Record Application := {
  name : string;
  image : DockerImage;
  volume : option AttachedVolume;
  ports : list Port;
  links : list Link;
  environment : pyval
}.

Record Node := { hostname : string; applications : list Application }.

Record Deployment := { nodes : list Node }.

#[global] Instance DockerImage_eq_dec : EqDecision DockerImage.
Proof. solve_decision. Defined.
#[global] Instance FilePath_eq_dec : EqDecision FilePath.
Proof. solve_decision. Defined.
#[global] Instance AttachedVolume_eq_dec : EqDecision AttachedVolume.
Proof. solve_decision. Defined.
#[global] Instance Port_eq_dec : EqDecision Port.
Proof. solve_decision. Defined.
#[global] Instance Link_eq_dec : EqDecision Link.
Proof. solve_decision. Defined.
#[global] Instance Application_eq_dec : EqDecision Application.
Proof. solve_decision. Defined.
#[global] Instance Node_eq_dec : EqDecision Node.
Proof. solve_decision. Defined.
#[global] Instance Deployment_eq_dec : EqDecision Deployment.
Proof. solve_decision. Defined.

(** Modelled from the spec: [DockerImage.from_string], which
    [flocker.node._model] defines, is not among the sources.  The spec
    calls an image a "parsed image reference: repository + tag" and has
    "nginx:latest" parse to repository "nginx" and tag "latest": the text
    is cut at its last colon.  What the caller in [_config.py] shows is
    that a bad name is rejected with a [ValueError]; here that is a name
    with an empty repository, and a name without a colon gets the tag
    "latest". *)
Definition DockerImage_from_string (input : pyval) : result DockerImage :=
  match input with
  | PStr s | PUnicode s =>
      let parts := split ":" s in
      let '(repository, tag) :=
        match reverse parts with
        | t :: (_ :: _) as r => (join ":" (reverse r), t)
        | _ => (s, "latest")
        end in
      if String.eqb repository "" then
        raise (ValueError
                 ("Docker image names must have format 'repository[:tag]'. "
                    +:+ "Found '" +:+ s +:+ "'."))
      else ret {| repository := repository; tag := tag |}
  | _ => raise AttributeError
  end.

(** Modelled from the spec: [__eq__] and [__hash__] of the classes of
    [flocker.node._model], which is not among the sources.  Section 3 of
    the spec calls them "Immutable value; equality by contents": two
    objects are equal when their attributes are, and an object is hashed
    through its attributes, so one that holds an unhashable value cannot
    be hashed. *)
#[global] Instance option_value {A} `{PyValue A} : PyValue (option A) :=
  {| py_hashable o := match o with
                      | Some x => py_hashable x
                      | None => true
                      end;
     py_equal a b := match a, b with
                     | Some x, Some y => py_equal x y
                     | None, None => true
                     | _, _ => false
                     end |}.

#[global] Instance DockerImage_value : PyValue DockerImage :=
  {| py_hashable _ := true;
     py_equal a b := String.eqb (repository a) (repository b)
                     && String.eqb (tag a) (tag b) |}.

#[global] Instance FilePath_value : PyValue FilePath :=
  {| py_hashable _ := true;
     py_equal a b := String.eqb (path a) (path b) |}.

#[global] Instance AttachedVolume_value : PyValue AttachedVolume :=
  {| py_hashable v := py_hashable (mountpoint v);
     py_equal a b := String.eqb (volume_name a) (volume_name b)
                     && py_equal (mountpoint a) (mountpoint b) |}.

#[global] Instance Port_value : PyValue Port :=
  {| py_hashable p := hashable (internal_port p)
                      && hashable (external_port p);
     py_equal a b := py_eq (internal_port a) (internal_port b)
                     && py_eq (external_port a) (external_port b) |}.

#[global] Instance Link_value : PyValue Link :=
  {| py_hashable l := hashable (local_port l) && hashable (remote_port l)
                      && hashable (alias l);
     py_equal a b := py_eq (local_port a) (local_port b)
                     && py_eq (remote_port a) (remote_port b)
                     && py_eq (alias a) (alias b) |}.

#[global] Instance Application_value : PyValue Application :=
  {| py_hashable a := py_hashable (volume a)
                      && forallb py_hashable (ports a)
                      && forallb py_hashable (links a)
                      && hashable (environment a);
     py_equal a b := String.eqb (name a) (name b)
                     && py_equal (image a) (image b)
                     && py_equal (volume a) (volume b)
                     && set_equal (ports a) (ports b)
                     && set_equal (links a) (links b)
                     && py_eq (environment a) (environment b) |}.

#[global] Instance Node_value : PyValue Node :=
  {| py_hashable n := forallb py_hashable (applications n);
     py_equal a b := String.eqb (hostname a) (hostname b)
                     && set_equal (applications a) (applications b) |}.

(** [FilePath(path)]: Twisted's [FilePath] keeps [abspath(path)]. *)
Definition new_FilePath `{WorkingDirectory} (path : string) : FilePath :=
  {| path := abspath path |}.

(** [frozenset(d.items())] as a Python value. *)
Definition frozenset_items (d : dict) : pyval :=
  PFrozenset (map (fun kv => PTuple [PStr (fst kv); snd kv]) d).

(** [application.links = links] *)
Definition set_links (a : Application) (l : list Link) : Application :=
  {| name := name a; image := image a; volume := volume a;
     ports := ports a; links := l; environment := environment a |}.

End Model.

(* ===================================================================== *)
(** * [flocker/node/_config.py] *)
(* ===================================================================== *)

Module Config.
Import Py Model.
Local Open Scope py_scope.

Definition config_error (application_name message : string) : exn :=
  ConfigurationError
    ("Application '" +:+ application_name +:+ "' has a config error. "
       +:+ message).

Definition _check_type (value : pyval) (types : list pytype)
    (description application_name : string) : result unit :=
  if isinstance value types then ret tt
  else raise (config_error application_name
                (description +:+ "; got type '"
                   +:+ type_name (type_of value) +:+ "'.")).

(** The applications a configuration defines: a [dict] from name to
    [Application]. *)
Definition applications_map := list (string * Application).

(** [applications.get(name)] *)
Definition get_application (applications : applications_map) (name : pyval)
  : result (option Application) :=
  if hashable name then
    ret (snd <$> List.find (fun kv => is_string_eq (fst kv) name) applications)
  else raise TypeError.

(** [applications[name]] *)
Definition lookup_application (applications : applications_map)
    (name : pyval) : result Application :=
  let? found := get_application applications name in
  match found with
  | Some a => ret a
  | None => raise (KeyError (str name))
  end.

Section Configuration.

Context `{WorkingDirectory}.

(** [self._lenient] *)
Variable _lenient : bool.

(** [DockerImage.from_string], which [flocker.node._model] defines. *)
Variable from_string : pyval -> result DockerImage.

(** The state is the application's [config].  The names of the
    variables are keys of a dictionary, which are strings here: the
    check of a name is there, and passes. *)
Definition _parse_environment_config (application_name : string)
  : M pyval pyval :=
  let* environment := pop "environment" (Some PNone) in
  if truthy environment then
    let* _ := lift (_check_type environment [TDict]
                      "'environment' must be a dictionary of key/value pairs"
                      application_name) in
    let* pairs := lift (items environment) in
    let* _ := lift (for_ pairs (fun kv =>
      let? _ := _check_type (PStr (fst kv)) StringTypes
                  "Environment variable name must be a string"
                  application_name in
      _check_type (snd kv) StringTypes
        ("Environment variable '" +:+ fst kv +:+ "' must be a string")
        application_name)) in
    mret (frozenset_items pairs)
  else mret environment.

(** The body of the loop of [_parse_link_configuration]; the state is
    the [link].  Its keys are strings, as those of every dictionary
    here, so that [', '.join] of the keys that are left is defined. *)
Definition parse_link (application_name : string) : M pyval Link :=
  let* link := get in
  let* _ := lift (_check_type link [TDict] "Link must be a dictionary"
                    application_name) in
  let* local_port :=
    mexcept_KeyError
      (let* local_port := pop "local_port" None in
       let* _ := lift (_check_type local_port [TInt]
                         "Link's local port must be an int"
                         application_name) in
       mret local_port)
      (fun _ => mraise (ValueError "Missing local port.")) in
  let* remote_port :=
    mexcept_KeyError
      (let* remote_port := pop "remote_port" None in
       let* _ := lift (_check_type remote_port [TInt]
                         "Link's remote port must be an int"
                         application_name) in
       mret remote_port)
      (fun _ => mraise (ValueError "Missing remote port.")) in
  let* alias :=
    mexcept_KeyError
      (let* alias := pop "alias" None in
       let* _ := lift (_check_type alias StringTypes
                         "Link alias must be a string"
                         application_name) in
       mret alias)
      (fun _ => mraise (ValueError "Missing alias.")) in
  let* link := get in
  if truthy link then
    let* ks := lift (keys_of link) in
    mraise (ValueError ("Unrecognised keys: " +:+ join ", " (sorted ks)
                          +:+ "."))
  else
    mret {| local_port := local_port; remote_port := remote_port;
            alias := alias |}.

(** The state is the [config] argument, the [links] stanza. *)
Definition _parse_link_configuration (application_name : string)
  : M pyval (list Link) :=
  let* config := get in
  let* _ := lift (_check_type config [TList]
                    "'links' must be a list of dictionaries"
                    application_name) in
  let* links :=
    mexcept_ValueError
      (for_each_in (parse_link application_name))
      (fun message =>
         mraise (config_error application_name
                   ("Invalid links specification. " +:+ message))) in
  lift (frozenset links).

(** [set(config)] is the set of the keys of [config]. *)
Definition _count_fig_identifier_keys (config : pyval) : result nat :=
  let possible_identifiers := ["image"; "build"] in
  let? config_keys := keys_of config in
  ret (length (List.filter (fun k => existsb (String.eqb k) config_keys)
                 possible_identifiers)).

(** ** The fig format *)

(** The dictionary that the loop over [links] appends to
    [application_links[application_name]]. *)
Record link_definition := {
  target_application : pyval;
  link_alias : pyval;
  ports_local : pyval;
  ports_remote : pyval
}.

Definition unsupported_keys : list string :=
  ["working_dir"; "entrypoint"; "user"; "hostname"; "domainname";
   "mem_limit"; "privileged"; "dns"; "net"; "volumes_from"; "expose";
   "command"].

Definition allowed_keys : list string :=
  ["image"; "environment"; "ports"; "links"; "volumes"].

Definition member (k : string) (l : list string) : bool :=
  existsb (String.eqb k) l.

Definition fig_environment (application_name : string) (config : pyval)
  : result pyval :=
  let? environment := getitem config "environment" in
  let? _ := _check_type environment [TDict]
              "'environment' must be a dictionary" application_name in
  let? pairs := items environment in
  let? _ := for_ pairs (fun kv =>
    _check_type (snd kv) [TStr; TUnicode]
      ("'environment' value for '" +:+ fst kv +:+ "' must be a string")
      application_name) in
  ret (frozenset_items pairs).

(** The state is the application's [config]: [config['volumes'].pop()]
    takes the volume out of the caller's list. *)
Definition fig_volume (application_name : string)
  : M pyval AttachedVolume :=
  let* config := get in
  let* volumes := lift (getitem config "volumes") in
  let* _ := lift (_check_type volumes [TList] "'volumes' must be a list"
                    application_name) in
  let* elems := lift (iter volumes) in
  let* _ := lift (for_ elems (fun volume =>
    if negb (isinstance volume [TStr; TUnicode]) then
      raise (config_error application_name
               ("'volumes' values must be string; got type '"
                  +:+ type_name (type_of volume) +:+ "'."))
    else ret tt)) in
  if (1 <? length elems)%nat then
    mraise (config_error application_name
              "Only one volume per application is supported at this time.")
  else
    let* popped := lift (list_pop elems) in
    let* _ := update_item "volumes" (PList (snd popped)) in
    mret {| volume_name := application_name;
            mountpoint := Some (new_FilePath (str (fst popped))) |}.

Definition fig_port (application_name : string) (port : pyval)
  : result Port :=
  let? parsed_ports := split_colon port in
  if negb (length parsed_ports =? 2)%nat then
    raise (config_error application_name
             ("'ports' must be list of string values in the form of "
                +:+ "'host_port:container_port'."))
  else
    let? parsed_ports :=
      except_ValueError (for_collect parsed_ports int)
        (fun _ =>
           raise (config_error application_name
                    ("'ports' value '" +:+ str port
                       +:+ "' could not be parsed in to integer values.")))
    in
    match parsed_ports with
    | [external; internal] =>
        ret {| internal_port := PInt internal;
               external_port := PInt external |}
    | _ => raise IndexError
    end.

Definition fig_ports (application_name : string) (config : pyval)
  : result (list Port) :=
  let? ports := getitem config "ports" in
  let? _ := _check_type ports [TList] "'ports' must be a list"
              application_name in
  let? elems := iter ports in
  for_collect elems (fig_port application_name).

Definition fig_link (all_application_names : list string)
    (application_name : string) (link : pyval) : result link_definition :=
  if negb (isinstance link [TStr; TUnicode]) then
    raise (config_error application_name
             ("'links' must be a list of application names with "
                +:+ "optional :alias."))
  else
    let? parsed_link := split_colon link in
    let? local_link := match parsed_link with
                       | x :: _ => ret x
                       | [] => raise IndexError
                       end in
    let aliased_link := match parsed_link with
                        | [_; a] => a
                        | _ => local_link
                        end in
    if negb (existsb (fun k => is_string_eq k local_link)
               all_application_names) then
      raise (config_error application_name
               ("'links' value '" +:+ str link
                  +:+ "' could not be mapped to any application; "
                  +:+ "application '" +:+ str link
                  +:+ "' does not exist."))
    else
      ret {| target_application := local_link;
             link_alias := aliased_link;
             ports_local := PNone;
             ports_remote := PNone |}.

Definition fig_links (all_application_names : list string)
    (application_name : string) (config : pyval)
  : result (list link_definition) :=
  let? links := getitem config "links" in
  let? _ := _check_type links [TList] "'links' must be a list"
              application_name in
  let? elems := iter links in
  for_collect elems (fig_link all_application_names application_name).

(** The body of the first loop of
    [_applications_from_fig_configuration], inside its [try]; the state
    is the application's [config]. *)
Definition fig_application_try (all_application_names : list string)
    (application_name : string)
  : M pyval (Application * list link_definition) :=
  let* config := get in
  let* _ := lift (_check_type config [TDict]
                    "Application configuration must be dictionary"
                    application_name) in
  let* count := lift (_count_fig_identifier_keys config) in
  if (count =? 0)%nat then
    mraise (ValueError ("Application configuration must contain either an "
                          +:+ "'image' or 'build' key."))
  else
  let* has_build := lift (contains "build" config) in
  if has_build then
    mraise (ValueError
              "'build' is not supported yet; please specify 'image'.")
  else
  let* present_keys := lift (keys_of config) in
  let invalid_keys :=
    List.filter (fun k => negb (member k allowed_keys)) present_keys in
  let present_unsupported_keys :=
    List.filter (fun k => member k present_keys) unsupported_keys in
  if nonempty present_unsupported_keys then
    mraise (ValueError ("Unsupported fig keys found: "
                          +:+ join ", " (sorted present_unsupported_keys)))
  else
  if nonempty invalid_keys then
    mraise (ValueError ("Unrecognised keys: " +:+ join ", " invalid_keys))
  else
  let* image_name := lift (getitem config "image") in
  let* _ := lift (_check_type image_name [TStr; TUnicode]
                    "'image' must be a string" application_name) in
  let* image := lift (from_string image_name) in
  let* environment :=
    if member "environment" present_keys
    then lift (fig_environment application_name config)
    else mret PNone in
  let* volume :=
    if member "volumes" present_keys
    then let* v := fig_volume application_name in mret (Some v)
    else mret None in
  let* ports :=
    if member "ports" present_keys
    then lift (fig_ports application_name config)
    else mret [] in
  let* application_links :=
    if member "links" present_keys
    then lift (fig_links all_application_names application_name config)
    else mret [] in
  let* ports := lift (frozenset ports) in
  let* links := lift (frozenset (@nil Link)) in
  mret ({| name := application_name;
           image := image;
           volume := volume;
           ports := ports;
           links := links;
           environment := environment |},
        application_links).

Definition fig_application (all_application_names : list string)
    (application_name : string)
  : M pyval (Application * list link_definition) :=
  mexcept_ValueError
    (fig_application_try all_application_names application_name)
    (fun message => mraise (config_error application_name message)).

(** The body of the inner loop of the second pass. *)
Definition resolve_link (applications : applications_map)
    (link_definition : link_definition) : result Link :=
  let remote_port := ports_remote link_definition in
  let local_port := ports_local link_definition in
  if negb (truthy remote_port) then
    let? target := lookup_application applications
                     (target_application link_definition) in
    let target_application_ports := ports target in
    let? target_ports_object := next target_application_ports in
    ret {| local_port := internal_port target_ports_object;
           remote_port := external_port target_ports_object;
           alias := link_alias link_definition |}
  else
    ret {| local_port := local_port; remote_port := remote_port;
           alias := link_alias link_definition |}.

(** [applications[application_name].links = links] *)
Definition set_application_links (application_name : string)
    (l : list Link) (applications : applications_map) : applications_map :=
  map (fun kv => if String.eqb (fst kv) application_name
                 then (fst kv, set_links (snd kv) l) else kv)
      applications.

(** The second pass: [for application_name, link in
    application_links.items()]. *)
Fixpoint resolve_links
    (application_links : list (string * list link_definition))
    (applications : applications_map) : result applications_map :=
  match application_links with
  | [] => ret applications
  | (application_name, link) :: rest =>
      let? links := for_collect link (resolve_link applications) in
      let? links := frozenset links in
      resolve_links rest
        (set_application_links application_name links applications)
  end.

(** The state is [application_configuration]. *)
Definition _applications_from_fig_configuration
  : M pyval applications_map :=
  let* application_configuration := get in
  let* all_application_names := lift (keys_of application_configuration) in
  let* pairs := lift (items application_configuration) in
  let '(parsed, pairs') :=
    for_items (fig_application all_application_names) pairs in
  let* _ := put (PDict pairs') in
  let* parsed := lift parsed in
  let applications := map (fun kv => (fst kv, fst (snd kv))) parsed in
  let application_links := map (fun kv => (fst kv, snd (snd kv))) parsed in
  lift (resolve_links application_links applications).

(** ** The flocker format *)

(** The body of the loop over [ports]; the state is the [port]. *)
Definition parse_port : M pyval Port :=
  let* internal_port :=
    mexcept_KeyError (pop "internal" None)
      (fun _ => mraise (ValueError "Missing internal port.")) in
  let* external_port :=
    mexcept_KeyError (pop "external" None)
      (fun _ => mraise (ValueError "Missing external port.")) in
  let* port := get in
  if truthy port then
    let* ks := lift (keys_of port) in
    mraise (ValueError ("Unrecognised keys: " +:+ join ", " (sorted ks)
                          +:+ "."))
  else
    mret {| internal_port := internal_port;
            external_port := external_port |}.

(** The [try] block under [if "volume" in config]; the state is the
    application's [config]. *)
Definition parse_volume (application_name : string)
  : M pyval AttachedVolume :=
  let* configured_volume := pop "volume" None in
  lift (
    let? mountpoint :=
      match getitem configured_volume "mountpoint" with
      | inl TypeError =>
          raise (ValueError ("Unexpected value: " +:+ str configured_volume))
      | inl (KeyError _) => raise (ValueError "Missing mountpoint.")
      | r => r
      end in
    if negb (_lenient && is_None mountpoint) then
      if negb (isinstance mountpoint [TStr]) then
        raise (ValueError ("Mountpoint " +:+ str mountpoint
                             +:+ " contains non-ASCII (unsupported)."))
      else if negb (isabs (str mountpoint)) then
        raise (ValueError ("Mountpoint " +:+ str mountpoint
                             +:+ " is not an absolute path."))
      else
        let configured_volume :=
          snd (pop "mountpoint" None configured_volume) in
        if truthy configured_volume then
          let? ks := keys_of configured_volume in
          raise (ValueError ("Unrecognised keys: "
                               +:+ join ", " (sorted ks) +:+ "."))
        else
          ret {| volume_name := application_name;
                 mountpoint := Some (new_FilePath (str mountpoint)) |}
    else
      ret {| volume_name := application_name; mountpoint := None |}).

(** The body of the loop of [_applications_from_flocker_configuration];
    the state is the application's [config]. *)
Definition flocker_application (application_name : string)
  : M pyval Application :=
  let* image_name :=
    mexcept_KeyError (pop "image" None)
      (fun message =>
         mraise (config_error application_name
                   ("Missing value for '" +:+ message +:+ "'."))) in
  let* image :=
    lift (except_ValueError (from_string image_name)
            (fun message =>
               raise (config_error application_name
                        ("Invalid Docker image name. " +:+ message)))) in
  let* ports :=
    mexcept_ValueError
      (let* ports_config := pop "ports" (Some (PList [])) in
       lift (fst (for_each_in parse_port ports_config)))
      (fun message =>
         mraise (config_error application_name
                   ("Invalid ports specification. " +:+ message))) in
  let* links_config := pop "links" (Some (PList [])) in
  let* links :=
    lift (fst (_parse_link_configuration application_name links_config)) in
  let* config := get in
  let* has_volume := lift (contains "volume" config) in
  let* volume :=
    if has_volume then
      mexcept_ValueError
        (let* v := parse_volume application_name in mret (Some v))
        (fun message =>
           mraise (config_error application_name
                     ("Invalid volume specification. " +:+ message)))
    else mret None in
  let* environment := _parse_environment_config application_name in
  let* ports := lift (frozenset ports) in
  let application :=
    {| name := application_name;
       image := image;
       volume := volume;
       ports := ports;
       links := links;
       environment := environment |} in
  let* config := get in
  if truthy config then
    let* ks := lift (keys_of config) in
    mraise (config_error application_name
              ("Unrecognised keys: " +:+ join ", " (sorted ks) +:+ "."))
  else mret application.

(** The state is [application_configuration]. *)
Definition _applications_from_flocker_configuration
  : M pyval applications_map :=
  let* application_configuration := get in
  let* has_applications :=
    lift (contains "applications" application_configuration) in
  if negb has_applications then
    mraise (ConfigurationError
              ("Application configuration has an error. "
                 +:+ "Missing 'applications' key."))
  else
  let* has_version := lift (contains "version" application_configuration) in
  if negb has_version then
    mraise (ConfigurationError
              ("Application configuration has an error. "
                 +:+ "Missing 'version' key."))
  else
  let* version := lift (getitem application_configuration "version") in
  if ne_int version 1 then
    mraise (ConfigurationError
              ("Application configuration has an error. "
                 +:+ "Incorrect version specified."))
  else
  let* applications_config :=
    lift (getitem application_configuration "applications") in
  let* pairs := lift (items applications_config) in
  let '(applications, pairs') := for_items flocker_application pairs in
  let* _ := update_item "applications" (PDict pairs') in
  lift applications.

(** ** Choosing the format *)

(** The loop of [_is_fig_configuration], with its flag [fig]. *)
Fixpoint is_fig_loop (fig : bool) (pairs : dict) : result bool :=
  match pairs with
  | [] => ret fig
  | (application_name, config) :: rest =>
      if isinstance config [TDict] then
        let? required_keys := _count_fig_identifier_keys config in
        if (required_keys =? 1)%nat then is_fig_loop true rest
        else if (1 <? required_keys)%nat then
          raise (config_error application_name
                   "Must specify either 'build' or 'image'; found both.")
        else is_fig_loop fig rest
      else is_fig_loop fig rest
  end.

Definition _is_fig_configuration (application_configuration : pyval)
  : result bool :=
  if negb (isinstance application_configuration [TDict]) then
    raise (ConfigurationError
             ("Application configuration must be a dictionary, got "
                +:+ type_name (type_of application_configuration) +:+ "."))
  else
    let? pairs := items application_configuration in
    is_fig_loop false pairs.

(** The state is [application_configuration]. *)
Definition _applications_from_configuration : M pyval applications_map :=
  let* application_configuration := get in
  let* fig := lift (_is_fig_configuration application_configuration) in
  if fig then _applications_from_fig_configuration
  else _applications_from_flocker_configuration.

(** ** The deployment configuration *)

Definition unrecognised_application (hostname : string) (name : pyval)
  : string :=
  "Node " +:+ hostname +:+ " has a config error. "
    +:+ "Unrecognised application name: " +:+ str name +:+ ".".

(** The body of the loop over a node's [application_names]. *)
Definition find_application (all_applications : applications_map)
    (hostname : string) (name : pyval) : result Application :=
  let? application := get_application all_applications name in
  match application with
  | None => raise (ConfigurationError (unrecognised_application hostname name))
  | Some application => ret application
  end.

(** The body of the loop over [nodes]. *)
Definition node_from_configuration (all_applications : applications_map)
    (hostname : string) (application_names : pyval) : result Node :=
  if negb (isinstance application_names [TList]) then
    raise (ConfigurationError
             ("Node " +:+ hostname +:+ " has a config error. "
                +:+ "Wrong value type: "
                +:+ type_name (type_of application_names)
                +:+ ". Should be list."))
  else
    let? names := iter application_names in
    let? node_applications :=
      for_collect names (find_application all_applications hostname) in
    let? applications := frozenset node_applications in
    ret {| hostname := hostname; applications := applications |}.

Definition _deployment_from_configuration
    (deployment_configuration : pyval)
    (all_applications : applications_map) : result (list Node) :=
  let? has_nodes := contains "nodes" deployment_configuration in
  if negb has_nodes then
    raise (ConfigurationError
             ("Deployment configuration has an error. "
                +:+ "Missing 'nodes' key."))
  else
  let? has_version := contains "version" deployment_configuration in
  if negb has_version then
    raise (ConfigurationError
             ("Deployment configuration has an error. "
                +:+ "Missing 'version' key."))
  else
  let? version := getitem deployment_configuration "version" in
  if ne_int version 1 then
    raise (ConfigurationError
             ("Deployment configuration has an error. "
                +:+ "Incorrect version specified."))
  else
  let? nodes_config := getitem deployment_configuration "nodes" in
  let? pairs := items nodes_config in
  let? nodes :=
    for_collect pairs (fun kv =>
      node_from_configuration all_applications (fst kv) (snd kv)) in
  frozenset nodes.

(** The state is [application_configuration]; the deployment
    configuration is only read. *)
Definition model_from_configuration (deployment_configuration : pyval)
  : M pyval Deployment :=
  let* applications := _applications_from_configuration in
  let* nodes :=
    lift (_deployment_from_configuration deployment_configuration
            applications) in
  let* nodes := lift (frozenset nodes) in
  mret {| nodes := nodes |}.

End Configuration.

(** ** The current configuration of a cluster *)

(** [current_from_configuration]; the state is [current_configuration],
    the map from node names to what each node reported.  The parser is
    [Configuration(lenient=True)]. *)
Definition current_from_configuration `{WorkingDirectory}
    (from_string : pyval -> result DockerImage) : M pyval Deployment :=
  let* current_configuration := get in
  let* pairs := lift (items current_configuration) in
  let '(nodes, pairs') :=
    for_items
      (fun hostname =>
         let* node_applications :=
           _applications_from_configuration true from_string in
         let* applications :=
           lift (frozenset (map snd node_applications)) in
         mret {| hostname := hostname; applications := applications |})
      pairs in
  let* _ := put (PDict pairs') in
  let* nodes := lift nodes in
  let* nodes := lift (frozenset (map snd nodes)) in
  mret {| nodes := nodes |}.

(** ** What a node reports *)

(** The dictionaries that [configuration_to_yaml] builds for a port and
    for a link. *)
Definition port_config (port : Port) : pyval :=
  PDict [("internal", internal_port port);
         ("external", external_port port)].

Definition link_config (link : Link) : pyval :=
  PDict [("local_port", local_port link);
         ("remote_port", remote_port link);
         ("alias", alias link)].

(** [result[application.name]] at the end of the loop's body.  The
    module has [unicode_literals]: "unknown" is a [unicode]. *)
Definition application_config (application : Application) : dict :=
  let result := [("image", PUnicode "unknown")] in
  let result :=
    dict_set "ports" (PList (map port_config (ports application))) result in
  let result :=
    if nonempty (links application)
    then dict_set "links" (PList (map link_config (links application))) result
    else result in
  match volume application with
  | Some _ => dict_set "volume" (PDict [("mountpoint", PNone)]) result
  | None => result
  end.

(** The dictionary that [configuration_to_yaml] hands to
    [yaml.safe_dump]. *)
Definition reported_configuration (applications : list Application)
  : pyval :=
  let result :=
    fold_left
      (fun result application =>
         dict_set (name application) (PDict (application_config application))
                  result)
      applications [] in
  PDict [("version", PInt 1); ("applications", PDict result)].

(** [configuration_to_yaml], with [yaml.safe_dump] as it is given. *)
Definition configuration_to_yaml (safe_dump : pyval -> string)
    (applications : list Application) : string :=
  safe_dump (reported_configuration applications).

End Config.

(* ===================================================================== *)
(** * The serialization codec *)
(* ===================================================================== *)

Module Codec.
Import Py Model.
Local Open Scope list_scope.

(** A Python 2 byte string. *)
Definition bytes := list ascii.

(** What a failed [fromString] raises. *)
Inductive wire_error := DeserializationError.

(** A decoder consumes a prefix of its input. *)
Definition parser (A : Type) : Type := bytes -> option (A * bytes).

Definition pmap {A B} (f : A -> B) (p : parser A) : parser B :=
  fun bs =>
    match p bs with
    | Some (a, rest) => Some (f a, rest)
    | None => None
    end.

Definition pbind {A B} (p : parser A) (k : A -> parser B) : parser B :=
  fun bs =>
    match p bs with
    | Some (a, rest) => k a rest
    | None => None
    end.

Definition ppair {A B} (p : parser A) (q : parser B) : parser (A * B) :=
  pbind p (fun a => pmap (fun b => (a, b)) q).

(** ** Numbers: seven bits to a byte, low group first, the high bit set
       on every byte but the last; the shortest form only. *)

Fixpoint enc_varint_fuel (fuel : nat) (n : N) : bytes :=
  match fuel with
  | O => [ascii_of_N n]
  | S fuel' =>
      if (n <? 128)%N then [ascii_of_N n]
      else ascii_of_N (128 + n mod 128) :: enc_varint_fuel fuel' (n / 128)
  end.

Definition enc_varint (n : N) : bytes :=
  enc_varint_fuel (N.to_nat (N.size n)) n.

Fixpoint dec_varint (bs : bytes) : option (N * bytes) :=
  match bs with
  | [] => None
  | b :: bs' =>
      let v := N_of_ascii b in
      if (v <? 128)%N then Some (v, bs')
      else
        match dec_varint bs' with
        | Some (hi, rest) =>
            if (hi =? 0)%N then None
            else Some ((v - 128) + 128 * hi, rest)%N
        | None => None
        end
  end.

Definition enc_nat (n : nat) : bytes := enc_varint (N.of_nat n).
Definition dec_nat : parser nat := pmap N.to_nat dec_varint.

(** Signed integers: 0, -1, 1, -2, ... count 0, 1, 2, 3, ... *)
Definition zigzag (z : Z) : N :=
  if (0 <=? z)%Z then Z.to_N (2 * z) else Z.to_N (- 2 * z - 1).

Definition unzigzag (n : N) : Z :=
  if N.even n then Z.of_N (n / 2) else (- Z.of_N ((n + 1) / 2))%Z.

Definition enc_Z (z : Z) : bytes := enc_varint (zigzag z).
Definition dec_Z : parser Z := pmap unzigzag dec_varint.

(** ** Strings and collections: a count, then the elements. *)

Definition enc_string (s : string) : bytes :=
  enc_nat (String.length s) ++ String.list_ascii_of_string s.

Definition dec_string : parser string :=
  pbind dec_nat (fun n bs =>
    if (n <=? length bs)%nat
    then Some (String.string_of_list_ascii (take n bs), drop n bs)
    else None).

Fixpoint dec_n {A} (p : parser A) (n : nat) : parser (list A) :=
  match n with
  | O => fun bs => Some ([], bs)
  | S n' => pbind p (fun a => pmap (cons a) (dec_n p n'))
  end.

Definition enc_list {A} (enc : A -> bytes) (l : list A) : bytes :=
  enc_nat (length l) ++ concat (map enc l).

Definition dec_list {A} (p : parser A) : parser (list A) :=
  pbind dec_nat (dec_n p).

Definition marker (n : N) : ascii := ascii_of_N n.

(** One byte, which must be [t]. *)
Definition expect (t : N) : parser unit :=
  fun bs =>
    match bs with
    | b :: rest => if (N_of_ascii b =? t)%N then Some (tt, rest) else None
    | [] => None
    end.

Definition enc_option {A} (enc : A -> bytes) (o : option A) : bytes :=
  match o with
  | None => [marker 0]
  | Some a => marker 1 :: enc a
  end.

Definition dec_option {A} (p : parser A) : parser (option A) :=
  fun bs =>
    match bs with
    | b :: rest =>
        if (N_of_ascii b =? 0)%N then Some (None, rest)
        else if (N_of_ascii b =? 1)%N then pmap Some p rest
        else None
    | [] => None
    end.

(** ** Python values: a tag for the class, then the value. *)

Fixpoint enc_pyval (v : pyval) : bytes :=
  match v with
  | PNone => [marker 0]
  | PBool b => [marker 1; marker (if b then 1 else 0)]
  | PInt z => marker 2 :: enc_Z z
  | PStr s => marker 3 :: enc_string s
  | PUnicode s => marker 4 :: enc_string s
  | PList l => marker 5 :: enc_nat (length l) ++ concat (map enc_pyval l)
  | PTuple l => marker 6 :: enc_nat (length l) ++ concat (map enc_pyval l)
  | PDict d =>
      marker 7 :: enc_nat (length d)
        ++ concat (map (fun kv => enc_string (fst kv) ++ enc_pyval (snd kv)) d)
  | PFrozenset l => marker 8 :: enc_nat (length l) ++ concat (map enc_pyval l)
  end.

(** The decoders follow the schema of the model: an attribute is read
    back only as a value of the class the model gives it. *)

Definition dec_int : parser pyval :=
  pbind (expect 2) (fun _ => pmap PInt dec_Z).

Definition dec_text : parser pyval :=
  fun bs =>
    match bs with
    | b :: rest =>
        if (N_of_ascii b =? 3)%N then pmap PStr dec_string rest
        else if (N_of_ascii b =? 4)%N then pmap PUnicode dec_string rest
        else None
    | [] => None
    end.

(** A [(key, value)] tuple of an environment. *)
Definition dec_variable : parser pyval :=
  pbind (expect 6) (fun _ =>
  pbind (expect 2) (fun _ =>
  pmap (fun kv => PTuple [fst kv; snd kv]) (ppair dec_text dec_text))).

Definition dec_environment : parser pyval :=
  fun bs =>
    match bs with
    | b :: rest =>
        if (N_of_ascii b =? 0)%N then Some (PNone, rest)
        else if (N_of_ascii b =? 8)%N
             then pmap PFrozenset (dec_list dec_variable) rest
        else None
    | [] => None
    end.

(** ** The model objects, attribute by attribute. *)

Definition enc_image (i : DockerImage) : bytes :=
  enc_string (repository i) ++ enc_string (tag i).
Definition dec_image : parser DockerImage :=
  pmap (fun p => {| repository := fst p; tag := snd p |})
       (ppair dec_string dec_string).

Definition enc_path (f : FilePath) : bytes := enc_string (path f).
Definition dec_path : parser FilePath :=
  pmap (fun s => {| path := s |}) dec_string.

Definition enc_volume (v : AttachedVolume) : bytes :=
  enc_string (volume_name v) ++ enc_option enc_path (mountpoint v).
Definition dec_volume : parser AttachedVolume :=
  pmap (fun p => {| volume_name := fst p; mountpoint := snd p |})
       (ppair dec_string (dec_option dec_path)).

Definition enc_port (p : Port) : bytes :=
  enc_pyval (internal_port p) ++ enc_pyval (external_port p).
Definition dec_port : parser Port :=
  pmap (fun p => {| internal_port := fst p; external_port := snd p |})
       (ppair dec_int dec_int).

Definition enc_link (l : Link) : bytes :=
  enc_pyval (local_port l) ++ enc_pyval (remote_port l)
    ++ enc_pyval (alias l).
Definition dec_link : parser Link :=
  pmap (fun p => {| local_port := fst p; remote_port := fst (snd p);
                    alias := snd (snd p) |})
       (ppair dec_int (ppair dec_int dec_text)).

Definition enc_application (a : Application) : bytes :=
  enc_string (name a) ++ enc_image (image a)
    ++ enc_option enc_volume (volume a)
    ++ enc_list enc_port (ports a)
    ++ enc_list enc_link (links a)
    ++ enc_pyval (environment a).
Definition dec_application : parser Application :=
  pmap (fun p =>
          {| name := fst p;
             image := fst (snd p);
             volume := fst (snd (snd p));
             ports := fst (snd (snd (snd p)));
             links := fst (snd (snd (snd (snd p))));
             environment := snd (snd (snd (snd (snd p)))) |})
       (ppair dec_string
          (ppair dec_image
             (ppair (dec_option dec_volume)
                (ppair (dec_list dec_port)
                   (ppair (dec_list dec_link) dec_environment))))).

Definition enc_node (n : Node) : bytes :=
  enc_string (hostname n) ++ enc_list enc_application (applications n).
Definition dec_node : parser Node :=
  pmap (fun p => {| hostname := fst p; applications := snd p |})
       (ppair dec_string (dec_list dec_application)).

Definition enc_deployment (d : Deployment) : bytes :=
  enc_list enc_node (nodes d).
Definition dec_deployment : parser Deployment :=
  pmap (fun l => {| nodes := l |}) (dec_list dec_node).

(** ** Valid object graphs

    The data model's invariants: ports are pairs of integers, a link has
    integer ports and a string alias, an environment is absent or a set
    of string pairs with unique keys, the members of a set are distinct,
    application names are unique within a node and hostnames within a
    deployment. *)

Definition is_int (v : pyval) : bool :=
  match v with
  | PInt _ => true
  | _ => false
  end.

Definition is_text (v : pyval) : bool :=
  match v with
  | PStr _ | PUnicode _ => true
  | _ => false
  end.

Definition is_variable (v : pyval) : bool :=
  match v with
  | PTuple [k; x] => is_text k && is_text x
  | _ => false
  end.

Definition variable_name (v : pyval) : string :=
  match v with
  | PTuple (k :: _) => str k
  | _ => EmptyString
  end.

Definition shape_environment (v : pyval) : bool :=
  match v with
  | PNone => true
  | PFrozenset l => forallb is_variable l
  | _ => false
  end.

Definition shape_port (p : Port) : bool :=
  is_int (internal_port p) && is_int (external_port p).

Definition shape_link (l : Link) : bool :=
  is_int (local_port l) && is_int (remote_port l) && is_text (alias l).

Definition shape_application (a : Application) : bool :=
  forallb shape_port (ports a) && forallb shape_link (links a)
  && shape_environment (environment a).

Definition shape_node (n : Node) : bool :=
  forallb shape_application (applications n).

Definition shape_deployment (d : Deployment) : bool :=
  forallb shape_node (nodes d).

Definition distinct_environment (v : pyval) : bool :=
  match v with
  | PFrozenset l => bool_decide (NoDup (map variable_name l))
  | _ => true
  end.

Definition distinct_application (a : Application) : bool :=
  bool_decide (NoDup (ports a)) && bool_decide (NoDup (links a))
  && distinct_environment (environment a).

Definition distinct_node (n : Node) : bool :=
  forallb distinct_application (applications n)
  && bool_decide (NoDup (map name (applications n))).

Definition distinct_deployment (d : Deployment) : bool :=
  forallb distinct_node (nodes d)
  && bool_decide (NoDup (map hostname (nodes d))).

Definition valid_node (n : Node) : bool :=
  shape_node n && distinct_node n.

Definition valid_deployment (d : Deployment) : bool :=
  shape_deployment d && distinct_deployment d.

(** ** The codec's two pairs of entry points *)

(** Read a whole payload: nothing may follow the object, and the object
    must be valid. *)
Definition whole {A} (p : parser A) (valid : A -> bool) (bs : bytes)
  : wire_error + A :=
  match p bs with
  | Some (a, []) => if valid a then inr a else inl DeserializationError
  | _ => inl DeserializationError
  end.

(** Modelled from the spec: [serialize_deployment] of
    [flocker.control._persistence] is not among the sources.  Section 4.1
    of the spec gives its contract, [serialize(object) -> bytes], a pure
    transform of the Deployment/Node/Application graph "including nested
    ... and collection-valued fields"; the layout of the bytes is this
    model's. *)
Definition serialize_deployment (d : Deployment) : bytes :=
  enc_deployment d.

(** Modelled from the spec: [deserialize_deployment] of
    [flocker.control._persistence] is not among the sources.  Section 4.1
    of the spec: [deserialize(bytes) -> object]; "malformed bytes produce
    a DeserializationError; the codec does not partially-populate
    results". *)
Definition deserialize_deployment (bs : bytes) : wire_error + Deployment :=
  whole dec_deployment valid_deployment bs.

(** Modelled from the spec: [dumps], which [_protocol.py] imports from
    [pickle] and applies to a node state, is the same codec (section 4.2:
    the argument-level serialization "delegates to 4.1"). *)
Definition dumps (n : Node) : bytes := enc_node n.

(** Modelled from the spec: [loads], likewise: section 4.1's
    [deserialize] on node states.  Python's [pickle.loads] itself, which
    loads whatever was pickled, is not embedded. *)
Definition loads (bs : bytes) : wire_error + Node :=
  whole dec_node valid_node bs.

End Codec.

(* ===================================================================== *)
(** * [flocker/control/_protocol.py] *)
(* ===================================================================== *)

Module Protocol.
Import Py Model Codec.
Local Open Scope list_scope.

(** Modelled from the spec: the class [NodeState] is not among the
    sources; section 4.2 of the spec gives [NodeStateCommand] the
    arguments "hostname (string), node_state (Node, codec-serialized)". *)
Definition NodeState : Type := Node.

(** ** Arguments *)

(** [twisted.protocols.amp.Argument]: how a value crosses the wire. *)
Class Argument (A : Type) := {
  fromString : bytes -> wire_error + A;
  toString : A -> bytes
}.

Definition NodeStateArgument : Argument NodeState :=
  {| fromString in_bytes := loads in_bytes;
     toString node_state := dumps node_state |}.

Definition DeploymentArgument : Argument Deployment :=
  {| fromString in_bytes := deserialize_deployment in_bytes;
     toString deployment := serialize_deployment deployment |}.

(** [twisted.protocols.amp.String]: the bytes themselves. *)
Definition String_ : Argument string :=
  {| fromString in_bytes := inr (String.string_of_list_ascii in_bytes);
     toString s := String.list_ascii_of_string s |}.

(** ** Commands *)

(** An AMP box: named byte strings. *)
Definition box := list (string * bytes).

Fixpoint box_get (key : string) (b : box) : option bytes :=
  match b with
  | [] => None
  | (k, v) :: b' => if String.eqb key k then Some v else box_get key b'
  end.

Inductive command_error :=
| MissingArgument (name : string)
| BadArgument (name : string) (e : wire_error)
| UnhandledCommand (name : string).

(** One entry of a command's [arguments] list, read out of a box. *)
Definition parseArgument {A} (name : string) (a : Argument A) (b : box)
  : command_error + A :=
  match box_get name b with
  | None => inl (MissingArgument name)
  | Some in_bytes =>
      match @fromString A a in_bytes with
      | inl e => inl (BadArgument name e)
      | inr x => inr x
      end
  end.

(** [ClusterStatusCommand.arguments] *)
Definition ClusterStatusCommand_makeArguments
    (configuration state : Deployment) : box :=
  [("configuration"%string, @toString _ DeploymentArgument configuration);
   ("state"%string, @toString _ DeploymentArgument state)].

Definition ClusterStatusCommand_parseArguments (b : box)
  : command_error + (Deployment * Deployment) :=
  match parseArgument "configuration" DeploymentArgument b with
  | inl e => inl e
  | inr configuration =>
      match parseArgument "state" DeploymentArgument b with
      | inl e => inl e
      | inr state => inr (configuration, state)
      end
  end.

(** [NodeStateCommand.arguments] *)
Definition NodeStateCommand_makeArguments
    (hostname : string) (node_state : NodeState) : box :=
  [("hostname"%string, @toString _ String_ hostname);
   ("node_state"%string, @toString _ NodeStateArgument node_state)].

Definition NodeStateCommand_parseArguments (b : box)
  : command_error + (string * NodeState) :=
  match parseArgument "hostname" String_ b with
  | inl e => inl e
  | inr hostname =>
      match parseArgument "node_state" NodeStateArgument b with
      | inl e => inl e
      | inr node_state => inr (hostname, node_state)
      end
  end.

(** ** The control service's side *)

(** Modelled from the spec: the class [ClusterStateService], whose
    [update_node_state] the locator calls, is not among the sources.
    Section 4.5 of the spec: it "replaces the stored state for hostname
    (insert if new), then ... for every currently connected agent
    connection, invoke ClusterStatusCommand with the current full
    configuration and the full merged state".  [sent] logs those
    invocations, each with the connection it went to. *)
Record ClusterStateService := {
  node_states : gmap string NodeState;
  configuration : Deployment;
  connections : list nat;
  sent : list (nat * (Deployment * Deployment))
}.

(** Modelled from the spec: the merged state is "a valid (possibly
    partial) Deployment-shaped structure" (section 3). *)
Definition as_deployment (m : gmap string NodeState) : Deployment :=
  {| nodes := map snd (map_to_list m) |}.

(** Modelled from the spec: see [ClusterStateService]. *)
Definition update_node_state (hostname : string) (node_state : NodeState)
    (self : ClusterStateService) : ClusterStateService :=
  let merged := <[hostname := node_state]> (node_states self) in
  {| node_states := merged;
     configuration := configuration self;
     connections := connections self;
     sent := sent self
             ++ map (fun c => (c, (configuration self, as_deployment merged)))
                    (connections self) |}.

Record ControlServiceLocator := { cluster_state : ClusterStateService }.

(** [@VersionCommand.responder] *)
Definition version (self : ControlServiceLocator) : dict :=
  [("major"%string, PInt 1)].

(** [@NodeStateCommand.responder]: the response and the locator after
    the call. *)
Definition node_changed (hostname : string) (node_state : NodeState)
    (self : ControlServiceLocator) : dict * ControlServiceLocator :=
  let cluster_state := update_node_state hostname node_state
                         (cluster_state self) in
  ([], {| cluster_state := cluster_state |}).

(** ** The convergence agent's side *)

(** The [client] that [connected] receives is the box receiver itself,
    known here by the box sender it was started with. *)
Inductive AgentClient := agent_client (box_sender : nat).

(** [IConvergenceAgent]; an implementation is a state with the three
    entry points acting on it. *)
Class IConvergenceAgent (A : Type) := {
  connected : AgentClient -> A -> A;
  disconnected : A -> A;
  cluster_updated : Deployment -> Deployment -> A -> A
}.

(** The agent that only records how it was called. *)
Inductive agent_call :=
| Connected (client : AgentClient)
| Disconnected
| ClusterUpdated (configuration state : Deployment).

#[global] Instance recorder : IConvergenceAgent (list agent_call) :=
  {| connected client log := log ++ [Connected client];
     disconnected log := log ++ [Disconnected];
     cluster_updated configuration state log :=
       log ++ [ClusterUpdated configuration state] |}.

Section Agent.

Context {A : Type} `{IConvergenceAgent A}.

(** [_AgentLocator.cluster_updated], the [ClusterStatusCommand]
    responder.  [build_agent_client] gives the locator and the box
    receiver the same [agent]; that one object is the state here. *)
Definition _AgentLocator_cluster_updated (configuration state : Deployment)
    (agent : A) : dict * A :=
  let agent := cluster_updated configuration state agent in
  ([], agent).

(** What [build_agent_client] sets up: the box receiver's [boxSender],
    the agent it shares with the locator, and the boxes written back to
    the transport. *)
Record AgentConnection := {
  boxSender : option nat;
  agent : A;
  written : list box
}.

Definition build_agent_client (agent : A) : AgentConnection :=
  {| boxSender := None; agent := agent; written := [] |}.

(** [_AgentBoxReceiver.startReceivingBoxes] *)
Definition startReceivingBoxes (box_sender : nat) (self : AgentConnection)
  : AgentConnection :=
  {| boxSender := Some box_sender;
     agent := connected (agent_client box_sender) (agent self);
     written := written self |}.

(** [_AgentBoxReceiver.stopReceivingBoxes] *)
Definition stopReceivingBoxes (self : AgentConnection) : AgentConnection :=
  {| boxSender := boxSender self;
     agent := disconnected (agent self);
     written := written self |}.

(** The reply to a command box that asked for one. *)
Definition reply (request : box) (answer : box) (self : AgentConnection)
  : AgentConnection :=
  match box_get "_ask" request with
  | Some ask =>
      {| boxSender := boxSender self;
         agent := agent self;
         written := written self ++ [answer] |}
  | None => self
  end.

Definition command_name : string := "ClusterStatusCommand".

(** [BoxDispatcher.ampBoxReceived] with the agent's locator: a command
    box goes to the responder registered under its name, any other box
    answers one of the receiver's own calls. *)
Definition ampBoxReceived (b : box) (self : AgentConnection)
  : AgentConnection :=
  match box_get "_command" b with
  | None => self
  | Some name =>
      if String.eqb (String.string_of_list_ascii name) command_name then
        match ClusterStatusCommand_parseArguments b with
        | inl _ => reply b [("_error"%string, [])] self
        | inr (configuration, state) =>
            let '(_, agent') :=
              _AgentLocator_cluster_updated configuration state (agent self) in
            reply b [("_answer"%string, [])]
              {| boxSender := boxSender self;
                 agent := agent';
                 written := written self |}
        end
      else reply b [("_error"%string, [])] self
  end.

(** ** A connection's life

    Twisted's [IBoxReceiver] contract: [startReceivingBoxes] when the
    transport is connected, then [ampBoxReceived] for each box that
    arrives, then [stopReceivingBoxes] when the connection is lost, after
    which the receiver is not called again. *)

Inductive phase := Idle | ReceivingBoxes | Closed.

Inductive transport_event :=
| ConnectionMade (box_sender : nat)
| BoxReceived (b : box)
| ConnectionLost.

Inductive step
  : phase * AgentConnection -> transport_event -> phase * AgentConnection
    -> Prop :=
| step_made box_sender c :
    step (Idle, c) (ConnectionMade box_sender)
         (ReceivingBoxes, startReceivingBoxes box_sender c)
| step_box b c :
    step (ReceivingBoxes, c) (BoxReceived b)
         (ReceivingBoxes, ampBoxReceived b c)
| step_lost c :
    step (ReceivingBoxes, c) ConnectionLost (Closed, stopReceivingBoxes c).

(** A run of a connection: the events in the order they happened. *)
Inductive run
  : phase * AgentConnection -> list transport_event
    -> phase * AgentConnection -> Prop :=
| run_nil s : run s [] s
| run_snoc s evs s' ev s'' :
    run s evs s' -> step s' ev s'' -> run s (evs ++ [ev]) s''.

End Agent.

End Protocol.

(* ===================================================================== *)
(** * Concrete inputs *)
(* ===================================================================== *)

Module Scenarios.
Import Py Model.

(** The directory the scenarios are run in. *)
#[export] Instance working_directory : WorkingDirectory := "/srv/flocker".

(** The spec's end-to-end scenario 1. *)
Definition web_applications : pyval :=
  PDict [("version", PInt 1);
         ("applications",
          PDict [("web",
                  PDict [("image", PStr "nginx:latest");
                         ("ports",
                          PList [PDict [("internal", PInt 80);
                                        ("external", PInt 8080)]])])])].

Definition web_on_host1 : pyval :=
  PDict [("version", PInt 1);
         ("nodes", PDict [("host1", PList [PStr "web"])])].

Definition web : Application :=
  {| name := "web";
     image := {| repository := "nginx"; tag := "latest" |};
     volume := None;
     ports := [{| internal_port := PInt 80; external_port := PInt 8080 |}];
     links := [];
     environment := PNone |}.

(** The same application in fig's format, which has no 'version' key. *)
Definition fig_web : pyval :=
  PDict [("web", PDict [("image", PStr "nginx:latest");
                        ("ports", PList [PStr "8080:80"])])].

(** Scenario 3: the 'version' key is missing. *)
Definition applications_without_version : pyval :=
  PDict [("applications",
          PDict [("web", PDict [("image", PStr "nginx:latest")])])].

Definition nodes_without_version : pyval :=
  PDict [("nodes", PDict [("host1", PList [PStr "web"])])].

(** Scenario 4: a node names an application that is not defined. *)
Definition db_on_host1 : pyval :=
  PDict [("version", PInt 1);
         ("nodes", PDict [("host1", PList [PStr "db"])])].

Definition db_on_host1_without_version : pyval :=
  PDict [("nodes", PDict [("host1", PList [PStr "db"])])].

(** Configurations with nothing in them. *)
Definition empty_configuration : pyval := PDict [].

Definition no_applications : pyval :=
  PDict [("version", PInt 1); ("applications", PDict [])].

Definition no_nodes : pyval :=
  PDict [("version", PInt 1); ("nodes", PDict [])].

(** An application with an empty environment. *)
Definition web_with_empty_environment : pyval :=
  PDict [("version", PInt 1);
         ("applications",
          PDict [("web", PDict [("image", PStr "nginx:latest");
                                ("environment", PDict [])])])].

Definition fig_web_with_empty_environment : pyval :=
  PDict [("web", PDict [("image", PStr "nginx:latest");
                        ("environment", PDict [])])].

(** A fig configuration in which [web] links to [db], and [db] declares
    no ports. *)
Definition web_linked_to_db : pyval :=
  PDict [("web", PDict [("image", PStr "nginx:latest");
                        ("links", PList [PStr "db"])]);
         ("db", PDict [("image", PStr "postgres:9")])].

End Scenarios.

(** Inputs of the protocol. *)
Module WireScenarios.
Import Py Model Codec Protocol Scenarios.
Local Open Scope list_scope.

(** Scenario 2 of the spec: the state of [host1], running [web]. *)
Definition host1_state : NodeState :=
  {| hostname := "host1"; applications := [web] |}.

Definition db : Application :=
  {| name := "db";
     image := {| repository := "postgres"; tag := "9" |};
     volume := Some {| volume_name := "db";
                       mountpoint := Some {| path := "/var/lib/data" |} |};
     ports := [{| internal_port := PInt 5432; external_port := PInt 5432 |}];
     links := [{| local_port := PInt 80; remote_port := PInt (-1);
                  alias := PUnicode "web" |}];
     environment :=
       PFrozenset [PTuple [PStr "PGDATA"; PStr "/var/lib/data"];
                   PTuple [PStr "LANG"; PUnicode "C"]] |}.

Definition desired : Deployment :=
  {| nodes := [{| hostname := "host1"; applications := [web; db] |};
               {| hostname := "host2"; applications := [] |}] |}.

Definition observed : Deployment := {| nodes := [host1_state] |}.

(** A control service with one connected agent and nothing reported. *)
Definition one_agent : ControlServiceLocator :=
  {| cluster_state :=
       {| node_states := ∅; configuration := desired;
          connections := [7%nat]; sent := [] |} |}.

(** The box of a [ClusterStatusCommand] that asks for an answer. *)
Definition status_box : box :=
  ("_ask"%string, String.list_ascii_of_string "1")
    :: ("_command"%string, String.list_ascii_of_string "ClusterStatusCommand")
    :: ClusterStatusCommand_makeArguments desired observed.

(** One connection, from its first event to its last. *)
Definition one_connection : list transport_event :=
  [ConnectionMade 7; BoxReceived status_box; ConnectionLost].

Definition after_one_connection : @AgentConnection (list agent_call) :=
  stopReceivingBoxes
    (ampBoxReceived status_box
       (startReceivingBoxes 7 (build_agent_client []))).

End WireScenarios.

(* ===================================================================== *)
(** * The properties that the theorems state *)
(* ===================================================================== *)

Module Properties.
Import Py Model Config Codec Protocol.
Local Open Scope list_scope.

(** ** Configuration *)

(** The parser of [flocker-deploy]: strict, with the model's image
    parser. *)
Definition parse `{WorkingDirectory} :=
  model_from_configuration false DockerImage_from_string.

Definition application_missing_version : string :=
  "Application configuration has an error. Missing 'version' key.".

Definition deployment_missing_version : string :=
  "Deployment configuration has an error. Missing 'version' key.".

(** A node list that references an application which the applications
    map does not have. *)
Definition references_unknown (all_applications : applications_map)
    (pairs : dict) : Prop :=
  Exists (fun kv => exists names,
            snd kv = PList names
            /\ Exists (fun n => get_application all_applications n = ret None)
                      names) pairs.

(** A computation on a dictionary leaves a dictionary, related to the
    first by [R]. *)
Definition transforms (R : relation dict) {A} (m : M pyval A) : Prop :=
  forall d, exists d', snd (m (PDict d)) = PDict d' /\ R d d'.

(** The 'environment' entry is untouched. *)
Definition same_environment (d d' : dict) : Prop :=
  dict_get "environment" d' = dict_get "environment" d.

(** No key was added. *)
Definition shrinks (d d' : dict) : Prop :=
  forall k, dict_has k d' = true -> dict_has k d = true.

Definition any_change (d d' : dict) : Prop := True.

(** ** Codec *)

(** On the values that satisfy [P], decoding what was encoded gives the
    value back and leaves what followed; whatever the decoder accepts is
    the encoding of the value it returns, and that value satisfies [P]. *)
Definition codec_ok {A} (P : A -> Prop) (enc : A -> bytes) (dec : parser A)
  : Prop :=
  (forall x rest, P x -> dec (enc x ++ rest) = Some (x, rest))
  /\ (forall bs x rest, dec bs = Some (x, rest) -> P x /\ bs = enc x ++ rest).

(** ** Protocol *)

Definition updates_of (l : list (Deployment * Deployment)) : list agent_call :=
  map (fun u => ClusterUpdated (fst u) (snd u)) l.

(** What the recording agent has seen, by the phase of the connection:
    nothing; [connected], then deliveries; [connected], deliveries, then
    [disconnected]. *)
Definition lifecycle (p : phase) (log : list agent_call) : Prop :=
  match p with
  | Idle => log = []
  | ReceivingBoxes =>
      exists client updates, log = Connected client :: updates_of updates
  | Closed =>
      exists client updates,
        log = Connected client :: updates_of updates ++ [Disconnected]
  end.

(** ** More about the configuration parser *)

(** A dictionary with both of fig's identifying keys, and one with
    exactly one of them. *)
Definition has_both (v : pyval) : bool :=
  match v with
  | PDict c => dict_has "image" c && dict_has "build" c
  | _ => false
  end.

Definition has_one (v : pyval) : bool :=
  match v with
  | PDict c => xorb (dict_has "image" c) (dict_has "build" c)
  | _ => false
  end.

(** The keys that the flocker format gives a meaning to. *)
Definition application_keys : list string :=
  ["image"; "ports"; "links"; "volume"; "environment"].

(** Keys are only taken away, and only those of [K]. *)
Definition consumes (K : list string) (d d' : dict) : Prop :=
  forall k, dict_has k d = true -> dict_has k d' = true \/ k ∈ K.

(** The outcome is a value or a [ConfigurationError]. *)
Definition returns_or_rejects {A} (r : result A) : Prop :=
  match r with
  | inr _ | inl (ConfigurationError _) => True
  | inl _ => False
  end.

(** A link whose ports are integers and whose alias is a string. *)
Definition valid_link (link : Link) : bool :=
  isinstance (local_port link) [TInt]
  && isinstance (remote_port link) [TInt]
  && isinstance (alias link) StringTypes.

(** The outcome is a well-typed link, a [ConfigurationError] or a
    [ValueError]. *)
Definition returns_link_or_complains (r : result Link) : Prop :=
  match r with
  | inr link => valid_link link = true
  | inl (ConfigurationError _) | inl (ValueError _) => True
  | inl _ => False
  end.

(** The first variable of an environment whose value is not a string. *)
Definition first_bad_variable (e : dict) : option (string * pyval) :=
  List.find (fun kv => negb (isinstance (snd kv) StringTypes)) e.

(** The applications that the map has under the names. *)
Definition found_names (all_applications : applications_map)
    (names : list pyval) (found : list Application) : Prop :=
  Forall2 (fun n application =>
             get_application all_applications n = ret (Some application))
          names found.

(** Every node lists names that the applications map has, of
    applications that can be hashed. *)
Definition all_known (all_applications : applications_map) (pairs : dict)
  : Prop :=
  Forall (fun kv => exists names found,
            snd kv = PList names
            /\ found_names all_applications names found
            /\ forallb py_hashable found = true) pairs.

(** The node that an entry of 'nodes' stands for. *)
Definition is_node_of (all_applications : applications_map)
    (kv : string * pyval) (node : Node) : Prop :=
  hostname node = fst kv
  /\ exists names found,
       snd kv = PList names
       /\ found_names all_applications names found
       /\ frozenset found = ret (applications node).

(** The first pass of [_applications_from_fig_configuration] over the
    items of the configuration. *)
Definition fig_first_pass `{WorkingDirectory}
    (from_string : pyval -> result DockerImage) (c : dict)
  : result (list (string * (Application * list link_definition))) * dict :=
  for_items (fig_application from_string (keys c)) c.

(** What the first pass makes of a link: the ports are still to be
    found, the target is one of the names, and the alias is a piece of
    the link's text. *)
Definition pending (names : list string) (link : link_definition) : Prop :=
  ports_remote link = PNone
  /\ existsb (fun k => is_string_eq k (target_application link)) names = true
  /\ hashable (link_alias link) = true.

(** The ports of every application can be hashed. *)
Definition hashable_ports (applications : applications_map) : Prop :=
  Forall (fun kv => forallb py_hashable (ports (snd kv)) = true) applications.

(** A link whose target is an application without ports. *)
Definition portless (applications : applications_map)
    (link : link_definition) : Prop :=
  exists target,
    lookup_application applications (target_application link) = ret target
    /\ ports target = [].

(** Some application has such a link. *)
Definition links_to_portless
    (parsed : list (string * (Application * list link_definition))) : Prop :=
  Exists (fun kv =>
            Exists (portless (map (fun kv => (fst kv, fst (snd kv))) parsed))
                   (snd (snd kv)))
         parsed.

(** ** What a node reports, read back *)

(** What is left of an application once [configuration_to_yaml] has
    written it and the lenient parser has read it: the image is the
    image called "unknown", a volume has lost its mountpoint, and the
    environment is gone. *)
Definition read_back (unknown : DockerImage) (application : Application)
  : Application :=
  {| name := name application;
     image := unknown;
     volume := match volume application with
               | Some _ => Some {| volume_name := name application;
                                   mountpoint := None |}
               | None => None
               end;
     ports := distinct (ports application);
     links := distinct (links application);
     environment := PNone |}.

(** Applications that can be told apart by their names, none of which is
    "image" or "build", whose links are well typed and whose ports can be
    hashed. *)
Definition reportable (applications : list Application) : Prop :=
  NoDup (map name applications)
  /\ Forall (fun application =>
               name application <> "image"
               /\ name application <> "build"
               /\ forallb valid_link (links application) = true
               /\ forallb py_hashable (ports application) = true)
            applications.

(** The report as the parser leaves it. *)
Definition consumed_report (applications : list Application) : pyval :=
  PDict [("version", PInt 1);
         ("applications",
          PDict (map (fun application => (name application, PDict []))
                     applications))].

(** The node that [current_from_configuration] makes of what a node
    reported. *)
Definition reported_node (unknown : DockerImage)
    (host : string * list Application) : Node :=
  {| hostname := fst host;
     applications := distinct (map (read_back unknown) (snd host)) |}.

End Properties.

(* ===================================================================== *)
(** * Facts about the configuration parser *)
(* ===================================================================== *)

Module ConfigFacts.
Import Py Model Config Properties.
Local Open Scope py_scope.

(** ** Strings *)

Lemma prefix_app (n s : string) : String.prefix n (n +:+ s) = true.
Proof.
  induction n as [|c n IH]; simpl; [by destruct s|].
  by destruct (ascii_dec c c).
Qed.

Lemma mentions_here (n s : string) : mentions n (n +:+ s) = true.
Proof.
  pose proof (prefix_app n s) as H.
  destruct (n +:+ s); cbn [mentions]; by rewrite H.
Qed.

Lemma mentions_app_r (n s1 s2 : string) :
  mentions n s2 = true -> mentions n (s1 +:+ s2) = true.
Proof.
  intros H. induction s1 as [|c s1 IH]; [done|].
  change (String c s1 +:+ s2) with (String c (s1 +:+ s2)).
  cbn [mentions]. rewrite IH. apply orb_true_r.
Qed.

(** ** Dictionaries *)

Lemma dict_get_has (k : string) (d : dict) (v : pyval) :
  dict_get k d = Some v -> dict_has k d = true.
Proof.
  induction d as [|[k' v'] d IH]; simpl; [done|].
  destruct (String.eqb k k'); [done|]. exact IH.
Qed.

Lemma dict_has_get (k : string) (d : dict) :
  dict_has k d = true -> exists v, dict_get k d = Some v.
Proof.
  induction d as [|[k' v'] d IH]; simpl; [done|].
  destruct (String.eqb k k'); [eauto|]. exact IH.
Qed.

Lemma getitem_contains (v x : pyval) (k : string) :
  getitem v k = ret x -> contains k v = ret true.
Proof.
  destruct v; simpl; try discriminate.
  destruct (dict_get k d) eqn:E; [|discriminate].
  intros _. by rewrite (dict_get_has _ _ _ E).
Qed.

(** ** Sets *)

Section Sets.

Context {A : Type} `{PyValue A}.

Lemma set_add_forallb (f : A -> bool) (x : A) (s : list A) :
  f x = true -> forallb f s = true -> forallb f (set_add x s) = true.
Proof.
  intros Hx Hs. unfold set_add. destruct (existsb _ s); [done|].
  rewrite forallb_app, Hs. cbn [forallb]. by rewrite Hx.
Qed.

Lemma fold_set_add_forallb (f : A -> bool) (l s : list A) :
  forallb f l = true -> forallb f s = true ->
  forallb f (fold_left (fun s x => set_add x s) l s) = true.
Proof.
  revert s. induction l as [|x l IH]; intros s Hl Hs; [done|].
  cbn [forallb] in Hl. apply andb_true_iff in Hl as [Hx Hl].
  cbn [fold_left]. apply IH; [done|]. by apply set_add_forallb.
Qed.

Lemma distinct_forallb (f : A -> bool) (l : list A) :
  forallb f l = true -> forallb f (distinct l) = true.
Proof. intros Hl. by apply fold_set_add_forallb. Qed.

Lemma distinct_hashable (l : list A) :
  forallb py_hashable l = true -> forallb py_hashable (distinct l) = true.
Proof. apply distinct_forallb. Qed.

Lemma frozenset_hashable (l : list A) :
  forallb py_hashable l = true -> frozenset l = ret (distinct l).
Proof. intros Hl. unfold frozenset. by rewrite Hl. Qed.

Lemma frozenset_unhashable (x : A) (l : list A) :
  x ∈ l -> py_hashable x = false -> frozenset l = raise TypeError.
Proof.
  intros Hin Hx. unfold frozenset.
  destruct (forallb py_hashable l) eqn:E; [|done].
  rewrite forallb_forall in E. apply list_elem_of_In in Hin.
  rewrite (E x Hin) in Hx. discriminate.
Qed.

End Sets.

(** ** The messages *)

Lemma unrecognised_application_mentions (hostname : string) (name : pyval) :
  mentions "Unrecognised application name"
    (unrecognised_application hostname name) = true.
Proof.
  unfold unrecognised_application.
  do 3 apply mentions_app_r.
  apply (mentions_here "Unrecognised application name"
           (": " +:+ str name +:+ ".")).
Qed.

Section Facts.

Context `{cwd : WorkingDirectory}.

Variable _lenient : bool.
Variable from_string : pyval -> result DockerImage.

(** ** The deployment configuration *)

Lemma for_collect_stops {A B} (body : A -> result B) before x after found e :
  for_collect before body = ret found ->
  body x = raise e ->
  for_collect (before ++ x :: after)%list body = raise e.
Proof.
  revert found. induction before as [|y before IH]; intros found Hb Hx.
  - cbn [app for_collect]. by rewrite Hx.
  - cbn [app for_collect] in *. destruct (body y) as [e'|b]; [done|].
    cbn [rbind] in *.
    destruct (for_collect before body) as [e'|bs] eqn:Hbs; [done|].
    by rewrite (IH bs eq_refl Hx).
Qed.

Lemma found_names_are_collected all_applications hostname names found :
  found_names all_applications names found ->
  for_collect names (find_application all_applications hostname) = ret found.
Proof.
  induction 1 as [|n a names found Ha _ IH]; [done|].
  cbn [for_collect]. unfold find_application at 1. rewrite Ha.
  cbn [rbind ret]. by rewrite IH.
Qed.

(** The nodes whose names are all known, of applications that can be
    hashed, are built. *)
Lemma known_nodes_are_built all_applications pairs :
  all_known all_applications pairs ->
  exists nodes,
    for_collect pairs (fun kv =>
      node_from_configuration all_applications (fst kv) (snd kv))
    = ret nodes
    /\ Forall2 (is_node_of all_applications) pairs nodes
    /\ forallb py_hashable nodes = true.
Proof.
  induction 1 as [|[h v] pairs (names & found & Hv & Hfound & Hhash) _
                    (nodes & Hnodes & Hall & Hhashable)].
  - exists []. split; [done|]. split; [constructor|done].
  - cbn [snd] in Hv. subst v.
    assert (frozenset found = ret (distinct found)) as Hset.
    { unfold frozenset. by rewrite Hhash. }
    exists ({| hostname := h; applications := distinct found |} :: nodes).
    split; [|split].
    + cbn [for_collect fst snd]. unfold node_from_configuration at 1.
      cbn [isinstance type_of existsb subclass pytype_eqb orb negb iter
             rbind ret].
      rewrite (found_names_are_collected _ _ _ _ Hfound). cbn [rbind ret].
      rewrite Hset. cbn [rbind ret]. by rewrite Hnodes.
    + constructor; [|done]. split; [done|]. by exists names, found.
    + cbn [forallb]. rewrite Hhashable, andb_true_r.
      cbn [py_hashable Node_value applications].
      by apply distinct_hashable.
Qed.

(** C7, amended: in a deployment configuration that has its 'nodes' and
    version 1, take the first node that lists a name which the
    applications map does not have, the nodes before it listing only
    names of applications that the map has and that can be hashed, and
    the first such name of its list: parsing fails with the
    [ConfigurationError] that names this node and this application and
    mentions "Unrecognised application name"; no set of nodes is
    returned. *)
Theorem unrecognised_application_is_rejected
    (deployment_configuration version : pyval) (before after : dict)
    (hostname : string) (known : list pyval) (found : list Application)
    (name : pyval) (rest : list pyval)
    (all_applications : applications_map) :
  getitem deployment_configuration "version" = ret version ->
  ne_int version 1 = false ->
  getitem deployment_configuration "nodes"
  = ret (PDict (before ++ (hostname, PList (known ++ name :: rest)) :: after)%list) ->
  all_known all_applications before ->
  found_names all_applications known found ->
  get_application all_applications name = ret None ->
  _deployment_from_configuration deployment_configuration all_applications
  = raise (ConfigurationError (unrecognised_application hostname name))
  /\ mentions "Unrecognised application name"
       (unrecognised_application hostname name) = true.
Proof.
  intros Hv Hone Hn Hbefore Hknown Hname.
  split; [|apply unrecognised_application_mentions].
  destruct (known_nodes_are_built all_applications before Hbefore)
    as (nodes & Hnodes & _).
  unfold _deployment_from_configuration.
  rewrite (getitem_contains _ _ _ Hn), (getitem_contains _ _ _ Hv).
  cbn [rbind ret negb]. rewrite Hv. cbn [rbind ret]. rewrite Hone, Hn.
  cbn [rbind ret items].
  erewrite (for_collect_stops _ _ (hostname, PList (known ++ name :: rest)%list)
              _ _ _ Hnodes); [done|].
  cbn [fst snd]. unfold node_from_configuration.
  cbn [isinstance type_of existsb subclass pytype_eqb orb negb iter rbind
         ret].
  erewrite (for_collect_stops _ _ name _ _ _
              (found_names_are_collected _ hostname _ _ Hknown)); [done|].
  unfold find_application. by rewrite Hname.
Qed.

(** ** The fig format: a link to an application without ports *)

(** The heart of it: resolving a link takes the first of the target's
    ports, and an application without ports has none. *)
Lemma resolve_link_without_ports applications link_definition target :
  ports_remote link_definition = PNone ->
  lookup_application applications (target_application link_definition)
  = ret target ->
  ports target = [] ->
  resolve_link applications link_definition = raise StopIteration.
Proof.
  intros Hr Ht Hp. unfold resolve_link. rewrite Hr. cbn [truthy negb].
  rewrite Ht. cbn [rbind ret]. by rewrite Hp.
Qed.

(** C8: there is a fig-format configuration in which an application
    links to another that declares no ports, and parsing it raises
    [StopIteration], which is not a [ConfigurationError]: the second pass
    takes the first element of the target's empty set of ports. *)
Theorem link_to_portless_application_escapes web_image db_image :
  from_string (PStr "nginx:latest") = ret web_image ->
  from_string (PStr "postgres:9") = ret db_image ->
  exists application_configuration web db,
    _is_fig_configuration application_configuration = ret true
    /\ getitem application_configuration "web" = ret (PDict web)
    /\ dict_get "links" web = Some (PList [PStr "db"])
    /\ getitem application_configuration "db" = ret (PDict db)
    /\ dict_has "ports" db = false
    /\ _applications_from_configuration _lenient from_string
         application_configuration
       = (raise StopIteration, application_configuration)
    /\ (forall deployment_configuration,
          fst (model_from_configuration _lenient from_string
                 deployment_configuration application_configuration)
          = raise StopIteration)
    /\ is_ConfigurationError (@raise applications_map StopIteration) = false.
Proof.
  intros Hweb Hdb.
  assert (_applications_from_configuration _lenient from_string
            Scenarios.web_linked_to_db
          = (raise StopIteration, Scenarios.web_linked_to_db)) as Hparse.
  { unfold _applications_from_configuration, bind, get, lift.
    cbn -[_applications_from_fig_configuration].
    unfold _applications_from_fig_configuration, bind, get, lift, put.
    cbn -[fig_application resolve_links].
    unfold fig_application, mexcept_ValueError, fig_application_try, bind,
      get, lift, mret.
    cbn. rewrite Hweb. cbn. rewrite Hdb. cbn. reflexivity. }
  exists Scenarios.web_linked_to_db. do 2 eexists.
  repeat split; try reflexivity; [exact Hparse|].
  intros dep. unfold model_from_configuration, bind. by rewrite Hparse.
Qed.

(** ** How the parser changes the dictionary it consumes *)

Lemma dict_get_del_ne (k k' : string) (d : dict) :
  k <> k' -> dict_get k (dict_del k' d) = dict_get k d.
Proof.
  intros Hne. unfold dict_del.
  induction d as [|[k0 v0] d IH]; [done|].
  rewrite @filter_cons. cbn [fst dict_get]. case_decide as Hd.
  - cbn [dict_get]. destruct (String.eqb k k0); [done|exact IH].
  - subst k0.
    destruct (String.eqb_spec k k'); [done|]. exact IH.
Qed.

Lemma dict_has_del (k k' : string) (d : dict) :
  dict_has k (dict_del k' d) = true -> dict_has k d = true /\ k <> k'.
Proof.
  unfold dict_del, dict_has.
  induction d as [|[k0 v0] d IH]; [done|].
  rewrite @filter_cons. cbn [fst existsb]. case_decide as Hd.
  - cbn [existsb fst]. destruct (String.eqb_spec k k0) as [->|Hne].
    + intros _. split; [done|]. congruence.
    + cbn [orb]. intros H. destruct (IH H) as [-> ?]. done.
  - intros H. destruct (IH H) as [-> ?]. by rewrite orb_true_r.
Qed.

(** [pop] always leaves the dictionary without the key. *)
Lemma pop_dict (key : string) (default : option pyval) (d : dict) :
  snd (pop key default (PDict d)) = PDict (dict_del key d)
  \/ (dict_get key d = None /\ snd (pop key default (PDict d)) = PDict d).
Proof.
  unfold pop. destruct (dict_get key d) eqn:E; [by left|].
  right. by destruct default.
Qed.

Section Transforms.

Context (R : relation dict) `{!PreOrder R}.

Lemma transforms_mret {A} (a : A) : transforms R (mret a).
Proof. intros d. by exists d. Qed.

Lemma transforms_mraise {A} (e : exn) : transforms R (@mraise _ A e).
Proof. intros d. by exists d. Qed.

Lemma transforms_lift {A} (r : result A) : transforms R (lift r).
Proof. intros d. by exists d. Qed.

Lemma transforms_get : transforms R get.
Proof. intros d. by exists d. Qed.

Lemma transforms_bind {A B} (m : M pyval A) (k : A -> M pyval B) :
  transforms R m -> (forall a, transforms R (k a)) -> transforms R (bind m k).
Proof.
  intros Hm Hk d. destruct (Hm d) as (d1 & Hs & HR). unfold bind.
  destruct (m (PDict d)) as [[e|a] s]; cbn [snd] in *; subst s.
  - by exists d1.
  - destruct (Hk a d1) as (d2 & Hs2 & HR2). exists d2.
    split; [done|by transitivity d1].
Qed.

Lemma transforms_except_KeyError {A} (m : M pyval A) h :
  transforms R m -> (forall k, transforms R (h k)) ->
  transforms R (mexcept_KeyError m h).
Proof.
  intros Hm Hh d. destruct (Hm d) as (d1 & Hs & HR). unfold mexcept_KeyError.
  destruct (m (PDict d)) as [[e|a] s]; cbn [snd] in *; subst s;
    [|by exists d1].
  destruct e; try by exists d1.
  destruct (Hh key d1) as (d2 & Hs2 & HR2). exists d2.
  split; [done|by transitivity d1].
Qed.

Lemma transforms_except_ValueError {A} (m : M pyval A) h :
  transforms R m -> (forall k, transforms R (h k)) ->
  transforms R (mexcept_ValueError m h).
Proof.
  intros Hm Hh d. destruct (Hm d) as (d1 & Hs & HR). unfold mexcept_ValueError.
  destruct (m (PDict d)) as [[e|a] s]; cbn [snd] in *; subst s;
    [|by exists d1].
  destruct e; try by exists d1.
  destruct (Hh msg d1) as (d2 & Hs2 & HR2). exists d2.
  split; [done|by transitivity d1].
Qed.

Lemma transforms_if {A} (b : bool) (m1 m2 : M pyval A) :
  transforms R m1 -> transforms R m2 -> transforms R (if b then m1 else m2).
Proof. by destruct b. Qed.

Lemma transforms_pop key default :
  (forall d, R d (dict_del key d)) -> transforms R (pop key default).
Proof.
  intros Hdel d. destruct (pop_dict key default d) as [->|[_ ->]]; eauto.
  by exists d.
Qed.

End Transforms.

Ltac transforms_step :=
  first
    [ apply transforms_bind
    | apply transforms_except_KeyError
    | apply transforms_except_ValueError
    | apply transforms_if
    | apply transforms_mret
    | apply transforms_mraise
    | apply transforms_lift
    | apply transforms_get
    | apply transforms_pop ];
  try typeclasses eauto;
  try match goal with
      | |- forall _, transforms _ _ => intros ?
      end.

Lemma bind_ret_transforms (R : dict -> dict -> Prop) {A B}
    (m : M pyval A) (k : A -> M pyval B) d b s' :
  transforms R m ->
  bind m k (PDict d) = (inr b, s') ->
  exists a d1, R d d1 /\ m (PDict d) = (inr a, PDict d1)
               /\ k a (PDict d1) = (inr b, s').
Proof.
  intros Hm H. destruct (Hm d) as (d1 & Hs & HR). unfold bind in H.
  destruct (m (PDict d)) as [[e|a] s]; cbn [snd] in Hs; subst s; [done|].
  by exists a, d1.
Qed.

Lemma bind_first_transforms (R : dict -> dict -> Prop) {A B}
    (m : M pyval A) (k : A -> M pyval B) d a d1 :
  m (PDict d) = (inr a, PDict d1) ->
  transforms R (k a) ->
  exists d', snd (bind m k (PDict d)) = PDict d' /\ R d1 d'.
Proof. intros Hm Hk. unfold bind. rewrite Hm. apply Hk. Qed.

(** ** The environment *)

#[local] Instance same_environment_preorder : PreOrder same_environment.
Proof. split; unfold same_environment; [done|congruence]. Qed.

Lemma same_environment_del key d :
  "environment" <> key -> same_environment d (dict_del key d).
Proof. intros. by apply dict_get_del_ne. Qed.

Ltac same_environment :=
  repeat transforms_step; try (intros; by apply same_environment_del).

(** A value that tests false is handed over as it is. *)
Lemma parse_environment_falsy application_name d v :
  dict_get "environment" d = Some v ->
  truthy v = false ->
  _parse_environment_config application_name (PDict d)
  = (ret v, PDict (dict_del "environment" d)).
Proof.
  intros Hget Hv. unfold _parse_environment_config, bind, pop.
  rewrite Hget. cbn [ret]. by rewrite Hv.
Qed.

Lemma parse_environment_absent application_name d :
  dict_get "environment" d = None ->
  _parse_environment_config application_name (PDict d)
  = (ret PNone, PDict d).
Proof.
  intros Hget. unfold _parse_environment_config, bind, pop.
  by rewrite Hget.
Qed.

(** The environment of a parsed application is what
    [_parse_environment_config] made of the 'environment' entry of its
    definition. *)
Lemma flocker_application_environment application_name d application s' :
  flocker_application _lenient from_string application_name (PDict d)
  = (ret application, s') ->
  exists d' s'',
    dict_get "environment" d' = dict_get "environment" d
    /\ _parse_environment_config application_name (PDict d')
       = (ret (environment application), s'').
Proof.
  intros H. unfold flocker_application in H.
  apply (bind_ret_transforms same_environment) in H
    as (image_name & d1 & R1 & _ & H); [|solve [same_environment]].
  apply (bind_ret_transforms same_environment) in H
    as (image & d2 & R2 & _ & H); [|solve [same_environment]].
  apply (bind_ret_transforms same_environment) in H
    as (ports & d3 & R3 & _ & H); [|solve [same_environment]].
  apply (bind_ret_transforms same_environment) in H
    as (links_config & d4 & R4 & _ & H); [|solve [same_environment]].
  apply (bind_ret_transforms same_environment) in H
    as (links & d5 & R5 & _ & H); [|solve [same_environment]].
  apply (bind_ret_transforms same_environment) in H
    as (config & d6 & R6 & _ & H); [|solve [same_environment]].
  apply (bind_ret_transforms same_environment) in H
    as (has_volume & d7 & R7 & _ & H); [|solve [same_environment]].
  apply (bind_ret_transforms same_environment) in H
    as (volume & d8 & R8 & _ & H);
    [|solve [destruct has_volume; unfold parse_volume; same_environment]].
  unfold bind at 1 in H.
  destruct (_parse_environment_config application_name (PDict d8))
    as [[e|environment] s9] eqn:Henv; [done|].
  exists d8, s9. split.
  { unfold same_environment in *. congruence. }
  unfold bind at 1, lift at 1 in H.
  destruct (frozenset _) as [e|ports']; [done|].
  unfold bind, get in H. destruct (truthy s9).
  - unfold bind, lift in H. destruct (keys_of s9); discriminate.
  - unfold mret in H. by injection H as <- <-.
Qed.

(** C9: when the 'environment' key maps to an empty dictionary,
    [_parse_environment_config] checks nothing, converts nothing and
    hands back that empty dictionary, which is neither the [None] nor the
    frozenset that its docstring promises.  The application parsed from
    the flocker format has the dictionary as its environment and so
    cannot be hashed: a node that lists it raises [TypeError] when the
    set of its applications is built.  The fig format makes the empty
    frozenset of the same stanza. *)
Theorem empty_environment_is_kept application_name (d : dict) :
  dict_get "environment" d = Some (PDict []) ->
  _parse_environment_config application_name (PDict d)
  = (ret (PDict []), PDict (dict_del "environment" d))
  /\ (forall application s',
        flocker_application _lenient from_string application_name (PDict d)
        = (ret application, s') ->
        environment application = PDict []
        /\ environment application <> PNone
        /\ environment application <> PFrozenset []
        /\ py_hashable application = false
        /\ (forall all_applications hostname names found,
              found_names all_applications names found ->
              application ∈ found ->
              node_from_configuration all_applications hostname (PList names)
              = raise TypeError))
  /\ (forall d0,
        dict_get "environment" d0 = None ->
        fst (_parse_environment_config application_name (PDict d0))
        = ret PNone)
  /\ fig_environment application_name (PDict d) = ret (PFrozenset []).
Proof.
  intros Hget. split; [|split; [|split]].
  - by apply parse_environment_falsy.
  - intros application s' Happ.
    apply flocker_application_environment in Happ as (d' & s'' & Hsame & Happ).
    rewrite Hget in Hsame.
    rewrite (parse_environment_falsy _ _ _ Hsame eq_refl) in Happ.
    injection Happ as Happ _.
    assert (py_hashable application = false) as Hhash.
    { cbn [py_hashable Application_value]. rewrite <- Happ.
      apply andb_false_r. }
    rewrite <- Happ. repeat split; try done.
    intros all_applications hostname names found Hfound Hin.
    unfold node_from_configuration.
    cbn [isinstance type_of existsb subclass pytype_eqb orb negb iter rbind
           ret].
    rewrite (found_names_are_collected _ _ _ _ Hfound). cbn [rbind ret].
    by rewrite (frozenset_unhashable application found Hin Hhash).
  - intros d0 H0. by rewrite parse_environment_absent.
  - unfold fig_environment, getitem. by rewrite Hget.
Qed.

(** ** The parser consumes its input *)

#[local] Instance shrinks_preorder : PreOrder shrinks.
Proof.
  split; unfold shrinks.
  - by intros d k.
  - intros d1 d2 d3 H1 H2 k Hk. auto.
Qed.

Lemma shrinks_del key d : shrinks d (dict_del key d).
Proof. intros k Hk. by apply dict_has_del in Hk as [? _]. Qed.

Ltac shrinks :=
  repeat transforms_step; try (intros; by apply shrinks_del).

Lemma dict_has_del_same (k : string) (d : dict) :
  dict_has k (dict_del k d) = false.
Proof.
  destruct (dict_has k (dict_del k d)) eqn:E; [|done].
  by apply dict_has_del in E as [_ ?].
Qed.

Lemma parse_environment_shrinks application_name :
  transforms shrinks (_parse_environment_config application_name).
Proof.
  unfold _parse_environment_config. shrinks.
Qed.

(** Once the image has been popped, no later step puts it back. *)
Lemma flocker_application_consumes application_name d :
  dict_has "image" d = true ->
  exists d',
    snd (flocker_application _lenient from_string application_name (PDict d))
    = PDict d'
    /\ dict_has "image" d' = false
    /\ shrinks d d'.
Proof.
  intros Himage. apply dict_has_get in Himage as [image_name Himage].
  unfold flocker_application.
  match goal with
  | |- context [snd (bind ?m ?k (PDict d))] =>
      destruct (bind_first_transforms shrinks m k d image_name
                  (dict_del "image" d)) as (d' & Hd' & Hs)
  end.
  { unfold mexcept_KeyError, pop. by rewrite Himage. }
  { shrinks. }
  exists d'. split; [exact Hd'|]. split.
  - destruct (dict_has "image" d') eqn:E; [|done].
    apply Hs in E. by rewrite dict_has_del_same in E.
  - etransitivity; [apply (shrinks_del "image")|done].
Qed.

Lemma for_items_head {A} (body : string -> M pyval A) k v d :
  exists rest,
    snd (for_items body ((k, v) :: d)) = (k, snd (body k v)) :: rest.
Proof.
  cbn [for_items]. destruct (body k v) as [[e|a] v']; cbn [snd]; [by eexists|].
  destruct (for_items body d) as [r d'']. by eexists.
Qed.

Lemma dict_get_set (k : string) (v : pyval) (d : dict) :
  dict_get k (dict_set k v d) = Some v.
Proof.
  induction d as [|[k0 v0] d IH]; cbn [dict_set dict_get].
  - by rewrite String.eqb_refl.
  - destruct (String.eqb k k0) eqn:E; cbn [dict_get].
    + by rewrite String.eqb_refl.
    + by rewrite E.
Qed.

(** What [_applications_from_flocker_configuration] leaves of a
    configuration that passed its checks: the same dictionary, with the
    applications as the loop left them. *)
Lemma flocker_configuration_after c version pairs :
  dict_get "version" c = Some version ->
  ne_int version 1 = false ->
  dict_get "applications" c = Some (PDict pairs) ->
  _applications_from_flocker_configuration _lenient from_string (PDict c)
  = (fst (for_items (flocker_application _lenient from_string) pairs),
     PDict (dict_set "applications"
              (PDict (snd (for_items
                             (flocker_application _lenient from_string)
                             pairs)))
              c)).
Proof.
  intros Hv Hone Ha.
  unfold _applications_from_flocker_configuration, bind, get, lift, contains,
    getitem.
  rewrite (dict_get_has _ _ _ Ha), (dict_get_has _ _ _ Hv). cbn [ret negb].
  rewrite Hv. cbn [ret]. rewrite Hone, Ha. cbn [ret items].
  destruct (for_items _ pairs) as [r pairs']. cbn [update_item ret fst snd].
  by destruct r.
Qed.

Lemma model_from_configuration_after dep app :
  snd (model_from_configuration _lenient from_string dep app)
  = snd (_applications_from_configuration _lenient from_string app).
Proof.
  unfold model_from_configuration, bind.
  destruct (_applications_from_configuration _ _ app) as [[e|a] s]; [done|].
  unfold lift. destruct (_deployment_from_configuration dep a); [done|].
  by destruct (frozenset _).
Qed.

Lemma applications_from_configuration_flocker app :
  _is_fig_configuration app = ret false ->
  _applications_from_configuration _lenient from_string app
  = _applications_from_flocker_configuration _lenient from_string app.
Proof.
  intros Hfig. unfold _applications_from_configuration, bind, get, lift.
  by rewrite Hfig.
Qed.

(** An application that parses has had every key of its dictionary
    consumed. *)
#[local] Instance any_change_preorder : PreOrder any_change.
Proof. by split. Qed.

Ltac any_change :=
  repeat transforms_step; try (intros; exact I).

Lemma flocker_application_empties application_name config application s' :
  flocker_application _lenient from_string application_name config
  = (ret application, s') ->
  s' = PDict [].
Proof.
  intros H.
  assert (exists d, config = PDict d) as [d ->].
  { unfold flocker_application, bind at 1, mexcept_KeyError, pop in H.
    destruct config; try discriminate. by eexists. }
  unfold flocker_application in H.
  do 9 (apply (bind_ret_transforms any_change) in H
          as (? & ? & _ & _ & H); [|solve [any_change]]).
  apply (bind_ret_transforms any_change) in H
    as (ports & d' & _ & _ & H); [|solve [any_change]].
  unfold bind, get in H. destruct d' as [|kv d']; cbn [truthy] in H.
  - unfold mret in H. by injection H as _ <-.
  - unfold bind, lift in H. discriminate.
Qed.

Lemma for_items_empties pairs applications pairs' :
  for_items (flocker_application _lenient from_string) pairs
  = (ret applications, pairs') ->
  pairs' = map (fun kv => (fst kv, PDict [])) pairs.
Proof.
  revert applications pairs'.
  induction pairs as [|[k v] pairs IH]; intros applications pairs' H;
    cbn [for_items] in H.
  - by injection H as _ <-.
  - destruct (flocker_application _ _ k v) as [[e|a] v'] eqn:Ha;
      [discriminate|].
    apply flocker_application_empties in Ha as ->.
    destruct (for_items _ pairs) as [[e|r] d''] eqn:Hr; [discriminate|].
    injection H as _ <-. cbn [map fst]. f_equal. by eapply IH.
Qed.

(** C10, amended: parsing a flocker-format application configuration
    that passes the key and version checks, and whose first application
    is a dictionary with an 'image' key, mutates the caller's input:
    whether [model_from_configuration] returns or raises, that
    application's dictionary has lost its 'image' key and gained none, so
    the input mapping is no longer equal to its original value; and when
    it returns, every application's dictionary has been emptied. *)
Theorem parsing_consumes_the_input
    (deployment_configuration application_configuration version : pyval)
    (application_name : string) (config rest : dict) :
  _is_fig_configuration application_configuration = ret false ->
  getitem application_configuration "version" = ret version ->
  ne_int version 1 = false ->
  getitem application_configuration "applications"
  = ret (PDict ((application_name, PDict config) :: rest)) ->
  dict_has "image" config = true ->
  exists config' rest',
    getitem (snd (model_from_configuration _lenient from_string
                    deployment_configuration application_configuration))
            "applications"
    = ret (PDict ((application_name, PDict config') :: rest'))
    /\ dict_has "image" config' = false
    /\ shrinks config config'
    /\ snd (model_from_configuration _lenient from_string
              deployment_configuration application_configuration)
       <> application_configuration
    /\ (forall deployment,
          fst (model_from_configuration _lenient from_string
                 deployment_configuration application_configuration)
          = ret deployment ->
          config' = []
          /\ rest' = map (fun kv => (fst kv, PDict [])) rest).
Proof.
  intros Hfig Hv Hone Ha Himage.
  rewrite model_from_configuration_after.
  unfold model_from_configuration, bind.
  rewrite (applications_from_configuration_flocker _ Hfig).
  destruct application_configuration as [| | | | | | |c|]; try discriminate.
  cbn [getitem] in Hv, Ha.
  destruct (dict_get "version" c) as [version'|] eqn:Ev; [|discriminate].
  destruct (dict_get "applications" c) as [apps|] eqn:Ea; [|discriminate].
  injection Hv as ->. injection Ha as ->.
  rewrite (flocker_configuration_after c version _ Ev Hone Ea).
  cbn [snd].
  destruct (for_items_head (flocker_application _lenient from_string)
              application_name (PDict config) rest) as [rest' Hhead].
  destruct (flocker_application_consumes application_name config Himage)
    as (config' & Hconfig' & Hgone & Hshrinks).
  rewrite Hconfig' in Hhead.
  exists config', rest'. rewrite Hhead. cbn [getitem]. rewrite dict_get_set.
  repeat split; try done.
  - intros [= Heq]. apply (f_equal (dict_get "applications")) in Heq.
    rewrite dict_get_set, Ea in Heq. injection Heq as Heq _.
    rewrite Heq in Hgone. congruence.
  - destruct (for_items _ _) as [[e|applications] pairs'] eqn:Hloop;
      [done|].
    apply for_items_empties in Hloop. cbn [snd] in Hhead.
    rewrite Hloop in Hhead. cbn [map fst] in Hhead. congruence.
  - destruct (for_items _ _) as [[e|applications] pairs'] eqn:Hloop;
      [done|].
    apply for_items_empties in Hloop. cbn [snd] in Hhead.
    rewrite Hloop in Hhead. cbn [map fst] in Hhead. congruence.
Qed.

(** ** The 'version' key *)

(** C4, amended: an application configuration in the flocker format (a
    dictionary that is not recognised as fig's) that has its
    'applications' key but no 'version' key, and a deployment
    configuration that has its 'nodes' key but no 'version' key, are each
    rejected with a [ConfigurationError] whose message mentions "Missing
    'version' key."; no Deployment is produced. *)
Theorem missing_version_is_rejected
    (application_configuration deployment_configuration : pyval) :
  (_is_fig_configuration application_configuration = ret false ->
   contains "applications" application_configuration = ret true ->
   contains "version" application_configuration = ret false ->
   model_from_configuration _lenient from_string deployment_configuration
       application_configuration
   = (raise (ConfigurationError application_missing_version),
      application_configuration))
  /\
  (contains "nodes" deployment_configuration = ret true ->
   contains "version" deployment_configuration = ret false ->
   (forall all_applications,
      _deployment_from_configuration deployment_configuration all_applications
      = raise (ConfigurationError deployment_missing_version))
   /\
   (forall applications after,
      _applications_from_configuration _lenient from_string
        application_configuration = (ret applications, after) ->
      model_from_configuration _lenient from_string deployment_configuration
        application_configuration
      = (raise (ConfigurationError deployment_missing_version), after)))
  /\ mentions "Missing 'version' key." application_missing_version = true
  /\ mentions "Missing 'version' key." deployment_missing_version = true.
Proof.
  split; [|split; [|by vm_compute]].
  - intros Hfig Happs Hver.
    unfold model_from_configuration, _applications_from_configuration,
      _applications_from_flocker_configuration, bind, get, lift, mraise.
    rewrite Hfig. cbn [ret]. rewrite Happs. cbn [ret negb].
    by rewrite Hver.
  - intros Hnodes Hver. split.
    + intros all. unfold _deployment_from_configuration, rbind.
      rewrite Hnodes. cbn [ret negb]. by rewrite Hver.
    + intros apps after Happs.
      unfold model_from_configuration, bind. rewrite Happs.
      unfold lift, _deployment_from_configuration, rbind.
      rewrite Hnodes. cbn [ret negb]. by rewrite Hver.
Qed.

End Facts.

(** ** The claims on concrete configurations *)

Import Scenarios.

(** Scenario 1 of the spec. *)
Example scenario_1 :
  fst (parse web_on_host1 web_applications)
  = ret {| nodes := [{| hostname := "host1"; applications := [web] |}] |}.
Proof. reflexivity. Qed.

(** C4, as stated, fails: a configuration in fig's format has no
    'version' key and yields a Deployment; an empty application
    configuration and an empty deployment configuration are rejected for
    their missing 'applications' and 'nodes'. *)
Lemma version_is_not_always_demanded :
  contains "version" fig_web = ret false
  /\ fst (parse web_on_host1 fig_web)
     = ret {| nodes := [{| hostname := "host1"; applications := [web] |}] |}
  /\ contains "version" empty_configuration = ret false
  /\ fst (parse web_on_host1 empty_configuration)
     = raise (ConfigurationError
                "Application configuration has an error. Missing 'applications' key.")
  /\ _deployment_from_configuration empty_configuration []
     = raise (ConfigurationError
                "Deployment configuration has an error. Missing 'nodes' key.")
  /\ mentions "Missing 'version' key."
       "Application configuration has an error. Missing 'applications' key."
     = false
  /\ mentions "Missing 'version' key."
       "Deployment configuration has an error. Missing 'nodes' key."
     = false.
Proof. repeat split; reflexivity. Qed.

Lemma missing_version_is_rejected_witness :
  parse nodes_without_version applications_without_version
  = (raise (ConfigurationError application_missing_version),
     applications_without_version)
  /\ _deployment_from_configuration nodes_without_version [("web", web)]
     = raise (ConfigurationError deployment_missing_version)
  /\ parse nodes_without_version web_applications
     = (raise (ConfigurationError deployment_missing_version),
        PDict [("version", PInt 1);
               ("applications", PDict [("web", PDict [])])]).
Proof.
  destruct (missing_version_is_rejected false DockerImage_from_string
              applications_without_version nodes_without_version)
    as (Happ & _).
  destruct (missing_version_is_rejected false DockerImage_from_string
              web_applications nodes_without_version)
    as (_ & Hdep & _).
  destruct Hdep as [Hnodes Hmodel]; [reflexivity..|].
  split; [by apply Happ|]. split; [apply Hnodes|].
  by eapply Hmodel.
Defined.

(** C7, as stated, fails: when the deployment configuration that names
    an unknown application also lacks its 'version' key, the error is
    about the version; and when a node before it lists an application
    that cannot be hashed, here one whose environment is an empty
    dictionary, the error is a [TypeError]. *)
Lemma unknown_application_without_version :
  references_unknown [] [("host1", PList [PStr "db"])]
  /\ getitem db_on_host1_without_version "nodes"
     = ret (PDict [("host1", PList [PStr "db"])])
  /\ _deployment_from_configuration db_on_host1_without_version []
     = raise (ConfigurationError deployment_missing_version)
  /\ mentions "Unrecognised application name" deployment_missing_version
     = false
  /\ _deployment_from_configuration
       (PDict [("version", PInt 1);
               ("nodes", PDict [("host1", PList [PStr "web"]);
                                ("host2", PList [PStr "db"])])])
       [("web",
         {| name := "web";
            image := {| repository := "nginx"; tag := "latest" |};
            volume := None;
            ports := [];
            links := [];
            environment := PDict [] |})]
     = raise TypeError.
Proof.
  repeat split; try reflexivity.
  apply Exists_cons_hd. exists [PStr "db"]. split; [done|].
  by apply Exists_cons_hd.
Qed.

Lemma unrecognised_application_is_rejected_witness :
  _deployment_from_configuration
    (PDict [("version", PInt 1);
            ("nodes",
             PDict [("host1", PList [PStr "web"]);
                    ("host2", PList [PStr "web"; PStr "db"; PStr "cache"])])])
    [("web", web)]
  = raise (ConfigurationError
             (unrecognised_application "host2" (PStr "db")))
  /\ mentions "Unrecognised application name"
       (unrecognised_application "host2" (PStr "db")) = true.
Proof.
  apply (unrecognised_application_is_rejected
           (PDict [("version", PInt 1);
                   ("nodes",
                    PDict [("host1", PList [PStr "web"]);
                           ("host2",
                            PList [PStr "web"; PStr "db"; PStr "cache"])])])
           (PInt 1) [("host1", PList [PStr "web"])] [] "host2"
           [PStr "web"] [web] (PStr "db") [PStr "cache"] [("web", web)]);
    try reflexivity.
  - apply Forall_cons. split; [|apply Forall_nil_2].
    exists [PStr "web"], [web]. split; [done|]. split; [|done].
    by repeat constructor.
  - by repeat constructor.
Defined.

Lemma link_to_portless_application_escapes_witness :
  exists application_configuration web db,
    _is_fig_configuration application_configuration = ret true
    /\ getitem application_configuration "web" = ret (PDict web)
    /\ dict_get "links" web = Some (PList [PStr "db"])
    /\ getitem application_configuration "db" = ret (PDict db)
    /\ dict_has "ports" db = false
    /\ _applications_from_configuration false DockerImage_from_string
         application_configuration
       = (raise StopIteration, application_configuration)
    /\ (forall deployment_configuration,
          fst (parse deployment_configuration application_configuration)
          = raise StopIteration)
    /\ is_ConfigurationError (@raise applications_map StopIteration) = false.
Proof.
  exact (link_to_portless_application_escapes false DockerImage_from_string
           {| repository := "nginx"; tag := "latest" |}
           {| repository := "postgres"; tag := "9" |} eq_refl eq_refl).
Defined.

(** C9 on the configuration of scenario 1 with an empty 'environment':
    the application comes out of the parser with the empty dictionary as
    its environment, not the [None] of the application without the key,
    and the deployment that puts it on a node is not built: [TypeError].
    In fig's format the application gets the empty frozenset and is
    deployed. *)
Lemma empty_environment_is_not_None :
  fst (_applications_from_configuration false DockerImage_from_string
         web_with_empty_environment)
  = ret [("web",
          {| name := "web";
             image := {| repository := "nginx"; tag := "latest" |};
             volume := None;
             ports := [];
             links := [];
             environment := PDict [] |})]
  /\ pyval_eqb (PDict []) PNone = false
  /\ environment web = PNone
  /\ fst (parse web_on_host1 web_with_empty_environment) = raise TypeError
  /\ fst (parse web_on_host1 fig_web_with_empty_environment)
     = ret {| nodes :=
                [{| hostname := "host1";
                    applications :=
                      [{| name := "web";
                          image := {| repository := "nginx";
                                      tag := "latest" |};
                          volume := None;
                          ports := [];
                          links := [];
                          environment := PFrozenset [] |}] |}] |}.
Proof. repeat split; reflexivity. Qed.

Lemma empty_environment_is_kept_witness :
  _parse_environment_config "web"
    (PDict [("image", PStr "nginx:latest"); ("environment", PDict [])])
  = (ret (PDict []), PDict [("image", PStr "nginx:latest")])
  /\ fst (_parse_environment_config "web"
            (PDict [("image", PStr "nginx:latest")]))
     = ret PNone.
Proof.
  destruct (empty_environment_is_kept false DockerImage_from_string "web"
              [("image", PStr "nginx:latest"); ("environment", PDict [])]
              eq_refl) as (H1 & _ & H3 & _).
  split; [exact H1|]. by apply H3.
Defined.

(** C10, as stated, fails: a call that finds no application to parse
    returns with the input as it was, and so does a call that raises
    before the first application. *)
Lemma input_can_stay_unchanged :
  parse no_nodes no_applications = (ret {| nodes := [] |}, no_applications)
  /\ snd (parse no_nodes empty_configuration) = empty_configuration
  /\ is_ConfigurationError (fst (parse no_nodes empty_configuration)) = true
  /\ snd (parse web_on_host1 fig_web) = fig_web.
Proof. repeat split; reflexivity. Qed.

Lemma parsing_consumes_the_input_witness :
  exists config' rest',
    getitem (snd (parse web_on_host1 web_applications)) "applications"
    = ret (PDict (("web", PDict config') :: rest'))
    /\ dict_has "image" config' = false
    /\ shrinks
         [("image", PStr "nginx:latest");
          ("ports",
           PList [PDict [("internal", PInt 80); ("external", PInt 8080)]])]
         config'
    /\ snd (parse web_on_host1 web_applications) <> web_applications
    /\ (forall deployment,
          fst (parse web_on_host1 web_applications) = ret deployment ->
          config' = [] /\ rest' = []).
Proof.
  exact (parsing_consumes_the_input false DockerImage_from_string
           web_on_host1 web_applications (PInt 1) "web" _ [] eq_refl eq_refl
           eq_refl eq_refl eq_refl).
Defined.

End ConfigFacts.

(* ===================================================================== *)
(** * Facts about the codec *)
(* ===================================================================== *)

Module CodecFacts.
Import Py Model Codec Properties.
Local Open Scope list_scope.
Local Open Scope N_scope.

(** ** Numbers *)

Lemma enc_varint_fuel_enough (f1 f2 : nat) (n : N) :
  n < 2 ^ N.of_nat f1 -> n < 2 ^ N.of_nat f2 ->
  enc_varint_fuel f1 n = enc_varint_fuel f2 n.
Proof.
  revert f2 n. induction f1 as [|f1 IH]; intros [|f2] n H1 H2;
    cbn [enc_varint_fuel]; try done.
  - change (2 ^ N.of_nat 0) with 1 in H1.
    destruct (N.ltb_spec n 128); [done|lia].
  - change (2 ^ N.of_nat 0) with 1 in H2.
    destruct (N.ltb_spec n 128); [done|lia].
  - destruct (N.ltb_spec n 128); [done|]. f_equal.
    rewrite Nat2N.inj_succ, N.pow_succ_r' in H1, H2.
    apply IH; apply N.Div0.div_lt_upper_bound; lia.
Qed.

Lemma enc_varint_small (n : N) : n < 128 -> enc_varint n = [ascii_of_N n].
Proof.
  intros H. unfold enc_varint. destruct (N.to_nat (N.size n)); [done|].
  cbn [enc_varint_fuel]. by destruct (N.ltb_spec n 128); [|lia].
Qed.

Lemma enc_varint_large (n : N) :
  128 <= n ->
  enc_varint n = ascii_of_N (128 + n mod 128) :: enc_varint (n / 128).
Proof.
  intros H. unfold enc_varint.
  pose proof (N.size_gt n) as Hn.
  destruct (N.to_nat (N.size n)) as [|f] eqn:Ef.
  - assert (N.size n = 0) as E by lia. rewrite E in Hn. simpl in Hn. lia.
  - cbn [enc_varint_fuel]. destruct (N.ltb_spec n 128); [lia|]. f_equal.
    apply enc_varint_fuel_enough.
    + apply N.Div0.div_lt_upper_bound.
      assert (N.size n = N.succ (N.of_nat f)) as E by lia.
      rewrite E, N.pow_succ_r' in Hn. lia.
    + rewrite N2Nat.id. apply N.size_gt.
Qed.

Lemma dec_enc_varint (n : N) (rest : bytes) :
  dec_varint (enc_varint n ++ rest) = Some (n, rest).
Proof.
  induction n as [n IH] using (well_founded_induction N.lt_wf_0).
  destruct (N.lt_ge_cases n 128) as [H|H].
  - rewrite (enc_varint_small n H). cbn [app dec_varint].
    rewrite N_ascii_embedding by lia.
    by destruct (N.ltb_spec n 128); [|lia].
  - rewrite (enc_varint_large n H). cbn [app dec_varint].
    pose proof (N.mod_lt n 128 ltac:(lia)) as Hm.
    rewrite N_ascii_embedding by lia.
    destruct (N.ltb_spec (128 + n mod 128) 128) as [Hc|_];
      [exfalso; revert Hc; apply N.le_ngt, N.le_add_r|].
    assert (0 < n / 128) as Hq by (apply N.div_str_pos; lia).
    rewrite IH by (apply N.div_lt; lia).
    destruct (N.eqb_spec (n / 128) 0); [lia|].
    do 2 f_equal. pose proof (N.div_mod n 128 ltac:(lia)) as Hdm.
    set (q := n / 128) in *. set (r := n mod 128) in *. clearbody q r. lia.
Qed.

Lemma enc_dec_varint (bs : bytes) (n : N) (rest : bytes) :
  dec_varint bs = Some (n, rest) -> bs = enc_varint n ++ rest.
Proof.
  revert n rest. induction bs as [|b bs IH]; intros n rest; [done|].
  cbn [dec_varint]. pose proof (N_ascii_bounded b) as Hb.
  destruct (N.ltb_spec (N_of_ascii b) 128) as [H|H].
  - intros [= <- <-]. rewrite enc_varint_small by done.
    by rewrite ascii_N_embedding.
  - destruct (dec_varint bs) as [[hi rest']|]; [|done].
    destruct (N.eqb_spec hi 0) as [|Hhi]; [done|].
    intros [= <- <-]. rewrite (IH hi rest' eq_refl).
    set (v := N_of_ascii b) in *.
    assert ((v - 128 + 128 * hi) mod 128 = v - 128) as Em.
    { replace (v - 128 + 128 * hi) with (v - 128 + hi * 128) by lia.
      rewrite N.Div0.mod_add. apply N.mod_small. lia. }
    assert ((v - 128 + 128 * hi) / 128 = hi) as Eq.
    { replace (v - 128 + 128 * hi) with (v - 128 + hi * 128) by lia.
      rewrite N.div_add by lia.
      rewrite (N.div_small (v - 128)) by lia. lia. }
    rewrite (enc_varint_large (v - 128 + 128 * hi)) by lia.
    rewrite Em, Eq. cbn [app]. f_equal.
    replace (128 + (v - 128)) with v by lia.
    symmetry. apply ascii_N_embedding.
Qed.

Lemma unzigzag_zigzag (z : Z) : unzigzag (zigzag z) = z.
Proof.
  unfold zigzag, unzigzag. destruct (Z.leb_spec 0 z).
  - rewrite Z2N.inj_mul by lia. change (Z.to_N 2) with 2.
    rewrite N.even_mul. cbn [N.even orb].
    rewrite N.mul_comm, N.div_mul by lia. apply Z2N.id. lia.
  - assert (exists k, Z.to_N (- 2 * z - 1) = 2 * k + 1
                      /\ Z.of_N k = (- z - 1)%Z) as (k & -> & Hk).
    { exists (Z.to_N (- z - 1)). split; lia. }
    replace (2 * k + 1 + 1) with ((k + 1) * 2) by lia.
    rewrite N.div_mul by lia.
    rewrite (N.add_comm (2 * k) 1), N.even_add_mul_2. cbn [N.even]. lia.
Qed.

Lemma zigzag_unzigzag (n : N) : zigzag (unzigzag n) = n.
Proof.
  unfold zigzag, unzigzag. destruct (N.even n) eqn:E.
  - apply N.even_spec in E as [k ->].
    rewrite N.mul_comm, N.div_mul by lia.
    destruct (Z.leb_spec 0 (Z.of_N k)); lia.
  - assert (N.odd n = true) as [k ->]%N.odd_spec
        by (rewrite <- N.negb_even; by rewrite E).
    replace (2 * k + 1 + 1) with ((k + 1) * 2) by lia.
    rewrite N.div_mul by lia.
    destruct (Z.leb_spec 0 (- Z.of_N (k + 1))); lia.
Qed.

(** ** Encoders and decoders that fit together *)

Lemma codec_ok_ext {A} (P Q : A -> Prop) (enc enc' : A -> bytes) dec :
  (forall x, P x <-> Q x) ->
  (forall x, P x -> enc x = enc' x) ->
  codec_ok P enc dec -> codec_ok Q enc' dec.
Proof.
  intros HPQ Henc [Hc Hs]. split.
  - intros x rest HQ. apply HPQ in HQ. rewrite <- (Henc x HQ). by apply Hc.
  - intros bs x rest H. destruct (Hs bs x rest H) as [HP ->].
    split; [by apply HPQ|]. by rewrite (Henc x HP).
Qed.

Lemma codec_ok_map {A B} (P : A -> Prop) (Q : B -> Prop) enc dec
    (f : A -> B) (g : B -> A) :
  (forall a, P a -> Q (f a) /\ g (f a) = a) ->
  (forall b, Q b -> P (g b) /\ f (g b) = b) ->
  codec_ok P enc dec ->
  codec_ok Q (fun b => enc (g b)) (pmap f dec).
Proof.
  intros Hfg Hgf [Hc Hs]. split.
  - intros b rest HQ. destruct (Hgf b HQ) as [HP Hb]. unfold pmap.
    by rewrite (Hc _ rest HP), Hb.
  - intros bs b rest. unfold pmap.
    destruct (dec bs) as [[a rest']|] eqn:E; [|done].
    intros [= <- <-]. destruct (Hs bs a rest' E) as [HP ->].
    destruct (Hfg a HP) as [HQ ->]. done.
Qed.

Lemma codec_ok_pair {A B} (P : A -> Prop) (Q : B -> Prop) encA decA encB decB :
  codec_ok P encA decA -> codec_ok Q encB decB ->
  codec_ok (fun p => P (fst p) /\ Q (snd p))
           (fun p => encA (fst p) ++ encB (snd p)) (ppair decA decB).
Proof.
  intros [Hca Hsa] [Hcb Hsb]. split.
  - intros [a b] rest [HP HQ]. cbn [fst snd] in *. unfold ppair, pbind, pmap.
    rewrite <- app_assoc, (Hca a _ HP). by rewrite (Hcb b _ HQ).
  - intros bs [a b] rest. unfold ppair, pbind, pmap.
    destruct (decA bs) as [[a' r1]|] eqn:Ea; [|done].
    destruct (decB r1) as [[b' r2]|] eqn:Eb; [|done].
    intros [= <- <- <-]. destruct (Hsa _ _ _ Ea) as [HP ->].
    destruct (Hsb _ _ _ Eb) as [HQ ->]. cbn [fst snd].
    by rewrite app_assoc.
Qed.

Lemma codec_ok_varint : codec_ok (fun _ => True) enc_varint dec_varint.
Proof.
  split.
  - intros n rest _. apply dec_enc_varint.
  - intros bs n rest H. split; [done|]. by apply enc_dec_varint.
Qed.

Lemma codec_ok_nat : codec_ok (fun _ => True) enc_nat dec_nat.
Proof.
  apply (codec_ok_map (fun _ => True) _ enc_varint dec_varint
           N.to_nat N.of_nat); [| |exact codec_ok_varint].
  - intros n _. split; [done|]. apply N2Nat.id.
  - intros n _. split; [done|]. apply Nat2N.id.
Qed.

Lemma codec_ok_Z : codec_ok (fun _ => True) enc_Z dec_Z.
Proof.
  apply (codec_ok_map (fun _ => True) _ enc_varint dec_varint
           unzigzag zigzag); [| |exact codec_ok_varint].
  - intros n _. split; [done|]. apply zigzag_unzigzag.
  - intros z _. split; [done|]. apply unzigzag_zigzag.
Qed.

Lemma length_list_ascii_of_string (s : string) :
  length (String.list_ascii_of_string s) = String.length s.
Proof. induction s; cbn; congruence. Qed.

Lemma length_string_of_list_ascii (l : list ascii) :
  String.length (String.string_of_list_ascii l) = length l.
Proof. induction l; cbn; congruence. Qed.

Lemma codec_ok_string : codec_ok (fun _ => True) enc_string dec_string.
Proof.
  destruct codec_ok_nat as [Hc Hs]. split.
  - intros s rest _. unfold enc_string, dec_string, pbind.
    rewrite <- app_assoc, (Hc _ _ I).
    rewrite length_app, length_list_ascii_of_string.
    destruct (Nat.leb_spec (String.length s) (String.length s + length rest));
      [|lia].
    rewrite <- (length_list_ascii_of_string s).
    rewrite take_app_length, drop_app_length.
    by rewrite String.string_of_list_ascii_of_string.
  - intros bs s rest. unfold dec_string, pbind.
    destruct (dec_nat bs) as [[n r]|] eqn:E; [|done].
    destruct (Nat.leb_spec n (length r)); [|done].
    intros [= <- <-]. split; [done|].
    destruct (Hs _ _ _ E) as [_ ->]. unfold enc_string.
    rewrite length_string_of_list_ascii, length_take_le by done.
    rewrite String.list_ascii_of_string_of_list_ascii.
    by rewrite <- app_assoc, take_drop.
Qed.

Lemma dec_n_enc {A} (P : A -> Prop) enc dec (l : list A) rest :
  codec_ok P enc dec -> Forall P l ->
  dec_n dec (length l) (concat (map enc l) ++ rest) = Some (l, rest).
Proof.
  intros [Hc _]. induction 1 as [|x l HP _ IH]; [done|].
  cbn [length map concat dec_n]. unfold pbind, pmap.
  by rewrite <- app_assoc, (Hc x _ HP), IH.
Qed.

Lemma enc_dec_n {A} (P : A -> Prop) enc dec (n : nat) bs (l : list A) rest :
  codec_ok P enc dec ->
  dec_n dec n bs = Some (l, rest) ->
  Forall P l /\ length l = n /\ bs = concat (map enc l) ++ rest.
Proof.
  intros [_ Hs]. revert bs l rest. induction n as [|n IH]; intros bs l rest.
  - cbn. intros [= <- <-]. done.
  - cbn [dec_n]. unfold pbind, pmap.
    destruct (dec bs) as [[x r]|] eqn:E; [|done].
    destruct (dec_n dec n r) as [[l' r']|] eqn:En; [|done].
    intros [= <- <-]. destruct (Hs _ _ _ E) as [HP ->].
    destruct (IH _ _ _ En) as (Hall & Hlen & ->).
    split; [by constructor|]. split; [cbn; by rewrite Hlen|].
    cbn. by rewrite app_assoc.
Qed.

Lemma codec_ok_list {A} (P : A -> Prop) enc dec :
  codec_ok P enc dec -> codec_ok (Forall P) (enc_list enc) (dec_list dec).
Proof.
  intros Hok. destruct codec_ok_nat as [Hc Hs]. split.
  - intros l rest Hall. unfold enc_list, dec_list, pbind.
    rewrite <- app_assoc, (Hc _ _ I). by apply (dec_n_enc P).
  - intros bs l rest. unfold dec_list, pbind.
    destruct (dec_nat bs) as [[n r]|] eqn:E; [|done].
    intros Hn. destruct (enc_dec_n P _ _ _ _ _ _ Hok Hn) as (Hall & Hlen & ->).
    destruct (Hs _ _ _ E) as [_ ->]. split; [done|].
    unfold enc_list. by rewrite Hlen, app_assoc.
Qed.

Lemma N_of_marker (n : N) : n < 256 -> N_of_ascii (marker n) = n.
Proof. apply N_ascii_embedding. Qed.

Lemma marker_of_N (b : ascii) (n : N) : N_of_ascii b = n -> b = marker n.
Proof. intros <-. symmetry. apply ascii_N_embedding. Qed.

Lemma codec_ok_option {A} (P : A -> Prop) enc dec :
  codec_ok P enc dec ->
  codec_ok (fun o => match o with Some a => P a | None => True end)
           (enc_option enc) (dec_option dec).
Proof.
  intros [Hc Hs]. split.
  - intros [a|] rest HP; cbn [enc_option app dec_option];
      rewrite N_of_marker by done; cbn; [|done].
    unfold pmap. by rewrite (Hc a rest HP).
  - intros [|b bs] o rest; [done|]. cbn [dec_option].
    destruct (N.eqb_spec (N_of_ascii b) 0) as [E0|_].
    { intros [= <- <-]. split; [done|]. by rewrite (marker_of_N b 0 E0). }
    destruct (N.eqb_spec (N_of_ascii b) 1) as [E1|_]; [|done].
    unfold pmap. destruct (dec bs) as [[a r]|] eqn:E; [|done].
    intros [= <- <-]. destruct (Hs _ _ _ E) as [HP ->].
    split; [done|]. by rewrite (marker_of_N b 1 E1).
Qed.

Lemma codec_ok_record {A B} (P : A -> Prop) (Q : B -> Prop) enc dec
    (f : A -> B) (g : B -> A) (encB : B -> bytes) :
  codec_ok P enc dec ->
  (forall b, Q b <-> P (g b)) ->
  (forall b, f (g b) = b) ->
  (forall a, g (f a) = a) ->
  (forall b, encB b = enc (g b)) ->
  codec_ok Q encB (pmap f dec).
Proof.
  intros Hok HQ Hfg Hgf Henc.
  apply (codec_ok_ext Q Q (fun b => enc (g b))); [done|by intros b _|].
  apply (codec_ok_map P Q enc dec f g); [| |done].
  - intros a HP. split; [|done]. apply HQ. by rewrite Hgf.
  - intros b Hb. split; [by apply HQ|done].
Qed.

Lemma forallb_Forall_true {A} (f : A -> bool) (l : list A) :
  forallb f l = true <-> Forall (fun x => f x = true) l.
Proof.
  induction l as [|x l IH]; cbn [forallb].
  - split; [constructor|done].
  - rewrite andb_true_iff, IH, Forall_cons. done.
Qed.

(** ** The attributes that hold Python values *)

Lemma expect_marker (t : N) (rest : bytes) :
  t < 256 -> expect t (marker t :: rest) = Some (tt, rest).
Proof.
  intros H. cbn [expect]. rewrite N_of_marker by done.
  by rewrite N.eqb_refl.
Qed.

Lemma expect_inv (t : N) (bs rest : bytes) u :
  expect t bs = Some (u, rest) -> bs = marker t :: rest.
Proof.
  destruct bs as [|b bs]; [done|]. cbn [expect].
  destruct (N.eqb_spec (N_of_ascii b) t) as [E|]; [|done].
  intros [= _ <-]. by rewrite (marker_of_N b t E).
Qed.

Lemma codec_ok_int : codec_ok (fun v => is_int v = true) enc_pyval dec_int.
Proof.
  destruct codec_ok_Z as [Hc Hs]. split.
  - intros [] rest; try discriminate. intros _.
    cbn [enc_pyval app]. unfold dec_int, pbind.
    rewrite expect_marker by done. unfold pmap. by rewrite (Hc z rest I).
  - intros bs v rest. unfold dec_int, pbind, pmap.
    destruct (expect 2 bs) as [[[] r]|] eqn:E; [|done].
    destruct (dec_Z r) as [[z r']|] eqn:Ez; [|done].
    intros [= <- <-]. split; [done|].
    rewrite (expect_inv _ _ _ _ E). destruct (Hs _ _ _ Ez) as [_ ->]. done.
Qed.

Lemma codec_ok_text : codec_ok (fun v => is_text v = true) enc_pyval dec_text.
Proof.
  destruct codec_ok_string as [Hc Hs]. split.
  - intros [] rest; try discriminate; intros _;
      cbn [enc_pyval app dec_text]; rewrite N_of_marker by done;
      cbn; unfold pmap; by rewrite (Hc s rest I).
  - intros [|b bs] v rest; [done|]. cbn [dec_text]. unfold pmap.
    destruct (N.eqb_spec (N_of_ascii b) 3) as [E3|_].
    { destruct (dec_string bs) as [[s r]|] eqn:E; [|done].
      intros [= <- <-]. split; [done|]. destruct (Hs _ _ _ E) as [_ ->].
      by rewrite (marker_of_N b 3 E3). }
    destruct (N.eqb_spec (N_of_ascii b) 4) as [E4|_]; [|done].
    destruct (dec_string bs) as [[s r]|] eqn:E; [|done].
    intros [= <- <-]. split; [done|]. destruct (Hs _ _ _ E) as [_ ->].
    by rewrite (marker_of_N b 4 E4).
Qed.

Lemma enc_nat_2 : enc_nat 2 = [marker 2].
Proof. reflexivity. Qed.

Lemma codec_ok_variable :
  codec_ok (fun v => is_variable v = true) enc_pyval dec_variable.
Proof.
  destruct (codec_ok_pair _ _ _ _ _ _ codec_ok_text codec_ok_text)
    as [Hc Hs]. split.
  - intros v rest Hv.
    destruct v as [| | | | | |[|k [|x [|]]]| |]; try discriminate.
    cbn [is_variable] in Hv. apply andb_true_iff in Hv as [Hk Hx].
    cbn [enc_pyval length map concat]. rewrite enc_nat_2.
    cbn [app]. unfold dec_variable, pbind.
    rewrite expect_marker by done. rewrite expect_marker by done.
    unfold pmap. rewrite app_nil_r.
    specialize (Hc (k, x) rest (conj Hk Hx)). cbn [fst snd] in Hc.
    by rewrite Hc.
  - intros bs v rest. unfold dec_variable, pbind, pmap.
    destruct (expect 6 bs) as [[[] r1]|] eqn:E1; [|done].
    destruct (expect 2 r1) as [[[] r2]|] eqn:E2; [|done].
    destruct (ppair dec_text dec_text r2) as [[[k x] r3]|] eqn:E3; [|done].
    intros [= <- <-]. destruct (Hs _ _ _ E3) as [[Hk Hx] ->].
    cbn [fst snd] in *. split.
    + cbn [is_variable]. by rewrite Hk, Hx.
    + rewrite (expect_inv _ _ _ _ E1), (expect_inv _ _ _ _ E2).
      cbn [enc_pyval length map concat]. rewrite enc_nat_2.
      cbn [app]. by rewrite app_nil_r.
Qed.

Lemma codec_ok_environment :
  codec_ok (fun v => shape_environment v = true) enc_pyval dec_environment.
Proof.
  destruct (codec_ok_list _ _ _ codec_ok_variable) as [Hc Hs]. split.
  - intros v rest Hv. destruct v; try discriminate.
    + cbn [enc_pyval app dec_environment]. by rewrite N_of_marker.
    + cbn [shape_environment] in Hv. apply forallb_Forall_true in Hv.
      cbn [enc_pyval app dec_environment].
      rewrite N_of_marker by done. cbn. unfold pmap.
      specialize (Hc l rest Hv). unfold enc_list in Hc.
      rewrite <- app_assoc in Hc. by rewrite <- app_assoc, Hc.
  - intros [|b bs] v rest; [done|]. cbn [dec_environment].
    destruct (N.eqb_spec (N_of_ascii b) 0) as [E0|_].
    { intros [= <- <-]. split; [done|]. by rewrite (marker_of_N b 0 E0). }
    destruct (N.eqb_spec (N_of_ascii b) 8) as [E8|_]; [|done].
    unfold pmap.
    destruct (dec_list dec_variable bs) as [[l r]|] eqn:E; [|done].
    intros [= <- <-]. destruct (Hs _ _ _ E) as [Hall ->]. split.
    + cbn [shape_environment]. by apply forallb_Forall_true.
    + rewrite (marker_of_N b 8 E8). reflexivity.
Qed.

(** ** The model objects *)

Lemma codec_ok_image : codec_ok (fun _ => True) enc_image dec_image.
Proof.
  apply (codec_ok_record _ _ _ _ _
           (fun i => (repository i, tag i)) _
           (codec_ok_pair _ _ _ _ _ _ codec_ok_string codec_ok_string));
    try done; by intros [].
Qed.

Lemma codec_ok_path : codec_ok (fun _ => True) enc_path dec_path.
Proof.
  apply (codec_ok_record _ _ _ _ _ path _ codec_ok_string);
    try done; by intros [].
Qed.

Lemma codec_ok_volume : codec_ok (fun _ => True) enc_volume dec_volume.
Proof.
  apply (codec_ok_record _ _ _ _ _
           (fun v => (volume_name v, mountpoint v)) _
           (codec_ok_pair _ _ _ _ _ _ codec_ok_string
              (codec_ok_option _ _ _ codec_ok_path)));
    try done; try by intros [].
  intros [n [m|]]; done.
Qed.

Lemma codec_ok_port : codec_ok (fun p => shape_port p = true) enc_port dec_port.
Proof.
  apply (codec_ok_record _ _ _ _ _
           (fun p => (internal_port p, external_port p)) _
           (codec_ok_pair _ _ _ _ _ _ codec_ok_int codec_ok_int));
    try done; try by intros [].
  intros p. unfold shape_port. by rewrite andb_true_iff.
Qed.

Lemma codec_ok_link : codec_ok (fun l => shape_link l = true) enc_link dec_link.
Proof.
  apply (codec_ok_record _ _ _ _ _
           (fun l => (local_port l, (remote_port l, alias l))) _
           (codec_ok_pair _ _ _ _ _ _ codec_ok_int
              (codec_ok_pair _ _ _ _ _ _ codec_ok_int codec_ok_text)));
    try done; try by intros [].
  - intros l. unfold shape_link. rewrite !andb_true_iff. cbn [fst snd].
    tauto.
  - by intros [? []].
Qed.

Lemma codec_ok_application :
  codec_ok (fun a => shape_application a = true)
           enc_application dec_application.
Proof.
  apply (codec_ok_record _ _ _ _ _
           (fun a => (name a, (image a, (volume a, (ports a,
                       (links a, environment a)))))) _
           (codec_ok_pair _ _ _ _ _ _ codec_ok_string
           (codec_ok_pair _ _ _ _ _ _ codec_ok_image
           (codec_ok_pair _ _ _ _ _ _ (codec_ok_option _ _ _ codec_ok_volume)
           (codec_ok_pair _ _ _ _ _ _ (codec_ok_list _ _ _ codec_ok_port)
           (codec_ok_pair _ _ _ _ _ _ (codec_ok_list _ _ _ codec_ok_link)
              codec_ok_environment))))));
    try done; try by intros [].
  - intros a. unfold shape_application. cbn [fst snd].
    rewrite !andb_true_iff, !forallb_Forall_true.
    destruct (volume a); tauto.
  - by intros [? [? [? [? []]]]].
Qed.

Lemma codec_ok_node : codec_ok (fun n => shape_node n = true) enc_node dec_node.
Proof.
  apply (codec_ok_record _ _ _ _ _
           (fun n => (hostname n, applications n)) _
           (codec_ok_pair _ _ _ _ _ _ codec_ok_string
              (codec_ok_list _ _ _ codec_ok_application)));
    try done; try by intros [].
  intros n. unfold shape_node. cbn [fst snd].
  rewrite forallb_Forall_true. tauto.
Qed.

Lemma codec_ok_deployment :
  codec_ok (fun d => shape_deployment d = true) enc_deployment dec_deployment.
Proof.
  apply (codec_ok_record _ _ _ _ _ nodes _
           (codec_ok_list _ _ _ codec_ok_node));
    try done; try by intros [].
  intros d. unfold shape_deployment. by rewrite forallb_Forall_true.
Qed.

(** ** Whole payloads *)

Lemma whole_complete {A} (P : A -> Prop) enc dec (valid : A -> bool) x :
  codec_ok P enc dec -> P x -> valid x = true ->
  whole dec valid (enc x) = inr x.
Proof.
  intros [Hc _] HP Hv. unfold whole.
  rewrite <- (app_nil_r (enc x)), (Hc x [] HP). by rewrite Hv.
Qed.

Lemma whole_sound {A} (P : A -> Prop) enc dec (valid : A -> bool) bs x :
  codec_ok P enc dec ->
  whole dec valid bs = inr x ->
  P x /\ valid x = true /\ bs = enc x.
Proof.
  intros [_ Hs]. unfold whole.
  destruct (dec bs) as [[a [|]]|] eqn:E; try done.
  destruct (valid a) eqn:Hv; [|done]. intros [= <-].
  destruct (Hs _ _ _ E) as [HP ->]. by rewrite app_nil_r.
Qed.

Lemma whole_error {A} dec (valid : A -> bool) bs :
  whole dec valid bs = inl DeserializationError
  \/ exists x, whole dec valid bs = inr x.
Proof.
  unfold whole. destruct (dec bs) as [[a [|]]|]; try by left.
  destruct (valid a); [right; by eexists|by left].
Qed.

Lemma loads_dumps (n : Node) : valid_node n = true -> loads (dumps n) = inr n.
Proof.
  intros Hv. apply (whole_complete _ _ _ _ _ codec_ok_node); [|done].
  unfold valid_node in Hv. by apply andb_true_iff in Hv as [? _].
Qed.

Lemma loads_inv (bs : bytes) (n : Node) :
  loads bs = inr n -> valid_node n = true /\ dumps n = bs.
Proof.
  intros H. by destruct (whole_sound _ _ _ _ _ _ codec_ok_node H) as (_ & ? & ->).
Qed.

Lemma deserialize_serialize (d : Deployment) :
  valid_deployment d = true ->
  deserialize_deployment (serialize_deployment d) = inr d.
Proof.
  intros Hv. apply (whole_complete _ _ _ _ _ codec_ok_deployment); [|done].
  unfold valid_deployment in Hv. by apply andb_true_iff in Hv as [? _].
Qed.

Lemma deserialize_inv (bs : bytes) (d : Deployment) :
  deserialize_deployment bs = inr d ->
  valid_deployment d = true /\ serialize_deployment d = bs.
Proof.
  intros H.
  by destruct (whole_sound _ _ _ _ _ _ codec_ok_deployment H) as (_ & ? & ->).
Qed.

End CodecFacts.

(* ===================================================================== *)
(** * Facts about the protocol *)
(* ===================================================================== *)

Module ProtocolFacts.
Import Py Model Codec Protocol Properties.
Local Open Scope list_scope.

(** ** The control service's locator *)

(** C2: the [NodeStateCommand] responder hands the hostname and the node
    state to the aggregator's [update_node_state] and answers with an
    empty acknowledgment; the update stores the state under that
    hostname, a second update replaces the first, and the entry of every
    other hostname is as it was. *)
Theorem node_state_replaces_one_entry
    (hostname : string) (node_state : NodeState)
    (self : ControlServiceLocator) :
  node_changed hostname node_state self
  = ([], {| cluster_state :=
              update_node_state hostname node_state (cluster_state self) |})
  /\ node_states (cluster_state (snd (node_changed hostname node_state self)))
       !! hostname = Some node_state
  /\ (forall other,
        other <> hostname ->
        node_states
          (cluster_state (snd (node_changed hostname node_state self)))
          !! other
        = node_states (cluster_state self) !! other)
  /\ (forall s1 s2,
        let twice :=
          snd (node_changed hostname s2
                 (snd (node_changed hostname s1 self))) in
        node_states (cluster_state twice) !! hostname = Some s2
        /\ forall other,
             other <> hostname ->
             node_states (cluster_state twice) !! other
             = node_states (cluster_state self) !! other).
Proof.
  split; [reflexivity|]. cbn [node_changed snd cluster_state
                              update_node_state node_states].
  split; [apply lookup_insert_eq|].
  split; [intros other Hne; by apply lookup_insert_ne|].
  intros s1 s2. cbn zeta. split; [apply lookup_insert_eq|].
  intros other Hne. by rewrite !lookup_insert_ne.
Qed.

(** ** The agent's locator *)

Lemma reply_agent {A} `{IConvergenceAgent A} request answer
    (self : @AgentConnection A) :
  agent (reply request answer self) = agent self.
Proof. unfold reply. by destruct (box_get "_ask" request). Qed.

(** C6: the [ClusterStatusCommand] responder calls the agent's
    [cluster_updated] with the configuration and the state it received,
    as they are, and answers with an empty acknowledgment; the box
    receiver hands a received [ClusterStatusCommand] box to exactly that
    call. *)
Theorem cluster_status_is_forwarded {A} `{IConvergenceAgent A}
    (configuration state : Deployment) (an_agent : A) (log : list agent_call) :
  _AgentLocator_cluster_updated configuration state an_agent
  = ([], cluster_updated configuration state an_agent)
  /\ _AgentLocator_cluster_updated configuration state log
     = ([], log ++ [ClusterUpdated configuration state])
  /\ (forall (b : box) (self : @AgentConnection A),
        box_get "_command" b
        = Some (String.list_ascii_of_string "ClusterStatusCommand") ->
        ClusterStatusCommand_parseArguments b = inr (configuration, state) ->
        agent (ampBoxReceived b self)
        = cluster_updated configuration state (agent self)).
Proof.
  split; [reflexivity|]. split; [reflexivity|].
  intros b self Hcmd Hargs. unfold ampBoxReceived.
  rewrite Hcmd, Hargs. cbn. by rewrite reply_agent.
Qed.

(** ** A connection's life, as the agent sees it *)

Lemma updates_of_snoc l configuration state :
  updates_of l ++ [ClusterUpdated configuration state]
  = updates_of (l ++ [(configuration, state)]).
Proof. unfold updates_of. by rewrite map_app. Qed.

(** A received box is at most one delivery of [cluster_updated]. *)
Lemma ampBoxReceived_log (b : box)
    (self : @AgentConnection (list agent_call)) :
  agent (ampBoxReceived b self) = agent self
  \/ exists configuration state,
       agent (ampBoxReceived b self)
       = agent self ++ [ClusterUpdated configuration state].
Proof.
  unfold ampBoxReceived. destruct (box_get "_command" b); [|by left].
  destruct (String.eqb _ _); [|left; apply reply_agent].
  destruct (ClusterStatusCommand_parseArguments b) as [e|[configuration state]].
  - left. apply reply_agent.
  - right. exists configuration, state. cbn. by rewrite reply_agent.
Qed.

Lemma step_lifecycle p (c : @AgentConnection (list agent_call)) ev p' c' :
  step (p, c) ev (p', c') -> lifecycle p (agent c) -> lifecycle p' (agent c').
Proof.
  inversion 1; subst; cbn [lifecycle].
  - intros Hlog. exists (agent_client box_sender), []. cbn. by rewrite Hlog.
  - intros (client & updates & Hlog).
    destruct (ampBoxReceived_log b c) as [->|(cfg & st & ->)].
    + by exists client, updates.
    + exists client, (updates ++ [(cfg, st)]).
      by rewrite Hlog, <- updates_of_snoc.
  - intros (client & updates & Hlog). exists client, updates.
    cbn. by rewrite Hlog.
Qed.

Lemma run_lifecycle
    (s : phase * @AgentConnection (list agent_call)) evs s' :
  run s evs s' ->
  lifecycle (fst s) (agent (snd s)) -> lifecycle (fst s') (agent (snd s')).
Proof.
  induction 1 as [|s evs [p' c'] ev [p'' c''] _ IH Hstep]; [done|].
  intros Hs. eapply step_lifecycle; [exact Hstep|]. by apply IH.
Qed.

(** C3: on one connection, from the moment the client is built, the
    agent's [connected] comes first and once, every [cluster_updated]
    comes after it, and when the connection is closed [disconnected] has
    come once and last: no delivery follows it. *)
Theorem connection_lifecycle (evs : list transport_event) (p : phase)
    (c : @AgentConnection (list agent_call)) :
  run (Idle, build_agent_client []) evs (p, c) ->
  lifecycle p (agent c)
  /\ (p = Closed ->
      forall ev s, ~ step (p, c) ev s).
Proof.
  intros Hrun. split.
  - by apply (run_lifecycle _ _ _ Hrun).
  - intros -> ev s Hstep. inversion Hstep.
Qed.

(** ** The arguments on the wire *)

(** C1: for a valid node state and for a valid deployment, reading back
    what [toString] wrote gives the same object. *)
Theorem round_trip :
  (forall node_state : NodeState,
     valid_node node_state = true ->
     @fromString _ NodeStateArgument (@toString _ NodeStateArgument node_state)
     = inr node_state)
  /\ (forall deployment : Deployment,
        valid_deployment deployment = true ->
        @fromString _ DeploymentArgument
          (@toString _ DeploymentArgument deployment)
        = inr deployment).
Proof.
  split.
  - intros node_state Hv. by apply CodecFacts.loads_dumps.
  - intros deployment Hv. by apply CodecFacts.deserialize_serialize.
Qed.

(** The arguments of a command come out of its box as they went in. *)
Lemma cluster_status_arguments (configuration state : Deployment) (b : box) :
  valid_deployment configuration = true ->
  valid_deployment state = true ->
  ClusterStatusCommand_parseArguments
    (ClusterStatusCommand_makeArguments configuration state)
  = inr (configuration, state).
Proof.
  intros Hc Hs.
  unfold ClusterStatusCommand_parseArguments,
    ClusterStatusCommand_makeArguments, parseArgument.
  cbn [box_get String.eqb Ascii.eqb Bool.eqb fromString toString
         DeploymentArgument].
  by rewrite !CodecFacts.deserialize_serialize.
Qed.

Lemma node_state_arguments (hostname : string) (node_state : NodeState) :
  valid_node node_state = true ->
  NodeStateCommand_parseArguments
    (NodeStateCommand_makeArguments hostname node_state)
  = inr (hostname, node_state).
Proof.
  intros Hv.
  unfold NodeStateCommand_parseArguments, NodeStateCommand_makeArguments,
    parseArgument.
  cbn [box_get String.eqb Ascii.eqb Bool.eqb fromString toString
         NodeStateArgument String_].
  rewrite CodecFacts.loads_dumps by done.
  by rewrite String.string_of_list_ascii_of_string.
Qed.

(** ** The claims on concrete inputs *)

Import Scenarios WireScenarios.

Lemma round_trip_witness :
  @fromString _ NodeStateArgument (@toString _ NodeStateArgument host1_state)
  = inr host1_state
  /\ @fromString _ DeploymentArgument (@toString _ DeploymentArgument desired)
     = inr desired.
Proof.
  destruct round_trip as [Hn Hd].
  split; [by apply Hn|by apply Hd].
Defined.

Example desired_on_the_wire :
  @fromString _ DeploymentArgument (@toString _ DeploymentArgument desired)
  = inr desired.
Proof. vm_compute. reflexivity. Qed.

(** Scenario 2 of the spec. *)
Example scenario_2 :
  sent (cluster_state (snd (node_changed "host1" host1_state one_agent)))
  = [(7%nat, (desired, {| nodes := [host1_state] |}))].
Proof. vm_compute. reflexivity. Qed.

Lemma cluster_status_is_forwarded_witness :
  agent (ampBoxReceived status_box (build_agent_client []))
  = [ClusterUpdated desired observed].
Proof.
  destruct (cluster_status_is_forwarded desired observed
              ([] : list agent_call) []) as (_ & _ & H).
  apply (H status_box (build_agent_client [])); [reflexivity|].
  by vm_compute.
Defined.

Lemma connection_lifecycle_witness :
  lifecycle Closed (agent after_one_connection)
  /\ agent after_one_connection
     = [Connected (agent_client 7); ClusterUpdated desired observed;
        Disconnected].
Proof.
  split; [|by vm_compute].
  refine (proj1 (connection_lifecycle one_connection Closed
                   after_one_connection _)).
  apply (run_snoc _ [ConnectionMade 7; BoxReceived status_box]
           (ReceivingBoxes,
            ampBoxReceived status_box
              (startReceivingBoxes 7 (build_agent_client [])))).
  - apply (run_snoc _ [ConnectionMade 7]
             (ReceivingBoxes, startReceivingBoxes 7 (build_agent_client []))).
    + apply (run_snoc _ [] (Idle, build_agent_client [])).
      * apply run_nil.
      * apply step_made.
    + apply step_box.
  - apply step_lost.
Defined.

End ProtocolFacts.

(* ===================================================================== *)
(** * More facts about the configuration parser *)
(* ===================================================================== *)

Module ParserFacts.
Import Py Model Config Properties ConfigFacts.
Local Open Scope py_scope.

(** ** Which format a configuration is in *)

Lemma existsb_keys (k : string) (c : dict) :
  existsb (String.eqb k) (keys c) = dict_has k c.
Proof.
  unfold keys, dict_has. induction c as [|[k' v] c IH]; [done|].
  cbn [map existsb fst]. by rewrite IH.
Qed.

Lemma count_fig_identifier_keys (c : dict) :
  _count_fig_identifier_keys (PDict c)
  = ret ((if dict_has "image" c then 1 else 0)
         + (if dict_has "build" c then 1 else 0))%nat.
Proof.
  unfold _count_fig_identifier_keys. cbn [keys_of rbind ret List.filter].
  rewrite !existsb_keys.
  by destruct (dict_has "image" c), (dict_has "build" c).
Qed.

Lemma is_fig_loop_decides (fig : bool) (d : dict) :
  is_fig_loop fig d
  = match List.find (fun kv => has_both (snd kv)) d with
    | Some kv =>
        raise (config_error (fst kv)
                 "Must specify either 'build' or 'image'; found both.")
    | None => ret (fig || existsb (fun kv => has_one (snd kv)) d)
    end.
Proof.
  revert fig. induction d as [|[k v] d IH]; intros fig.
  - cbn. by rewrite orb_false_r.
  - cbn [is_fig_loop List.find existsb snd fst].
    destruct v; cbn [isinstance type_of existsb subclass pytype_eqb orb
                       has_both has_one];
      try destruct (is_long z);
      cbn [isinstance type_of existsb subclass pytype_eqb orb];
      try (rewrite IH; by destruct (List.find _ d)).
    rewrite count_fig_identifier_keys. cbn [rbind ret].
    destruct (dict_has "image" d0), (dict_has "build" d0);
      cbn [Nat.add Nat.eqb Nat.ltb Nat.leb andb xorb orb]; try done;
      rewrite IH; destruct (List.find _ d); try done;
      by rewrite ?orb_true_r.
Qed.

(** X1: [_is_fig_configuration] rejects what is not a dictionary; of a
    dictionary it reports the first application that has both 'image'
    and 'build', and otherwise answers whether some application has
    exactly one of the two. *)
Theorem is_fig_configuration_decides (d : dict) :
  _is_fig_configuration (PDict d)
  = match List.find (fun kv => has_both (snd kv)) d with
    | Some kv =>
        raise (config_error (fst kv)
                 "Must specify either 'build' or 'image'; found both.")
    | None => ret (existsb (fun kv => has_one (snd kv)) d)
    end
  /\ (forall v,
        isinstance v [TDict] = false ->
        _is_fig_configuration v
        = raise (ConfigurationError
                   ("Application configuration must be a dictionary, got "
                      +:+ type_name (type_of v) +:+ "."))).
Proof.
  split.
  - unfold _is_fig_configuration. cbn [isinstance type_of existsb subclass
      pytype_eqb orb negb items rbind ret].
    apply is_fig_loop_decides.
  - intros v Hv. unfold _is_fig_configuration. by rewrite Hv.
Qed.

Lemma dict_get_elem (k : string) (d : dict) (v : pyval) :
  dict_get k d = Some v -> (k, v) ∈ d.
Proof.
  induction d as [|[k' v'] d IH]; cbn [dict_get]; [done|].
  destruct (String.eqb_spec k k') as [->|_].
  - intros [= ->]. apply list_elem_of_here.
  - intros H. apply list_elem_of_further. by apply IH.
Qed.

(** A loop over the items that returns has had its body return at every
    item. *)
Lemma for_items_returns {A} (body : string -> M pyval A) (d d' : dict) r :
  for_items body d = (ret r, d') ->
  forall k v, (k, v) ∈ d -> exists a v', body k v = (ret a, v').
Proof.
  revert r d'. induction d as [|[k0 v0] d IH]; intros r d' H k v Hin.
  - by apply elem_of_nil in Hin.
  - cbn [for_items] in H.
    destruct (body k0 v0) as [[e|a] v0'] eqn:Hb; [discriminate|].
    destruct (for_items body d) as [[e|rest] d''] eqn:Hr; [discriminate|].
    apply elem_of_cons in Hin as [[= -> ->]|Hin]; [eauto|].
    by eapply IH.
Qed.

Section Format.

Context `{cwd : WorkingDirectory}.

Variable _lenient : bool.
Variable from_string : pyval -> result DockerImage.

Lemma fig_application_of_no_dictionary names application_name config :
  isinstance config [TDict] = false ->
  fig_application from_string names application_name config
  = (raise (config_error application_name
              ("Application configuration must be dictionary; got type '"
                 +:+ type_name (type_of config) +:+ "'.")),
     config).
Proof.
  intros H. unfold fig_application, mexcept_ValueError, fig_application_try,
    bind, get, lift, _check_type.
  by rewrite H.
Qed.

(** X2: a configuration in the flocker format, with its 'version' and
    its 'applications', in which one application is called "image" (and
    none "build") is taken for a fig configuration, and no applications
    come out of it: fig's parser does not get past 'version', which is
    no dictionary. *)
Theorem application_named_image_is_taken_for_fig
    (c apps : dict) (version : pyval) :
  dict_get "version" c = Some version ->
  isinstance version [TDict] = false ->
  dict_get "applications" c = Some (PDict apps) ->
  dict_has "image" apps = true ->
  dict_has "build" apps = false ->
  (List.find (fun kv => has_both (snd kv)) c = None ->
   _is_fig_configuration (PDict c) = ret true)
  /\ (forall applications after,
        _applications_from_configuration _lenient from_string (PDict c)
        <> (ret applications, after)).
Proof.
  intros Hv Hnd Ha Hi Hb.
  assert (existsb (fun kv => has_one (snd kv)) c = true) as Hone.
  { apply existsb_exists. exists ("applications", PDict apps).
    split; [apply list_elem_of_In; by apply dict_get_elem|].
    cbn [snd has_one]. by rewrite Hi, Hb. }
  pose proof (is_fig_loop_decides false c) as Hfig.
  rewrite Hone in Hfig. cbn [orb] in Hfig.
  assert (_is_fig_configuration (PDict c) = is_fig_loop false c) as Heq
    by done.
  split.
  - intros Hnone. rewrite Heq, Hfig. by rewrite Hnone.
  - intros applications after.
    unfold _applications_from_configuration, bind at 1, get, lift at 1.
    rewrite Heq, Hfig.
    destruct (List.find _ c) as [kv|]; [done|].
    unfold _applications_from_fig_configuration, bind, get, lift.
    cbn [keys_of items ret].
    destruct (for_items _ c) as [[e|parsed] c'] eqn:Hloop; [done|].
    exfalso.
    destruct (for_items_returns _ _ _ _ Hloop "version" version
                (dict_get_elem _ _ _ Hv)) as (a & v' & Hbody).
    by rewrite fig_application_of_no_dictionary in Hbody.
Qed.

End Format.

(** ** The keys of an application in the flocker format *)

Ltac transforms_step :=
  first
    [ apply transforms_bind
    | apply transforms_except_KeyError
    | apply transforms_except_ValueError
    | apply transforms_if
    | apply transforms_mret
    | apply transforms_mraise
    | apply transforms_lift
    | apply transforms_get
    | apply transforms_pop ];
  try typeclasses eauto;
  try match goal with
      | |- forall _, transforms _ _ => intros ?
      end.

Lemma dict_has_del_ne (k k' : string) (d : dict) :
  k <> k' -> dict_has k (dict_del k' d) = dict_has k d.
Proof.
  intros Hne. unfold dict_del, dict_has.
  induction d as [|[k0 v0] d IH]; [done|].
  rewrite @filter_cons. cbn [fst existsb]. case_decide as Hd.
  - cbn [existsb fst]. f_equal. exact IH.
  - subst k0. etransitivity; [exact IH|].
    by destruct (String.eqb_spec k k').
Qed.

Lemma dict_has_none (k : string) (d : dict) :
  dict_has k d = false -> dict_get k d = None.
Proof.
  intros H. destruct (dict_get k d) eqn:E; [|done].
  apply dict_get_has in E. congruence.
Qed.

#[local] Instance consumes_preorder K : PreOrder (consumes K).
Proof.
  split.
  - intros d k Hk. by left.
  - intros d1 d2 d3 H12 H23 k Hk.
    destruct (H12 k Hk) as [H|H]; [|by right]. exact (H23 k H).
Qed.

Lemma consumes_del K key d : key ∈ K -> consumes K d (dict_del key d).
Proof.
  intros HK k Hk. destruct (decide (k = key)) as [->|Hne]; [by right|].
  left. by rewrite dict_has_del_ne.
Qed.

Ltac consumes :=
  repeat transforms_step;
  try (intros; apply consumes_del; apply list_elem_of_In; simpl; tauto).

Section Keys.

Context `{cwd : WorkingDirectory}.

Variable _lenient : bool.
Variable from_string : pyval -> result DockerImage.

Lemma flocker_application_takes_its_keys application_name :
  transforms (consumes application_keys)
    (flocker_application _lenient from_string application_name).
Proof.
  unfold flocker_application, parse_volume, _parse_environment_config.
  consumes.
Qed.

Lemma flocker_application_name application_name d application s' :
  flocker_application _lenient from_string application_name (PDict d)
  = (ret application, s') ->
  name application = application_name.
Proof.
  intros H. unfold flocker_application in H.
  do 8 (apply (bind_ret_transforms (consumes application_keys)) in H
          as (? & ? & _ & _ & H);
        [|solve [unfold parse_volume; consumes]]).
  apply (bind_ret_transforms (consumes application_keys)) in H
    as (environment & ? & _ & _ & H);
    [|solve [unfold _parse_environment_config; consumes]].
  apply (bind_ret_transforms (consumes application_keys)) in H
    as (ports & d' & _ & _ & H); [|solve [consumes]].
  unfold bind, get in H. destruct (truthy (PDict d')).
  - unfold bind, lift in H. discriminate.
  - unfold mret in H. by injection H as <- _.
Qed.

(** X3: an application that the flocker format's parser accepts has an
    'image' and no key other than 'image', 'ports', 'links', 'volume' and
    'environment'; the application it returns carries the name it was
    listed under. *)
Theorem accepted_application_has_known_keys
    application_name (d : dict) application after :
  flocker_application _lenient from_string application_name (PDict d)
  = (ret application, after) ->
  dict_has "image" d = true
  /\ (forall k, dict_has k d = true -> k ∈ application_keys)
  /\ name application = application_name.
Proof.
  intros H. split; [|split].
  - destruct (dict_has "image" d) eqn:E; [done|].
    apply dict_has_none in E.
    unfold flocker_application, bind at 1, mexcept_KeyError, pop in H.
    by rewrite E in H.
  - intros k Hk.
    destruct (flocker_application_takes_its_keys application_name d)
      as (d' & Hd' & Hc).
    rewrite H in Hd'. cbn [snd] in Hd'.
    rewrite (flocker_application_empties _ _ _ _ _ _ H) in Hd'.
    injection Hd' as <-. by destruct (Hc k Hk).
  - by eapply flocker_application_name.
Qed.

End Keys.

(** ** The environment *)

Lemma environment_loop application_name (e : dict) :
  for_ e (fun kv =>
    let? _ := _check_type (PStr (fst kv)) StringTypes
                "Environment variable name must be a string"
                application_name in
    _check_type (snd kv) StringTypes
      ("Environment variable '" +:+ fst kv +:+ "' must be a string")
      application_name)
  = match first_bad_variable e with
    | Some kv =>
        raise (config_error application_name
                 (("Environment variable '" +:+ fst kv
                     +:+ "' must be a string")
                    +:+ "; got type '" +:+ type_name (type_of (snd kv))
                    +:+ "'."))
    | None => ret tt
    end.
Proof.
  unfold first_bad_variable.
  induction e as [|[k v] e IH]; [done|].
  cbn [for_ List.find fst snd].
  change (_check_type (PStr k) StringTypes
            "Environment variable name must be a string" application_name)
    with (@ret unit tt).
  cbn [rbind ret]. unfold _check_type at 1.
  destruct (isinstance v StringTypes); cbn [negb rbind ret]; [exact IH|done].
Qed.

(** X4: of an 'environment' that is a dictionary with at least one
    variable, the names of the variables being strings,
    [_parse_environment_config] returns the frozenset of the
    items when every value is a string, and otherwise rejects the
    first variable whose value is not, naming it; either way the key is
    gone from the application's configuration. *)
Theorem environment_of_strings application_name (d e : dict) :
  dict_get "environment" d = Some (PDict e) ->
  e <> [] ->
  _parse_environment_config application_name (PDict d)
  = (match first_bad_variable e with
     | Some kv =>
         raise (config_error application_name
                  (("Environment variable '" +:+ fst kv
                      +:+ "' must be a string")
                     +:+ "; got type '" +:+ type_name (type_of (snd kv))
                     +:+ "'."))
     | None => ret (frozenset_items e)
     end,
     PDict (dict_del "environment" d)).
Proof.
  intros Hget He. unfold _parse_environment_config, bind, pop.
  rewrite Hget. cbn [ret].
  destruct e as [|kv e]; [done|]. cbn [truthy].
  unfold lift at 1. cbn [_check_type isinstance type_of existsb subclass
    pytype_eqb orb ret]. unfold lift at 1. cbn [items ret]. unfold lift.
  rewrite environment_loop. by destruct (first_bad_variable (kv :: e)).
Qed.

(** X5: whatever the application's dictionary holds,
    [_parse_environment_config] returns or raises a
    [ConfigurationError]; no other exception leaves it. *)
Theorem environment_errors_are_configuration_errors
    application_name (d : dict) :
  returns_or_rejects (fst (_parse_environment_config application_name
                             (PDict d))).
Proof.
  unfold _parse_environment_config, bind, pop.
  destruct (dict_get "environment" d) as [environment|]; cbn [ret truthy];
    [|exact I].
  destruct (truthy environment); [|exact I].
  unfold lift at 1. unfold _check_type at 1.
  destruct environment; try exact I;
    try (unfold isinstance, type_of; destruct (is_long z); exact I).
  cbn [isinstance type_of existsb subclass pytype_eqb orb ret].
  unfold lift at 1. cbn [items ret]. unfold lift. rewrite environment_loop.
  by destruct (first_bad_variable _).
Qed.

(** ** Links in the flocker format *)

Lemma isinstance_int (v : pyval) :
  isinstance v [TInt] = true ->
  (exists z, v = PInt z /\ is_long z = false) \/ (exists b, v = PBool b).
Proof.
  destruct v; try discriminate; [right; by eexists|].
  unfold isinstance, type_of. destruct (is_long z) eqn:E; [discriminate|].
  left. by eexists.
Qed.

Lemma isinstance_string (v : pyval) :
  isinstance v StringTypes = true -> exists s, v = PStr s \/ v = PUnicode s.
Proof.
  destruct v; try discriminate; try (eexists; by eauto).
  unfold isinstance, type_of. by destruct (is_long z).
Qed.

Lemma parse_link_reads_back application_name (link : Link) :
  valid_link link = true ->
  parse_link application_name (link_config link) = (ret link, PDict []).
Proof.
  destruct link as [lp rp al]. unfold valid_link.
  cbn [local_port remote_port alias].
  intros [[Hl Hr]%andb_true_iff Ha]%andb_true_iff.
  apply isinstance_string in Ha as [s Ha].
  apply isinstance_int in Hl as [(z & -> & Hz)|[b ->]];
    apply isinstance_int in Hr as [(z' & -> & Hz')|[b' ->]];
    destruct Ha as [->| ->];
    lazy -[is_long]; rewrite ?Hz; lazy -[is_long]; rewrite ?Hz';
    reflexivity.
Qed.

Lemma valid_link_hashable (link : Link) :
  valid_link link = true -> py_hashable link = true.
Proof.
  destruct link as [lp rp al]. unfold valid_link.
  cbn [local_port remote_port alias py_hashable Link_value].
  intros [[Hl Hr]%andb_true_iff Ha]%andb_true_iff.
  apply isinstance_string in Ha as [s [->| ->]];
    apply isinstance_int in Hl as [(z & -> & Hz)|[b ->]];
    apply isinstance_int in Hr as [(z' & -> & Hz')|[b' ->]];
    reflexivity.
Qed.

Lemma valid_links_hashable (links : list Link) :
  forallb valid_link links = true -> forallb py_hashable links = true.
Proof.
  induction links as [|link links IH]; [done|].
  cbn [forallb]. intros [Hl Hrest]%andb_true_iff.
  by rewrite (valid_link_hashable _ Hl), IH.
Qed.

Lemma parse_links_read_back application_name (links : list Link) :
  forallb valid_link links = true ->
  for_each (parse_link application_name) (map link_config links)
  = (ret links, map (fun _ => PDict []) links).
Proof.
  induction links as [|link links IH]; [done|].
  cbn [forallb map for_each]. intros [Hl Hrest]%andb_true_iff.
  rewrite (parse_link_reads_back _ _ Hl), (IH Hrest). reflexivity.
Qed.

Lemma parse_link_configuration_reads_back application_name links :
  forallb valid_link links = true ->
  _parse_link_configuration application_name (PList (map link_config links))
  = (ret (distinct links), PList (map (fun _ => PDict []) links)).
Proof.
  intros Hv. unfold _parse_link_configuration, bind, get, lift,
    mexcept_ValueError, for_each_in, mret.
  cbn [_check_type isinstance type_of existsb subclass pytype_eqb orb ret].
  rewrite (parse_links_read_back _ _ Hv). cbn [ret].
  by rewrite (frozenset_hashable _ (valid_links_hashable _ Hv)).
Qed.

(** X6: the dictionaries that [configuration_to_yaml] writes for the
    links of an application are read back by
    [_parse_link_configuration] as the set of those links, equal links
    counted once, when their ports are [int]s (booleans included, longs
    not) and their aliases strings; the parser leaves each of the
    dictionaries empty. *)
Theorem links_are_read_back application_name (links : list Link) :
  forallb valid_link links = true ->
  _parse_link_configuration application_name (PList (map link_config links))
  = (ret (distinct links), PList (map (fun _ => PDict []) links)).
Proof. apply parse_link_configuration_reads_back. Qed.

Lemma parse_link_complains application_name (link : pyval) :
  returns_link_or_complains (fst (parse_link application_name link)).
Proof.
  unfold parse_link, bind, get, lift, mexcept_KeyError, mraise, mret.
  unfold _check_type at 1.
  destruct link; try exact I;
    try (unfold isinstance, type_of; destruct (is_long z); exact I).
  cbn [isinstance type_of existsb subclass pytype_eqb orb ret pop].
  repeat first
    [ exact I
    | match goal with
      | |- context [dict_get ?k ?x] => destruct (dict_get k x)
      | |- context [_check_type ?v ?t ?a ?b] =>
          unfold _check_type at 1; destruct (isinstance v t) eqn:?
      | |- context [truthy ?x] => destruct (truthy x)
      end
    | progress cbn [ret raise fst snd keys_of pop] ].
  unfold returns_link_or_complains, valid_link.
  cbn [fst local_port remote_port alias].
  repeat match goal with
         | E : isinstance _ _ = true |- _ => rewrite E; clear E
         end.
  reflexivity.
Qed.

Lemma parse_links_complain application_name (links : list pyval) :
  match fst (for_each (parse_link application_name) links) with
  | inr parsed => forallb valid_link parsed = true
  | inl (ConfigurationError _) | inl (ValueError _) => True
  | inl _ => False
  end.
Proof.
  induction links as [|link links IH]; [done|].
  cbn [for_each]. pose proof (parse_link_complains application_name link) as Hl.
  destruct (parse_link application_name link) as [[e|a] s]; [exact Hl|].
  destruct (for_each _ links) as [[e|r] l']; [exact IH|].
  cbn [fst rbind ret forallb] in *. by rewrite Hl, IH.
Qed.

(** X7: whatever the 'links' stanza holds, dictionaries having strings
    for keys, [_parse_link_configuration] returns or raises a
    [ConfigurationError]: what is not a list, a link that is no
    dictionary, a missing or ill-typed key and a key too many are all
    reported as such, and the links that pass can be hashed. *)
Theorem link_errors_are_configuration_errors application_name config :
  returns_or_rejects
    (fst (_parse_link_configuration application_name config)).
Proof.
  unfold _parse_link_configuration, bind, get, lift at 1.
  unfold _check_type at 1.
  destruct config; try exact I;
    try (unfold isinstance, type_of; destruct (is_long z); exact I).
  cbn [isinstance type_of existsb subclass pytype_eqb orb ret].
  unfold mexcept_ValueError, for_each_in.
  pose proof (parse_links_complain application_name l) as Hl.
  destruct (for_each _ l) as [[e|links] l']; cbn [fst] in Hl.
  - by destruct e.
  - unfold lift.
    by rewrite (frozenset_hashable _ (valid_links_hashable _ Hl)).
Qed.

(** ** Ports in the flocker format *)

Section Ports.

Context `{cwd : WorkingDirectory}.

Variable _lenient : bool.
Variable from_string : pyval -> result DockerImage.

(** [flocker_application] up to the loop over the ports. *)
Lemma flocker_application_ports application_name d image_name image
    ports_config e :
  dict_get "image" d = Some image_name ->
  from_string image_name = ret image ->
  dict_get "ports" d = Some ports_config ->
  fst (for_each_in parse_port ports_config) = raise e ->
  (forall message, e <> ValueError message) ->
  flocker_application _lenient from_string application_name (PDict d)
  = (raise e, PDict (dict_del "ports" (dict_del "image" d))).
Proof.
  intros Himage Hfrom Hports Hloop He.
  unfold flocker_application, bind at 1, mexcept_KeyError, pop.
  rewrite Himage. cbn [ret]. unfold bind at 1, lift at 1. rewrite Hfrom.
  cbn [except_ValueError ret]. unfold bind at 1, mexcept_ValueError.
  unfold bind at 1. rewrite dict_get_del_ne by done. rewrite Hports.
  cbn [ret]. unfold lift at 1. rewrite Hloop. cbn [raise].
  destruct e; try done. by destruct (He msg).
Qed.

Lemma parse_port_of_no_dictionary (port : pyval) :
  isinstance port [TDict; TList] = false ->
  parse_port port = (raise AttributeError, port).
Proof. by destruct port. Qed.

(** X8: the parser of the flocker format lets the exceptions of a
    malformed 'ports' stanza escape: a stanza that cannot be iterated
    over ([None], a boolean, an integer) raises [TypeError], and a list
    whose first port is neither a dictionary nor a list raises
    [AttributeError].  Neither is a [ConfigurationError]; 'image' and
    'ports' are gone from the application's dictionary. *)
Theorem ports_that_are_no_dictionaries_escape
    application_name (d : dict) image_name image ports_config :
  dict_get "image" d = Some image_name ->
  from_string image_name = ret image ->
  dict_get "ports" d = Some ports_config ->
  (iter ports_config = raise TypeError ->
   flocker_application _lenient from_string application_name (PDict d)
   = (raise TypeError, PDict (dict_del "ports" (dict_del "image" d))))
  /\ (forall port rest,
        ports_config = PList (port :: rest) ->
        isinstance port [TDict; TList] = false ->
        flocker_application _lenient from_string application_name (PDict d)
        = (raise AttributeError,
           PDict (dict_del "ports" (dict_del "image" d)))).
Proof.
  intros Himage Hfrom Hports. split.
  - intros Hiter.
    apply (flocker_application_ports _ _ _ _ _ _ Himage Hfrom Hports);
      [|done].
    destruct ports_config; try discriminate; reflexivity.
  - intros port rest -> Hport.
    apply (flocker_application_ports _ _ _ _ _ _ Himage Hfrom Hports);
      [|done].
    cbn [for_each_in for_each]. by rewrite parse_port_of_no_dictionary.
Qed.

End Ports.

(** ** Volumes in the flocker format *)

Section Volume.

Context `{cwd : WorkingDirectory}.

(** X9: a volume whose 'mountpoint' is [None] is accepted by the lenient
    parser, as a volume without a mountpoint and without a look at the
    other keys of the stanza; the strict parser rejects it, saying that
    the mountpoint contains non-ASCII.  Both take the 'volume' key out
    of the application's dictionary. *)
Theorem volume_without_mountpoint application_name (d v : dict) :
  dict_get "volume" d = Some (PDict v) ->
  dict_get "mountpoint" v = Some PNone ->
  parse_volume true application_name (PDict d)
  = (ret {| volume_name := application_name; mountpoint := None |},
     PDict (dict_del "volume" d))
  /\ parse_volume false application_name (PDict d)
     = (raise (ValueError
                 "Mountpoint None contains non-ASCII (unsupported)."),
        PDict (dict_del "volume" d)).
Proof.
  intros Hv Hm. unfold parse_volume, bind, pop, lift. rewrite Hv.
  cbn [ret getitem]. rewrite Hm. by split.
Qed.

End Volume.

(** ** The deployment configuration, when every name is known *)

(** X10: a deployment configuration with version 1 in which every node
    lists names that the applications map has, of applications that can
    be hashed, gives the set of the nodes made of the entries of
    'nodes': one for each entry, in their order and under their host
    names, each with the set of the applications found under its
    names. *)
Theorem known_applications_are_deployed
    (deployment_configuration version : pyval) (pairs : dict)
    (all_applications : applications_map) :
  getitem deployment_configuration "version" = ret version ->
  ne_int version 1 = false ->
  getitem deployment_configuration "nodes" = ret (PDict pairs) ->
  all_known all_applications pairs ->
  exists nodes,
    _deployment_from_configuration deployment_configuration all_applications
    = ret (distinct nodes)
    /\ Forall2 (is_node_of all_applications) pairs nodes.
Proof.
  intros Hv Hone Hn Hknown.
  destruct (known_nodes_are_built all_applications pairs Hknown)
    as (nodes & Hnodes & Hall & Hhash).
  exists nodes. split; [|done].
  unfold _deployment_from_configuration.
  rewrite (getitem_contains _ _ _ Hn), (getitem_contains _ _ _ Hv).
  cbn [rbind ret negb]. rewrite Hv. cbn [rbind ret]. rewrite Hone, Hn.
  cbn [rbind ret items]. rewrite Hnodes. cbn [rbind ret].
  by apply frozenset_hashable.
Qed.

(** ** The fig format: volumes *)

Lemma volumes_are_strings application_name (volumes : list pyval) :
  forallb (fun v => isinstance v [TStr; TUnicode]) volumes = true ->
  for_ volumes (fun volume =>
    if negb (isinstance volume [TStr; TUnicode]) then
      raise (config_error application_name
               ("'volumes' values must be string; got type '"
                  +:+ type_name (type_of volume) +:+ "'."))
    else ret tt)
  = ret tt.
Proof.
  induction volumes as [|v volumes IH]; [done|].
  cbn [forallb for_]. intros [Hv Hrest]%andb_true_iff.
  rewrite Hv. cbn [negb rbind ret]. by apply IH.
Qed.

Section FigVolume.

Context `{cwd : WorkingDirectory}.

(** X11: of a 'volumes' list of strings, fig's parser accepts exactly
    one volume, which it takes out of the caller's list and whose
    mountpoint is the [FilePath] of the string, that is its absolute,
    normalised path; two or more are rejected with a
    [ConfigurationError], and an empty list raises [IndexError]. *)
Theorem fig_volume_takes_the_only_volume
    application_name (d : dict) (volumes : list pyval) :
  dict_get "volumes" d = Some (PList volumes) ->
  forallb (fun v => isinstance v [TStr; TUnicode]) volumes = true ->
  fig_volume application_name (PDict d)
  = match volumes with
    | [] => (raise IndexError, PDict d)
    | [v] =>
        (ret {| volume_name := application_name;
                mountpoint := Some {| path := abspath (str v) |} |},
         PDict (dict_set "volumes" (PList []) d))
    | _ =>
        (raise (config_error application_name
                  "Only one volume per application is supported at this time."),
         PDict d)
    end.
Proof.
  intros Hget Hall. unfold fig_volume, bind, get, lift at 1.
  cbn [getitem]. rewrite Hget. cbn [ret]. unfold lift at 1.
  cbn [_check_type isinstance type_of existsb subclass pytype_eqb orb ret].
  unfold lift at 1. cbn [iter ret]. unfold lift at 1.
  rewrite (volumes_are_strings _ _ Hall). cbn [ret].
  destruct volumes as [|v [|v' volumes]]; reflexivity.
Qed.

End FigVolume.

(** ** The fig format: "target:alias" and "host:container" *)

Lemma mentions_colon (c : ascii) (s : string) :
  mentions ":" (String c s) = false ->
  Ascii.eqb c ":" = false /\ mentions ":" s = false.
Proof.
  cbn [mentions String.prefix].
  destruct (ascii_dec ":" c) as [<-|Hne].
  - by destruct s.
  - cbn [orb]. intros H. split; [|done].
    apply Ascii.eqb_neq. congruence.
Qed.

Lemma split_without_colon (s : string) :
  mentions ":" s = false -> split ":" s = [s].
Proof.
  induction s as [|c s IH]; [done|].
  intros [Hc Hs]%mentions_colon. cbn [split]. rewrite Hc.
  by rewrite (IH Hs).
Qed.

Lemma split_at_colon (s rest : string) :
  mentions ":" s = false ->
  split ":" (s +:+ String ":" rest) = s :: split ":" rest.
Proof.
  induction s as [|c s IH].
  - intros _. reflexivity.
  - intros [Hc Hs]%mentions_colon.
    change (String c s +:+ String ":" rest)
      with (String c (s +:+ String ":" rest)).
    cbn [split]. rewrite Hc. by rewrite (IH Hs).
Qed.

Lemma split_is_not_empty (sep : ascii) (s : string) : split sep s <> [].
Proof.
  induction s as [|c s IH]; [done|]. cbn [split].
  destruct (Ascii.eqb c sep); [done|]. by destruct (split sep s).
Qed.

Lemma name_is_listed (target : string) (names : list string) :
  target ∈ names ->
  existsb (fun k => is_string_eq k (PStr target)) names = true.
Proof.
  intros Hin. apply existsb_exists. exists target.
  split; [by apply list_elem_of_In|]. apply String.eqb_refl.
Qed.

(** X12: a fig link names its target before the first colon.  "target"
    alone is its own alias, "target:alias" has the alias given, and with
    anything after a second colon the alias is the target again. *)
Theorem fig_link_alias (names : list string)
    (application_name target given : string) :
  target ∈ names ->
  mentions ":" target = false ->
  mentions ":" given = false ->
  fig_link names application_name (PStr target)
  = ret {| target_application := PStr target; link_alias := PStr target;
           ports_local := PNone; ports_remote := PNone |}
  /\ fig_link names application_name (PStr (target +:+ String ":" given))
     = ret {| target_application := PStr target; link_alias := PStr given;
              ports_local := PNone; ports_remote := PNone |}
  /\ (forall more,
        fig_link names application_name
          (PStr (target +:+ String ":" (given +:+ String ":" more)))
        = ret {| target_application := PStr target;
                 link_alias := PStr target;
                 ports_local := PNone; ports_remote := PNone |}).
Proof.
  intros Hin Ht Hg. pose proof (name_is_listed _ _ Hin) as Hlisted.
  unfold fig_link.
  cbn [isinstance type_of existsb subclass pytype_eqb orb negb split_colon
         rbind ret].
  split; [|split].
  - rewrite (split_without_colon _ Ht). cbn [map rbind ret].
    by rewrite Hlisted.
  - rewrite (split_at_colon _ _ Ht), (split_without_colon _ Hg).
    cbn [map rbind ret]. by rewrite Hlisted.
  - intros more. rewrite (split_at_colon _ _ Ht), (split_at_colon _ _ Hg).
    pose proof (split_is_not_empty ":" more) as Hmore.
    destruct (split ":" more) as [|w ws]; [done|].
    cbn [map rbind ret]. by rewrite Hlisted.
Qed.

(** X13: fig's "host:container" gives a port whose external port is the
    number before the colon and whose internal port is the number after
    it. *)
Theorem fig_port_order application_name (host container : string)
    (external internal : Z) :
  mentions ":" host = false ->
  mentions ":" container = false ->
  int_of_string host = ret external ->
  int_of_string container = ret internal ->
  fig_port application_name (PStr (host +:+ String ":" container))
  = ret {| internal_port := PInt internal; external_port := PInt external |}.
Proof.
  intros Hh Hc He Hi. unfold fig_port. cbn [split_colon rbind ret].
  rewrite (split_at_colon _ _ Hh), (split_without_colon _ Hc).
  cbn [map length Nat.eqb negb for_collect int rbind ret].
  rewrite He. cbn [rbind ret]. rewrite Hi. reflexivity.
Qed.

(** ** The fig format: the second pass *)

Lemma bind_ret_inv {S A B} (m : M S A) (k : A -> M S B) s b s' :
  bind m k s = (inr b, s') ->
  exists a s1, m s = (inr a, s1) /\ k a s1 = (inr b, s').
Proof.
  unfold bind. destruct (m s) as [[e|a] s1]; [done|]. by exists a, s1.
Qed.

Lemma for_collect_returns {A B} (P : B -> Prop) (body : A -> result B) l bs :
  (forall x b, body x = ret b -> P b) ->
  for_collect l body = ret bs -> Forall P bs.
Proof.
  intros Hbody. revert bs. induction l as [|x l IH]; intros bs H.
  - injection H as <-. constructor.
  - cbn [for_collect] in H. destruct (body x) as [e|b] eqn:Hb; [done|].
    cbn [rbind] in H.
    destruct (for_collect l body) as [e|bs'] eqn:Hbs; [done|].
    injection H as <-. constructor; [by eapply Hbody|by apply IH].
Qed.

Lemma for_items_results {A} (body : string -> M pyval A) (d d' : dict) r :
  for_items body d = (ret r, d') ->
  Forall2 (fun kv ka =>
             fst ka = fst kv
             /\ exists v', body (fst kv) (snd kv) = (ret (snd ka), v'))
          d r.
Proof.
  revert r d'. induction d as [|[k v] d IH]; intros r d' H.
  - injection H as <- _. constructor.
  - cbn [for_items] in H.
    destruct (body k v) as [[e|a] v'] eqn:Hb; [discriminate|].
    destruct (for_items body d) as [[e|rest] d''] eqn:Hr; [discriminate|].
    injection H as <- _. constructor; [|by eapply IH].
    split; [done|]. by exists v'.
Qed.

Lemma split_colon_hashable (link : pyval) (parsed : list pyval) :
  split_colon link = ret parsed -> forallb hashable parsed = true.
Proof.
  destruct link; try discriminate; intros [= <-];
    by induction (split ":" s).
Qed.

Lemma fig_link_pending names application_name link definition :
  fig_link names application_name link = ret definition ->
  pending names definition.
Proof.
  unfold fig_link. destruct (negb (isinstance link [TStr; TUnicode]));
    [done|].
  destruct (split_colon link) as [e|parsed_link] eqn:Hsplit; [done|].
  apply split_colon_hashable in Hsplit. cbn [rbind].
  destruct parsed_link as [|x rest]; [done|]. cbn [rbind ret].
  destruct (existsb _ names) eqn:E; [|done]. cbn [negb].
  intros [= <-]. split; [done|]. split; [done|]. cbn [link_alias].
  cbn [forallb] in Hsplit. apply andb_true_iff in Hsplit as [Hx Hrest].
  destruct rest as [|a [|? ?]]; try done.
  cbn [forallb] in Hrest. by apply andb_true_iff in Hrest as [? _].
Qed.

Section SecondPass.

Context `{cwd : WorkingDirectory}.

Variable from_string : pyval -> result DockerImage.

Lemma fig_application_pending names application_name config application
    definitions after :
  fig_application from_string names application_name config
  = (ret (application, definitions), after) ->
  Forall (pending names) definitions
  /\ forallb py_hashable (ports application) = true.
Proof.
  intros H. unfold fig_application, mexcept_ValueError in H.
  destruct (fig_application_try from_string names application_name config)
    as [[e|r] s] eqn:Htry; [by destruct e|].
  injection H as -> ->. rename Htry into H.
  unfold fig_application_try in H.
  apply bind_ret_inv in H as (config0 & s0 & _ & H).
  apply bind_ret_inv in H as (? & s1 & _ & H).
  apply bind_ret_inv in H as (count & s2 & _ & H).
  destruct (count =? 0)%nat; [done|].
  apply bind_ret_inv in H as (has_build & s3 & _ & H).
  destruct has_build; [done|].
  apply bind_ret_inv in H as (present_keys & s4 & _ & H).
  destruct (nonempty (List.filter _ unsupported_keys)); [done|].
  destruct (nonempty (List.filter _ present_keys)); [done|].
  apply bind_ret_inv in H as (image_name & s5 & _ & H).
  apply bind_ret_inv in H as (? & s6 & _ & H).
  apply bind_ret_inv in H as (image & s7 & _ & H).
  apply bind_ret_inv in H as (environment & s8 & _ & H).
  apply bind_ret_inv in H as (volume & s9 & _ & H).
  apply bind_ret_inv in H as (parsed_ports & s10 & _ & H).
  apply bind_ret_inv in H as (application_links & s11 & Hlinks & H).
  apply bind_ret_inv in H as (ports & s12 & Hports & H).
  apply bind_ret_inv in H as (links & s13 & _ & H).
  injection H as <- <- _. cbn [Model.ports]. split.
  - destruct (member "links" present_keys).
    + unfold lift, fig_links in Hlinks. injection Hlinks as Hlinks _.
      destruct (getitem config0 "links") as [e|links']; [done|].
      cbn [rbind] in Hlinks.
      destruct (_check_type links' _ _ _); [done|]. cbn [rbind] in Hlinks.
      destruct (iter links') as [e|elems]; [done|]. cbn [rbind] in Hlinks.
      eapply for_collect_returns; [|exact Hlinks].
      intros link definition. apply fig_link_pending.
    + injection Hlinks as <- _. constructor.
  - unfold lift, frozenset in Hports.
    destruct (forallb py_hashable parsed_ports) eqn:E; [|done].
    injection Hports as <- _. by apply distinct_hashable.
Qed.

Lemma first_pass_pending (c c' : dict) parsed :
  fig_first_pass from_string c = (ret parsed, c') ->
  map fst parsed = keys c
  /\ Forall (fun kv => Forall (pending (keys c)) (snd (snd kv))) parsed
  /\ hashable_ports (map (fun kv => (fst kv, fst (snd kv))) parsed).
Proof.
  unfold fig_first_pass, hashable_ports.
  generalize (keys c) at 1 3 as names. intros names H.
  apply for_items_results in H. unfold keys.
  induction H as [|[k v] [k' [a lds]] d r [Hk (v' & Hbody)] _ (IH1 & IH2 & IH3)].
  - split; [done|]. split; constructor.
  - cbn [fst snd] in *. subst k'.
    apply fig_application_pending in Hbody as [Hp Hh].
    split; [cbn [map fst]; by f_equal|].
    split; cbn [map]; by constructor.
Qed.

End SecondPass.

(** Looking up a name that is listed. *)
Lemma listed_is_found (applications : applications_map) (name : pyval) :
  existsb (fun k => is_string_eq k name) (map fst applications) = true ->
  exists target,
    lookup_application applications name = ret target
    /\ exists k, (k, target) ∈ applications.
Proof.
  intros H.
  assert (hashable name = true) as Hh.
  { apply existsb_exists in H as (k & _ & Hk). by destruct name. }
  unfold lookup_application, get_application. rewrite Hh. cbn [rbind ret].
  induction applications as [|[k a] applications IH]; [done|].
  cbn [map fst existsb List.find] in *.
  destruct (is_string_eq k name); cbn [fmap option_fmap option_map snd].
  - exists a. split; [done|]. exists k. apply list_elem_of_here.
  - destruct (IH H) as (target & Hl & k' & Hin).
    exists target. split; [done|]. exists k'.
    by apply list_elem_of_further.
Qed.

Lemma lookup_after_set_links application_name links
    (applications : applications_map) (name : pyval) :
  (forall target,
     lookup_application applications name = ret target ->
     exists target',
       lookup_application
         (set_application_links application_name links applications) name
       = ret target' /\ ports target' = ports target)
  /\ (forall target',
        lookup_application
          (set_application_links application_name links applications) name
        = ret target' ->
        exists target,
          lookup_application applications name = ret target
          /\ ports target' = ports target).
Proof.
  unfold lookup_application, get_application.
  destruct (hashable name); [|by split]. cbn [rbind ret].
  induction applications as [|[k a] applications [IH1 IH2]]; [by split|].
  cbn [set_application_links map List.find fst snd].
  destruct (String.eqb k application_name); cbn [fst snd List.find];
    (destruct (is_string_eq k name);
     cbn [fmap option_fmap option_map snd]; [|by split]);
    split; intros ? [= <-]; by eexists.
Qed.

Lemma portless_after_set_links application_name links applications link :
  portless applications link
  <-> portless (set_application_links application_name links applications)
        link.
Proof.
  destruct (lookup_after_set_links application_name links applications
              (target_application link)) as [H1 H2].
  unfold portless. split.
  - intros (target & Hl & Hp). destruct (H1 _ Hl) as (target' & Hl' & Hp').
    exists target'. split; [done|congruence].
  - intros (target' & Hl' & Hp'). destruct (H2 _ Hl') as (target & Hl & Hp).
    exists target. split; [done|congruence].
Qed.

Lemma keys_after_set_links application_name links
    (applications : applications_map) :
  map fst (set_application_links application_name links applications)
  = map fst applications.
Proof.
  unfold set_application_links. rewrite map_map. apply map_ext.
  intros [k a]. cbn [fst]. by destruct (String.eqb k application_name).
Qed.

Lemma ports_after_set_links application_name links
    (applications : applications_map) :
  hashable_ports applications ->
  hashable_ports (set_application_links application_name links applications).
Proof.
  unfold hashable_ports, set_application_links. intros Hall.
  apply Forall_map. eapply Forall_impl; [exact Hall|].
  intros [k a] Ha. cbn [fst snd] in *.
  by destruct (String.eqb k application_name).
Qed.

(** Resolving one link: the first port of its target, or
    [StopIteration]. *)
Lemma resolve_pending_link applications link :
  hashable_ports applications ->
  pending (map fst applications) link ->
  exists target,
    lookup_application applications (target_application link) = ret target
    /\ ((ports target = []
         /\ resolve_link applications link = raise StopIteration)
        \/ (exists resolved,
              ports target <> []
              /\ resolve_link applications link = ret resolved
              /\ py_hashable resolved = true)).
Proof.
  intros Hports (Hr & Ht & Ha).
  destruct (listed_is_found _ _ Ht) as (target & Hl & k & Hin).
  exists target. split; [done|].
  unfold resolve_link. rewrite Hr. cbn [truthy negb]. rewrite Hl.
  cbn [rbind ret].
  destruct (ports target) as [|port rest] eqn:Hp; [by left|].
  right. eexists. split; [done|]. split; [reflexivity|].
  unfold hashable_ports in Hports. rewrite Forall_forall in Hports.
  specialize (Hports _ Hin). cbn [snd] in Hports. rewrite Hp in Hports.
  cbn [forallb] in Hports. apply andb_true_iff in Hports as [Hport _].
  cbn [py_hashable Port_value Link_value local_port remote_port alias] in *.
  by rewrite Hport, Ha.
Qed.

Lemma resolve_pending_links applications definitions :
  hashable_ports applications ->
  Forall (pending (map fst applications)) definitions ->
  (Exists (portless applications) definitions ->
   for_collect definitions (resolve_link applications) = raise StopIteration)
  /\ (~ Exists (portless applications) definitions ->
      exists links,
        for_collect definitions (resolve_link applications) = ret links
        /\ forallb py_hashable links = true).
Proof.
  intros Hports. induction 1 as [|link definitions Hp _ [IH1 IH2]].
  - split; [by intros ?%Exists_nil|by exists []].
  - destruct (resolve_pending_link _ _ Hports Hp)
      as (target & Hl & [[Hnone Hr]|(resolved & Hsome & Hr & Hh)]);
      cbn [for_collect]; rewrite Hr.
    + split; [done|]. intros Hno. exfalso. apply Hno.
      apply Exists_cons_hd. by exists target.
    + cbn [rbind ret]. split.
      * intros [(target' & Hl' & Hp')|Hrest]%Exists_cons.
        { rewrite Hl in Hl'. injection Hl' as <-. congruence. }
        by rewrite (IH1 Hrest).
      * intros Hno. destruct IH2 as (links & -> & Hlinks).
        { intros Hrest. apply Hno. by apply Exists_cons_tl. }
        eexists. split; [reflexivity|]. cbn [forallb]. by rewrite Hh.
Qed.

Lemma resolve_pending_links_outcome applications definitions :
  hashable_ports applications ->
  Forall (pending (map fst applications)) definitions ->
  for_collect definitions (resolve_link applications) = raise StopIteration
  \/ exists links,
       for_collect definitions (resolve_link applications) = ret links
       /\ forallb py_hashable links = true.
Proof.
  intros Hports. induction 1 as [|link definitions Hp _ IH];
    [right; by exists []|].
  destruct (resolve_pending_link _ _ Hports Hp)
    as (target & Hl & [[Hnone Hr]|(resolved & Hsome & Hr & Hh)]);
    cbn [for_collect]; rewrite Hr; [by left|].
  cbn [rbind ret].
  destruct IH as [->|(links & -> & Hlinks)]; [by left|].
  right. eexists. split; [reflexivity|]. cbn [forallb]. by rewrite Hh.
Qed.

Lemma resolve_all_links
    (application_links : list (string * list link_definition))
    (applications : applications_map) :
  hashable_ports applications ->
  Forall (fun kv => Forall (pending (map fst applications)) (snd kv))
         application_links ->
  (Exists (fun kv => Exists (portless applications) (snd kv))
          application_links ->
   resolve_links application_links applications = raise StopIteration)
  /\ (~ Exists (fun kv => Exists (portless applications) (snd kv))
          application_links ->
      exists resolved,
        resolve_links application_links applications = ret resolved).
Proof.
  revert applications.
  induction application_links as [|[application_name definitions] rest IH];
    intros applications Hports Hall.
  - split; [by intros ?%Exists_nil|by eexists].
  - apply Forall_cons in Hall as [Hhead Hrest]. cbn [snd] in Hhead.
    destruct (resolve_pending_links _ _ Hports Hhead) as [Hstop Hgo].
    cbn [resolve_links].
    assert (forall links,
              Forall (fun kv =>
                        Forall (pending
                                  (map fst (set_application_links
                                              application_name links
                                              applications)))
                               (snd kv)) rest) as Hrest'.
    { intros links. by rewrite keys_after_set_links. }
    assert (forall links,
              Exists (fun kv => Exists (portless applications) (snd kv)) rest
              <-> Exists (fun kv =>
                            Exists (portless
                                      (set_application_links application_name
                                         links applications))
                                   (snd kv)) rest) as Hsame.
    { intros links. rewrite !Exists_exists.
      split; intros (kv & Hin & Hkv); exists kv; (split; [done|]);
        rewrite Exists_exists in *; destruct Hkv as (link & Hlink & Hp);
        exists link; (split; [done|]);
        by apply (portless_after_set_links application_name links
                    applications link). }
    destruct (resolve_pending_links_outcome _ _ Hports Hhead)
      as [Hraise|(links & Hret & Hhash)].
    + rewrite Hraise. cbn [rbind raise]. split; [done|].
      intros Hno. destruct Hgo as (links & Hl & _).
      { intros Hhere. apply Hno. by apply Exists_cons_hd. }
      rewrite Hraise in Hl. discriminate.
    + rewrite Hret. cbn [rbind ret].
      rewrite (frozenset_hashable _ Hhash). cbn [rbind ret].
      destruct (IH _ (ports_after_set_links application_name
                        (distinct links) _ Hports)
                  (Hrest' (distinct links))) as [IHstop IHgo].
      split.
      * intros [Hhere|Hlater]%Exists_cons.
        { cbn [snd] in Hhere. rewrite (Hstop Hhere) in Hret. discriminate. }
        apply IHstop. by apply Hsame.
      * intros Hno. apply IHgo. intros Hlater. apply Hno.
        apply Exists_cons_tl. by apply Hsame in Hlater.
Qed.

Section SecondPassOutcome.

Context `{cwd : WorkingDirectory}.

Variable from_string : pyval -> result DockerImage.

Lemma second_pass_outcome (c c' : dict) parsed :
  fig_first_pass from_string c = (ret parsed, c') ->
  (links_to_portless parsed ->
   _applications_from_fig_configuration from_string (PDict c)
   = (raise StopIteration, PDict c'))
  /\ (~ links_to_portless parsed ->
      exists applications,
        _applications_from_fig_configuration from_string (PDict c)
        = (ret applications, PDict c')).
Proof.
  intros Hfirst.
  destruct (first_pass_pending from_string c c' parsed Hfirst)
    as (Hkeys & Hpending & Hports).
  set (applications := map (fun kv => (fst kv, fst (snd kv))) parsed) in *.
  set (application_links := map (fun kv => (fst kv, snd (snd kv))) parsed).
  assert (map fst applications = keys c) as Hnames.
  { unfold applications. by rewrite map_map. }
  assert (Forall (fun kv => Forall (pending (map fst applications)) (snd kv))
                 application_links) as Hall.
  { rewrite Hnames. unfold application_links. by apply Forall_map. }
  assert (links_to_portless parsed
          <-> Exists (fun kv => Exists (portless applications) (snd kv))
                     application_links) as Hsame.
  { unfold links_to_portless, application_links. by rewrite Exists_fmap. }
  destruct (resolve_all_links application_links applications Hports Hall)
    as [Hstop Hgo].
  assert (_applications_from_fig_configuration from_string (PDict c)
          = (resolve_links application_links applications, PDict c')) as ->.
  { unfold _applications_from_fig_configuration, bind, get, lift.
    cbn [keys_of items ret]. unfold fig_first_pass in Hfirst.
    by rewrite Hfirst. }
  split.
  - intros Hp. by rewrite (Hstop (proj1 Hsame Hp)).
  - intros Hno. destruct Hgo as [resolved ->]; [|by eexists].
    intros Hp. apply Hno. by apply Hsame.
Qed.

(** X14: when the first pass over a fig configuration has returned, the
    second pass raises [StopIteration] if some link goes to an
    application without ports, and returns the applications otherwise;
    either way the configuration is left as the first pass left it. *)
Theorem link_needs_a_port_of_its_target (c c' : dict) parsed :
  fig_first_pass from_string c = (ret parsed, c') ->
  (links_to_portless parsed ->
   _applications_from_fig_configuration from_string (PDict c)
   = (raise StopIteration, PDict c'))
  /\ (~ links_to_portless parsed ->
      exists applications,
        _applications_from_fig_configuration from_string (PDict c)
        = (ret applications, PDict c')).
Proof. apply second_pass_outcome. Qed.

End SecondPassOutcome.

(** ** Running the flocker format's parser on an application *)

Lemma pop_found (key : string) (default : option pyval) (d : dict) x :
  dict_get key d = Some x ->
  pop key default (PDict d) = (ret x, PDict (dict_del key d)).
Proof. intros Hget. unfold pop. by rewrite Hget. Qed.

Lemma dict_del_absent (key : string) (d : dict) :
  dict_get key d = None -> dict_del key d = d.
Proof.
  unfold dict_del. induction d as [|[k v] d IH]; [done|].
  cbn [dict_get]. destruct (String.eqb_spec key k) as [->|Hne]; [done|].
  intros Hget. rewrite @filter_cons. cbn [fst].
  case_decide; [|done]. f_equal. by apply IH.
Qed.

Lemma pop_default (key : string) (x : pyval) (d : dict) :
  pop key (Some x) (PDict d)
  = (ret (default x (dict_get key d)), PDict (dict_del key d)).
Proof.
  unfold pop. destruct (dict_get key d) eqn:E; [done|].
  by rewrite (dict_del_absent _ _ E).
Qed.

Section Run.

Context `{cwd : WorkingDirectory}.

Variable _lenient : bool.
Variable from_string : pyval -> result DockerImage.

(** [flocker_application] once the image, the ports and the links have
    been parsed: what the volume, the environment and the set of the
    ports make of it. *)
Lemma flocker_application_run application_name (d : dict)
    image_name image parsed_ports links :
  dict_get "image" d = Some image_name ->
  from_string image_name = ret image ->
  fst (for_each_in parse_port (default (PList []) (dict_get "ports" d)))
  = ret parsed_ports ->
  fst (_parse_link_configuration application_name
         (default (PList []) (dict_get "links" d)))
  = ret links ->
  (forall message after,
     dict_has "volume" d = true ->
     parse_volume _lenient application_name
       (PDict (dict_del "links" (dict_del "ports" (dict_del "image" d))))
     = (raise (ValueError message), after) ->
     flocker_application _lenient from_string application_name (PDict d)
     = (raise (config_error application_name
                 ("Invalid volume specification. " +:+ message)),
        after))
  /\ (forall volume d' environment ports,
        (if dict_has "volume" d
         then exists v,
             parse_volume _lenient application_name
               (PDict (dict_del "links"
                         (dict_del "ports" (dict_del "image" d))))
             = (ret v, PDict d')
             /\ volume = Some v
         else volume = None
              /\ d' = dict_del "links"
                        (dict_del "ports" (dict_del "image" d))) ->
        _parse_environment_config application_name (PDict d')
        = (ret environment, PDict []) ->
        frozenset parsed_ports = ret ports ->
        flocker_application _lenient from_string application_name (PDict d)
        = (ret {| name := application_name;
                  image := image;
                  volume := volume;
                  ports := ports;
                  links := links;
                  environment := environment |},
           PDict [])).
Proof.
  intros Himage Hfrom Hports Hlinks.
  eassert (flocker_application _lenient from_string application_name
             (PDict d) = _) as Hrun.
  { unfold flocker_application.
    unfold bind at 1, mexcept_KeyError. rewrite (pop_found _ _ _ _ Himage).
    cbn [ret]. unfold bind at 1, lift at 1. rewrite Hfrom.
    cbn [except_ValueError ret].
    unfold bind at 1, mexcept_ValueError at 1, bind at 1.
    rewrite pop_default, dict_get_del_ne by done. cbn [ret].
    unfold lift at 1. rewrite Hports. cbn [ret].
    unfold bind at 1. rewrite pop_default, !dict_get_del_ne by done.
    cbn [ret]. unfold bind at 1, lift at 1. rewrite Hlinks. cbn [ret].
    unfold bind at 1, get at 1. cbn [ret].
    unfold bind at 1, lift at 1. cbn [contains ret].
    rewrite !dict_has_del_ne by done. reflexivity. }
  rewrite Hrun. clear Hrun. split.
  - intros message after Hhas Hvolume. rewrite Hhas.
    unfold bind at 1, mexcept_ValueError at 1, bind at 1.
    by rewrite Hvolume.
  - intros volume d' environment ports Hvolume Henvironment Hset.
    destruct (dict_has "volume" d); cbv iota.
    + destruct Hvolume as (v & Hv & ->).
      unfold bind at 1, mexcept_ValueError at 1, bind at 1.
      rewrite Hv. cbn [ret mret]. unfold mret at 1.
      unfold bind at 1. rewrite Henvironment. cbn [ret].
      unfold bind at 1, lift at 1. rewrite Hset. reflexivity.
    + destruct Hvolume as [-> ->].
      unfold bind at 1, mret at 1.
      unfold bind at 1. rewrite Henvironment. cbn [ret].
      unfold bind at 1, lift at 1. rewrite Hset. reflexivity.
Qed.

End Run.

(** ** What a node reports, read back *)

Lemma parse_port_reads_back (port : Port) :
  parse_port (port_config port) = (ret port, PDict []).
Proof. by destruct port. Qed.

Lemma parse_ports_read_back (ports : list Port) :
  for_each parse_port (map port_config ports)
  = (ret ports, map (fun _ => PDict []) ports).
Proof.
  induction ports as [|port ports IH]; [done|].
  cbn [map for_each]. by rewrite parse_port_reads_back, IH.
Qed.

Lemma dict_set_new (k : string) (v : pyval) (d : dict) :
  dict_has k d = false -> dict_set k v d = (d ++ [(k, v)])%list.
Proof.
  induction d as [|[k' v'] d IH]; [done|].
  cbn [dict_has existsb fst dict_set]. intros [Hk Hd]%orb_false_iff.
  rewrite Hk. cbn [app]. f_equal. by apply IH.
Qed.

Lemma dict_has_app (k : string) (d1 d2 : dict) :
  dict_has k (d1 ++ d2)%list = dict_has k d1 || dict_has k d2.
Proof. unfold dict_has. apply existsb_app. Qed.

Lemma dict_has_names {A} (k : string) (f : A -> string) (g : A -> pyval)
    (l : list A) :
  dict_has k (map (fun a => (f a, g a)) l) = true <-> k ∈ map f l.
Proof.
  induction l as [|a l IH]; cbn [map dict_has existsb fst].
  - split; [done|by intros ?%elem_of_nil].
  - rewrite orb_true_iff, elem_of_cons, String.eqb_eq.
    unfold dict_has in IH. by rewrite IH.
Qed.

Section ReadBack.

Context `{cwd : WorkingDirectory}.

Variable from_string : pyval -> result DockerImage.
Variable unknown : DockerImage.
Hypothesis from_unknown : from_string (PUnicode "unknown") = ret unknown.

Lemma reported_application_reads_back (application : Application) :
  forallb valid_link (links application) = true ->
  forallb py_hashable (ports application) = true ->
  flocker_application true from_string (name application)
    (PDict (application_config application))
  = (ret (read_back unknown application), PDict []).
Proof.
  destruct application as [n i v ps ls e]. cbn [name links ports].
  intros Hlinks Hports.
  pose proof (parse_link_configuration_reads_back n ls Hlinks) as Hls.
  pose proof (parse_ports_read_back ps) as Hps.
  pose proof (frozenset_hashable ps Hports) as Hset.
  assert (fst (for_each_in parse_port (PList (map port_config ps))) = ret ps)
    as Hp.
  { cbn [for_each_in]. by rewrite Hps. }
  unfold read_back, application_config. cbn [name volume ports links].
  destruct ls as [|l ls], v as [v|].
  - match goal with |- _ _ _ _ (PDict ?d) = _ =>
    refine (proj2 (flocker_application_run true from_string n d
                     (PUnicode "unknown") unknown ps (distinct [])
                     eq_refl from_unknown Hp eq_refl)
              (Some {| volume_name := n; mountpoint := None |}) []
              PNone (distinct ps) _ eq_refl Hset) end.
    eexists. split; reflexivity.
  - match goal with |- _ _ _ _ (PDict ?d) = _ =>
    refine (proj2 (flocker_application_run true from_string n d
                     (PUnicode "unknown") unknown ps (distinct [])
                     eq_refl from_unknown Hp eq_refl)
              None [] PNone (distinct ps) _ eq_refl Hset) end.
    split; reflexivity.
  - match goal with |- _ _ _ _ (PDict ?d) = _ =>
    refine (proj2 (flocker_application_run true from_string n d
                     (PUnicode "unknown") unknown ps (distinct (l :: ls))
                     eq_refl from_unknown Hp _)
              (Some {| volume_name := n; mountpoint := None |}) []
              PNone (distinct ps) _ eq_refl Hset) end.
    + change (fst (_parse_link_configuration n
                     (PList (map link_config (l :: ls))))
              = ret (distinct (l :: ls))).
      by rewrite Hls.
    + eexists. split; reflexivity.
  - match goal with |- _ _ _ _ (PDict ?d) = _ =>
    refine (proj2 (flocker_application_run true from_string n d
                     (PUnicode "unknown") unknown ps (distinct (l :: ls))
                     eq_refl from_unknown Hp _)
              None [] PNone (distinct ps) _ eq_refl Hset) end.
    + change (fst (_parse_link_configuration n
                     (PList (map link_config (l :: ls))))
              = ret (distinct (l :: ls))).
      by rewrite Hls.
    + split; reflexivity.
Qed.

Lemma read_back_hashable (application : Application) :
  forallb valid_link (links application) = true ->
  forallb py_hashable (ports application) = true ->
  py_hashable (read_back unknown application) = true.
Proof.
  intros Hlinks Hports. unfold read_back.
  cbn [py_hashable Application_value volume ports links environment].
  rewrite (distinct_hashable _ Hports).
  rewrite (distinct_hashable _ (valid_links_hashable _ Hlinks)).
  by destruct (volume application).
Qed.

Lemma reported_applications_read_back (applications : list Application) :
  Forall (fun application =>
            forallb valid_link (links application) = true
            /\ forallb py_hashable (ports application) = true)
         applications ->
  for_items (flocker_application true from_string)
    (map (fun application =>
            (name application, PDict (application_config application)))
         applications)
  = (ret (map (fun application =>
                 (name application, read_back unknown application))
              applications),
     map (fun application => (name application, PDict [])) applications).
Proof.
  induction 1 as [|application applications [Hlinks Hports] _ IH]; [done|].
  cbn [map for_items].
  by rewrite (reported_application_reads_back _ Hlinks Hports), IH.
Qed.

End ReadBack.
(** The dictionary of [configuration_to_yaml] has one entry for each
    application, in their order, when no two have the same name. *)
Lemma reported_applications (applications : list Application) (result : dict) :
  NoDup (map name applications) ->
  (forall application,
     application ∈ applications -> dict_has (name application) result = false) ->
  fold_left
    (fun result application =>
       dict_set (name application) (PDict (application_config application))
                result)
    applications result
  = (result
       ++ map (fun application =>
                 (name application, PDict (application_config application)))
              applications)%list.
Proof.
  revert result.
  induction applications as [|application applications IH];
    intros result Hnodup Hnew.
  - cbn [fold_left map]. by rewrite app_nil_r.
  - cbn [map] in Hnodup. apply NoDup_cons in Hnodup as [Hhead Hnodup].
    cbn [fold_left map].
    rewrite (dict_set_new _ _ _ (Hnew application (list_elem_of_here _ _))).
    rewrite IH; [by rewrite <- app_assoc|done|].
    intros other Hother. rewrite dict_has_app. apply orb_false_iff.
    split; [apply Hnew; by apply list_elem_of_further|].
    cbn [dict_has existsb fst]. rewrite orb_false_r.
    apply String.eqb_neq. intros Heq. apply Hhead. rewrite <- Heq.
    by apply list_elem_of_fmap_2.
Qed.

Lemma reported_configuration_lists (applications : list Application) :
  NoDup (map name applications) ->
  reported_configuration applications
  = PDict [("version", PInt 1);
           ("applications",
            PDict (map (fun application =>
                          (name application,
                           PDict (application_config application)))
                       applications))].
Proof.
  intros Hnodup. unfold reported_configuration.
  by rewrite (reported_applications applications [] Hnodup).
Qed.

Lemma no_application_called (k : string) (applications : list Application) :
  Forall (fun application => name application <> k) applications ->
  dict_has k (map (fun application =>
                     (name application,
                      PDict (application_config application)))
                  applications) = false.
Proof.
  intros Hall.
  destruct (dict_has k _) eqn:E; [|done].
  apply (dict_has_names k name
           (fun application => PDict (application_config application)))
    in E.
  apply list_elem_of_fmap in E as (application & -> & Hin).
  rewrite Forall_forall in Hall. by destruct (Hall application Hin).
Qed.

Section Report.

Context `{cwd : WorkingDirectory}.

Variable from_string : pyval -> result DockerImage.
Variable unknown : DockerImage.
Hypothesis from_unknown : from_string (PUnicode "unknown") = ret unknown.

Lemma report_reads_back (applications : list Application) :
  reportable applications ->
  _is_fig_configuration (reported_configuration applications) = ret false
  /\ _applications_from_configuration true from_string
       (reported_configuration applications)
     = (ret (map (fun application =>
                    (name application, read_back unknown application))
                 applications),
        consumed_report applications).
Proof.
  intros [Hnodup Hall].
  rewrite (reported_configuration_lists _ Hnodup).
  assert (_is_fig_configuration
            (PDict [("version", PInt 1);
                    ("applications",
                     PDict (map (fun application =>
                                   (name application,
                                    PDict (application_config application)))
                                applications))])
          = ret false) as Hfig.
  { change (_is_fig_configuration (PDict ?d)) with (is_fig_loop false d).
    rewrite is_fig_loop_decides.
    cbn [List.find existsb snd has_both has_one orb].
    rewrite !no_application_called; [done|..];
      eapply Forall_impl; try exact Hall; by intros ? (? & ? & ? & ?). }
  split; [exact Hfig|].
  rewrite (applications_from_configuration_flocker true from_string _ Hfig).
  match goal with
  | |- context [_applications_from_flocker_configuration _ _ (PDict ?c)] =>
      rewrite (flocker_configuration_after true from_string c (PInt 1) _
                 eq_refl eq_refl eq_refl)
  end.
  rewrite (reported_applications_read_back from_string unknown from_unknown).
  - reflexivity.
  - eapply Forall_impl; [exact Hall|]. by intros ? (? & ? & ? & ?).
Qed.

(** X15: what [configuration_to_yaml] writes about applications with
    distinct names, none of them "image" or "build", with well-typed
    links and with ports that can be hashed, is a configuration in the
    flocker format that the lenient parser accepts; what it returns for
    each application is the application with the image "unknown", the
    sets of its ports and of its links, a volume without mountpoint if it
    had a volume, and no environment. *)
Theorem report_is_read_back (applications : list Application) :
  reportable applications ->
  _is_fig_configuration (reported_configuration applications) = ret false
  /\ _applications_from_configuration true from_string
       (reported_configuration applications)
     = (ret (map (fun application =>
                    (name application, read_back unknown application))
                 applications),
        consumed_report applications).
Proof. apply report_reads_back. Qed.

End Report.

(** ** The current configuration of the cluster *)

Section Current.

Context `{cwd : WorkingDirectory}.

Variable from_string : pyval -> result DockerImage.
Variable unknown : DockerImage.
Hypothesis from_unknown : from_string (PUnicode "unknown") = ret unknown.

Lemma read_back_all_hashable (applications : list Application) :
  reportable applications ->
  forallb py_hashable (map (read_back unknown) applications) = true.
Proof.
  intros [_ Hall]. induction Hall as [|a l (_ & _ & Hl & Hp) _ IH]; [done|].
  cbn [map forallb]. by rewrite (read_back_hashable unknown a Hl Hp), IH.
Qed.

Lemma reported_node_hashable (host : string * list Application) :
  reportable (snd host) -> py_hashable (reported_node unknown host) = true.
Proof.
  intros Hhost. unfold reported_node.
  cbn [py_hashable Node_value applications].
  apply distinct_hashable. by apply read_back_all_hashable.
Qed.

Lemma reports_read_back (hosts : list (string * list Application)) :
  Forall (fun host => reportable (snd host)) hosts ->
  for_items
    (fun hostname =>
       let* node_applications :=
         _applications_from_configuration true from_string in
       let* applications :=
         lift (frozenset (map snd node_applications)) in
       mret {| hostname := hostname; applications := applications |})
    (map (fun host => (fst host, reported_configuration (snd host))) hosts)
  = (ret (map (fun host => (fst host, reported_node unknown host)) hosts),
     map (fun host => (fst host, consumed_report (snd host))) hosts).
Proof.
  match goal with
  | |- _ -> for_items ?b _ = _ => set (body := b)
  end.
  induction 1 as [|[hostname applications] hosts Hhost _ IH]; [done|].
  cbn [map for_items fst snd].
  assert (body hostname (reported_configuration applications)
          = (ret (reported_node unknown (hostname, applications)),
             consumed_report applications)) as ->.
  { unfold body, bind at 1.
    destruct (report_reads_back from_string unknown from_unknown
                applications Hhost) as [_ ->].
    cbn [ret snd] in *. unfold bind, lift.
    assert (map snd (map (fun application =>
                            (name application,
                             read_back unknown application)) applications)
            = map (read_back unknown) applications) as ->
      by by rewrite map_map.
    rewrite (frozenset_hashable _ (read_back_all_hashable _ Hhost)).
    reflexivity. }
  by rewrite IH.
Qed.

Lemma current_reads_back (hosts : list (string * list Application)) :
  Forall (fun host => reportable (snd host)) hosts ->
  current_from_configuration from_string
    (PDict (map (fun host => (fst host, reported_configuration (snd host)))
                hosts))
  = (ret {| nodes := distinct (map (reported_node unknown) hosts) |},
     PDict (map (fun host => (fst host, consumed_report (snd host))) hosts)).
Proof.
  intros Hhosts.
  assert (forallb py_hashable (map (reported_node unknown) hosts) = true)
    as Hhash.
  { clear -Hhosts. induction Hhosts as [|host hosts Hhost _ IH]; [done|].
    cbn [map forallb]. rewrite (reported_node_hashable _ Hhost).
    exact IH. }
  pose proof (reports_read_back hosts Hhosts) as Hloop.
  unfold current_from_configuration, bind, get, lift in *.
  cbn [items ret]. rewrite Hloop.
  cbn [put ret mret].
  assert (map snd (map (fun host => (fst host, reported_node unknown host))
                       hosts)
          = map (reported_node unknown) hosts) as -> by by rewrite map_map.
  by rewrite (frozenset_hashable _ Hhash).
Qed.

(** X16: [current_from_configuration], given for each node what
    [configuration_to_yaml] wrote about its applications (which have
    distinct names, none of them "image" or "build", well-typed links
    and ports that can be hashed), returns the deployment with the set
    of the nodes, one for each, holding the set of the applications as
    they read back; the reports it was given are left with every
    application's dictionary emptied. *)
Theorem current_configuration_of_reports
    (hosts : list (string * list Application)) :
  Forall (fun host => reportable (snd host)) hosts ->
  current_from_configuration from_string
    (PDict (map (fun host => (fst host, reported_configuration (snd host)))
                hosts))
  = (ret {| nodes := distinct (map (reported_node unknown) hosts) |},
     PDict (map (fun host => (fst host, consumed_report (snd host))) hosts)).
Proof. apply current_reads_back. Qed.

End Current.

(** ** A report needs the lenient parser *)

Section Strict.

Context `{cwd : WorkingDirectory}.

Variable from_string : pyval -> result DockerImage.
Variable unknown : DockerImage.
Hypothesis from_unknown : from_string (PUnicode "unknown") = ret unknown.

(** X17: the strict parser rejects what [configuration_to_yaml] writes
    about an application with a volume and with well-typed links: the
    report gives the volume no mountpoint. *)
Theorem strict_parser_rejects_a_reported_volume
    (application : Application) (attached : AttachedVolume) :
  volume application = Some attached ->
  forallb valid_link (links application) = true ->
  flocker_application false from_string (name application)
    (PDict (application_config application))
  = (raise (config_error (name application)
              ("Invalid volume specification. "
                 +:+ "Mountpoint None contains non-ASCII (unsupported).")),
     PDict []).
Proof.
  destruct application as [n i v ps ls e]. cbn [name links volume].
  intros -> Hlinks.
  pose proof (parse_link_configuration_reads_back n ls Hlinks) as Hls.
  pose proof (parse_ports_read_back ps) as Hps.
  assert (fst (for_each_in parse_port (PList (map port_config ps))) = ret ps)
    as Hp.
  { cbn [for_each_in]. by rewrite Hps. }
  unfold application_config. cbn [name volume ports links].
  destruct ls as [|l ls].
  - match goal with |- _ _ _ _ (PDict ?d) = _ =>
      refine (proj1 (flocker_application_run false from_string n d
                       (PUnicode "unknown") unknown ps (distinct [])
                       eq_refl from_unknown Hp eq_refl)
                _ _ eq_refl eq_refl) end.
  - match goal with |- _ _ _ _ (PDict ?d) = _ =>
      refine (proj1 (flocker_application_run false from_string n d
                       (PUnicode "unknown") unknown ps (distinct (l :: ls))
                       eq_refl from_unknown Hp _)
                _ _ eq_refl eq_refl) end.
    change (fst (_parse_link_configuration n
                   (PList (map link_config (l :: ls))))
            = ret (distinct (l :: ls))).
    by rewrite Hls.
Qed.

End Strict.

(** ** The version *)

Section Version.

Context `{cwd : WorkingDirectory}.

(** X18: a 'version' that is not equal to 1 is rejected, in the
    applications of the flocker format and in the deployment
    configuration alike, once the 'applications' and the 'nodes' have
    been found; nothing has been taken out of the applications by
    then. *)
Theorem wrong_version_is_rejected (_lenient : bool)
    (from_string : pyval -> result DockerImage)
    (c n : dict) (version : pyval) :
  ne_int version 1 = true ->
  dict_has "applications" c = true ->
  dict_get "version" c = Some version ->
  dict_has "nodes" n = true ->
  dict_get "version" n = Some version ->
  _applications_from_flocker_configuration _lenient from_string (PDict c)
  = (raise (ConfigurationError
              ("Application configuration has an error. "
                 +:+ "Incorrect version specified.")),
     PDict c)
  /\ (forall all_applications,
        _deployment_from_configuration (PDict n) all_applications
        = raise (ConfigurationError
                   ("Deployment configuration has an error. "
                      +:+ "Incorrect version specified."))).
Proof.
  intros Hne Ha Hv Hn Hv'. split.
  - unfold _applications_from_flocker_configuration, bind, get, lift,
      contains, getitem.
    rewrite Ha, (dict_get_has _ _ _ Hv). cbn [ret negb]. rewrite Hv.
    cbn [ret]. by rewrite Hne.
  - intros all. unfold _deployment_from_configuration, contains, getitem.
    rewrite Hn, (dict_get_has _ _ _ Hv'). cbn [rbind ret negb]. rewrite Hv'.
    cbn [rbind ret]. by rewrite Hne.
Qed.

End Version.

(** ** The fig format: 'build' *)

Section Build.

Context `{cwd : WorkingDirectory}.

(** X19: a fig application with a 'build' key and no 'image' is
    rejected, whatever else it has: building is not supported.  The
    application's dictionary is left as it was. *)
Theorem fig_build_is_not_supported
    (from_string : pyval -> result DockerImage) (names : list string)
    application_name (d : dict) :
  dict_has "build" d = true ->
  dict_has "image" d = false ->
  fig_application from_string names application_name (PDict d)
  = (raise (config_error application_name
              "'build' is not supported yet; please specify 'image'."),
     PDict d).
Proof.
  intros Hb Hi.
  unfold fig_application, mexcept_ValueError, fig_application_try, bind, get,
    lift.
  cbn [_check_type isinstance type_of existsb subclass pytype_eqb orb ret].
  rewrite count_fig_identifier_keys, Hb, Hi. cbn [ret Nat.add Nat.eqb].
  cbn [contains ret]. by rewrite Hb.
Qed.

End Build.

(** ** The fig format: ports that are no strings *)

(** X20: a fig 'ports' list whose first entry is not a string, such as
    the bare container port 80, raises [AttributeError]: the entry is
    asked to split itself before its type is looked at. *)
Theorem fig_port_that_is_no_string_escapes application_name (d : dict)
    (port : pyval) (rest : list pyval) :
  dict_get "ports" d = Some (PList (port :: rest)) ->
  isinstance port [TStr; TUnicode] = false ->
  fig_ports application_name (PDict d) = raise AttributeError.
Proof.
  intros Hget Hport. unfold fig_ports, getitem. rewrite Hget.
  cbn [rbind ret _check_type isinstance type_of existsb subclass pytype_eqb
         orb iter for_collect].
  by destruct port.
Qed.

(** ** A node whose value is no list *)

(** X21: in a deployment configuration with version 1, the first node
    whose value is not a list is rejected with a [ConfigurationError]
    that names the node and the type found, when the nodes before it
    list names that the applications map has, of applications that can
    be hashed. *)
Theorem node_that_is_no_list_is_rejected
    (deployment_configuration version : pyval) (before after : dict)
    (host : string) (value : pyval) (all_applications : applications_map) :
  getitem deployment_configuration "version" = ret version ->
  ne_int version 1 = false ->
  getitem deployment_configuration "nodes"
  = ret (PDict (before ++ (host, value) :: after)%list) ->
  all_known all_applications before ->
  isinstance value [TList] = false ->
  _deployment_from_configuration deployment_configuration all_applications
  = raise (ConfigurationError
             ("Node " +:+ host +:+ " has a config error. "
                +:+ "Wrong value type: " +:+ type_name (type_of value)
                +:+ ". Should be list.")).
Proof.
  intros Hv Hone Hn Hknown Hvalue.
  destruct (known_nodes_are_built all_applications before Hknown)
    as (nodes & Hnodes & _).
  unfold _deployment_from_configuration.
  rewrite (getitem_contains _ _ _ Hn), (getitem_contains _ _ _ Hv).
  cbn [rbind ret negb]. rewrite Hv. cbn [rbind ret]. rewrite Hone, Hn.
  cbn [rbind ret items].
  erewrite (for_collect_stops _ _ (host, value) _ _ _ Hnodes); [done|].
  cbn [fst snd]. unfold node_from_configuration. by rewrite Hvalue.
Qed.
(** ** The facts on concrete configurations *)

Import Scenarios.

Lemma application_named_image_is_taken_for_fig_witness :
  _is_fig_configuration
    (PDict [("version", PInt 1);
            ("applications",
             PDict [("image", PDict [("image", PStr "nginx:latest")])])])
  = ret true
  /\ fst (_applications_from_configuration false DockerImage_from_string
            (PDict [("version", PInt 1);
                    ("applications",
                     PDict [("image",
                             PDict [("image", PStr "nginx:latest")])])]))
     = raise (config_error "version"
                "Application configuration must be dictionary; got type 'int'.").
Proof.
  destruct (application_named_image_is_taken_for_fig false
              DockerImage_from_string
              [("version", PInt 1);
               ("applications",
                PDict [("image", PDict [("image", PStr "nginx:latest")])])]
              [("image", PDict [("image", PStr "nginx:latest")])]
              (PInt 1) eq_refl eq_refl eq_refl eq_refl eq_refl) as [H _].
  split; [by apply H|reflexivity].
Defined.

Lemma accepted_application_has_known_keys_witness :
  dict_has "image"
    [("image", PStr "nginx:latest");
     ("ports", PList [PDict [("internal", PInt 80); ("external", PInt 8080)]])]
  = true
  /\ (forall k,
        dict_has k
          [("image", PStr "nginx:latest");
           ("ports",
            PList [PDict [("internal", PInt 80); ("external", PInt 8080)]])]
        = true ->
        k ∈ application_keys)
  /\ name Scenarios.web = "web".
Proof.
  exact (accepted_application_has_known_keys false DockerImage_from_string
           "web"
           [("image", PStr "nginx:latest");
            ("ports",
             PList [PDict [("internal", PInt 80); ("external", PInt 8080)]])]
           Scenarios.web (PDict []) eq_refl).
Defined.

Lemma environment_of_strings_witness :
  _parse_environment_config "web"
    (PDict [("image", PStr "nginx:latest");
            ("environment", PDict [("KEY", PStr "value")])])
  = (ret (PFrozenset [PTuple [PStr "KEY"; PStr "value"]]),
     PDict [("image", PStr "nginx:latest")])
  /\ fst (_parse_environment_config "web"
            (PDict [("environment",
                     PDict [("KEY", PStr "value"); ("PORT", PInt 80)])]))
     = raise (config_error "web"
                "Environment variable 'PORT' must be a string; got type 'int'.").
Proof.
  split.
  - refine (environment_of_strings "web"
              [("image", PStr "nginx:latest");
               ("environment", PDict [("KEY", PStr "value")])]
              [("KEY", PStr "value")] eq_refl _).
    discriminate.
  - reflexivity.
Defined.

Lemma links_are_read_back_witness :
  _parse_link_configuration "web"
    (PList [PDict [("local_port", PInt 1); ("remote_port", PInt 54320);
                   ("alias", PStr "db")];
            PDict [("local_port", PBool true); ("remote_port", PInt 54320);
                   ("alias", PUnicode "db")]])
  = (ret [{| local_port := PInt 1; remote_port := PInt 54320;
             alias := PStr "db" |}],
     PList [PDict []; PDict []]).
Proof.
  exact (links_are_read_back "web"
           [{| local_port := PInt 1; remote_port := PInt 54320;
               alias := PStr "db" |};
            {| local_port := PBool true; remote_port := PInt 54320;
               alias := PUnicode "db" |}] eq_refl).
Defined.

Lemma ports_that_are_no_dictionaries_escape_witness :
  flocker_application false DockerImage_from_string "web"
    (PDict [("image", PStr "nginx:latest"); ("ports", PInt 80)])
  = (raise TypeError, PDict [])
  /\ flocker_application false DockerImage_from_string "web"
       (PDict [("image", PStr "nginx:latest"); ("ports", PList [PInt 80])])
     = (raise AttributeError, PDict []).
Proof.
  split.
  - refine (proj1 (ports_that_are_no_dictionaries_escape false
                     DockerImage_from_string "web"
                     [("image", PStr "nginx:latest"); ("ports", PInt 80)]
                     (PStr "nginx:latest")
                     {| repository := "nginx"; tag := "latest" |}
                     (PInt 80) eq_refl eq_refl eq_refl) eq_refl).
  - refine (proj2 (ports_that_are_no_dictionaries_escape false
                     DockerImage_from_string "web"
                     [("image", PStr "nginx:latest");
                      ("ports", PList [PInt 80])]
                     (PStr "nginx:latest")
                     {| repository := "nginx"; tag := "latest" |}
                     (PList [PInt 80]) eq_refl eq_refl eq_refl)
              (PInt 80) [] eq_refl eq_refl).
Defined.

Lemma volume_without_mountpoint_witness :
  parse_volume true "db"
    (PDict [("volume", PDict [("mountpoint", PNone); ("size", PInt 1)])])
  = (ret {| volume_name := "db"; mountpoint := None |}, PDict [])
  /\ parse_volume false "db"
       (PDict [("volume", PDict [("mountpoint", PNone); ("size", PInt 1)])])
     = (raise (ValueError
                 "Mountpoint None contains non-ASCII (unsupported)."),
        PDict []).
Proof.
  exact (volume_without_mountpoint "db"
           [("volume", PDict [("mountpoint", PNone); ("size", PInt 1)])]
           [("mountpoint", PNone); ("size", PInt 1)] eq_refl eq_refl).
Defined.

Lemma known_applications_are_deployed_witness :
  exists nodes,
    _deployment_from_configuration web_on_host1 [("web", web)]
    = ret (distinct nodes)
    /\ Forall2 (is_node_of [("web", web)])
         [("host1", PList [PStr "web"])] nodes.
Proof.
  apply (known_applications_are_deployed web_on_host1 (PInt 1)
           [("host1", PList [PStr "web"])] [("web", web)]);
    try reflexivity.
  apply Forall_cons. split; [|apply Forall_nil_2].
  exists [PStr "web"], [web]. split; [done|]. split; [|done].
  by repeat constructor.
Defined.

Lemma fig_volume_takes_the_only_volume_witness :
  fig_volume "db"
    (PDict [("image", PStr "postgres:9"); ("volumes", PList [PStr "/data/"])])
  = (ret {| volume_name := "db"; mountpoint := Some {| path := "/data" |} |},
     PDict [("image", PStr "postgres:9"); ("volumes", PList [])])
  /\ fst (fig_volume "db"
            (PDict [("image", PStr "postgres:9");
                    ("volumes", PList [PStr "../data"])]))
     = ret {| volume_name := "db";
              mountpoint := Some {| path := "/srv/data" |} |}
  /\ fig_volume "db"
       (PDict [("image", PStr "postgres:9"); ("volumes", PList [])])
     = (raise IndexError,
        PDict [("image", PStr "postgres:9"); ("volumes", PList [])]).
Proof.
  split; [|split].
  - exact (fig_volume_takes_the_only_volume "db"
             [("image", PStr "postgres:9");
              ("volumes", PList [PStr "/data/"])]
             [PStr "/data/"] eq_refl eq_refl).
  - reflexivity.
  - reflexivity.
Defined.

Lemma fig_link_alias_witness :
  fig_link ["web"; "db"] "web" (PStr "db")
  = ret {| target_application := PStr "db"; link_alias := PStr "db";
           ports_local := PNone; ports_remote := PNone |}
  /\ fig_link ["web"; "db"] "web" (PStr "db:database")
     = ret {| target_application := PStr "db";
              link_alias := PStr "database";
              ports_local := PNone; ports_remote := PNone |}
  /\ fig_link ["web"; "db"] "web" (PStr "db:database:1")
     = ret {| target_application := PStr "db"; link_alias := PStr "db";
              ports_local := PNone; ports_remote := PNone |}.
Proof.
  destruct (fig_link_alias ["web"; "db"] "web" "db" "database")
    as (H1 & H2 & H3); [|reflexivity|reflexivity|].
  { apply list_elem_of_In. simpl. tauto. }
  split; [exact H1|]. split; [exact H2|]. exact (H3 "1").
Defined.

Lemma fig_port_order_witness :
  fig_port "web" (PStr "8080:80")
  = ret {| internal_port := PInt 80; external_port := PInt 8080 |}.
Proof.
  exact (fig_port_order "web" "8080" "80" 8080 80 eq_refl eq_refl eq_refl
           eq_refl).
Defined.

Lemma link_needs_a_port_of_its_target_witness :
  _applications_from_fig_configuration DockerImage_from_string
    (PDict [("cache", PDict [("image", PStr "redis:2")]);
            ("web", PDict [("image", PStr "nginx:latest");
                           ("ports", PList [PStr "8080:80"]);
                           ("links", PList [PStr "cache:store"])])])
  = (raise StopIteration,
     PDict [("cache", PDict [("image", PStr "redis:2")]);
            ("web", PDict [("image", PStr "nginx:latest");
                           ("ports", PList [PStr "8080:80"]);
                           ("links", PList [PStr "cache:store"])])]).
Proof.
  eapply (proj1 (link_needs_a_port_of_its_target DockerImage_from_string
                   [("cache", PDict [("image", PStr "redis:2")]);
                    ("web", PDict [("image", PStr "nginx:latest");
                                   ("ports", PList [PStr "8080:80"]);
                                   ("links", PList [PStr "cache:store"])])]
                   _ _ eq_refl)).
  apply Exists_cons_tl, Exists_cons_hd. apply Exists_cons_hd.
  eexists. split; reflexivity.
Defined.

Lemma report_is_read_back_witness :
  _is_fig_configuration
    (reported_configuration
       [{| name := "db";
           image := {| repository := "postgres"; tag := "9" |};
           volume := Some {| volume_name := "db";
                             mountpoint := Some {| path := "/data" |} |};
           ports := [{| internal_port := PInt 5432;
                        external_port := PInt 54320 |}];
           links := [];
           environment := PFrozenset [PTuple [PStr "KEY"; PStr "value"]] |}])
  = ret false
  /\ _applications_from_configuration true DockerImage_from_string
       (PDict [("version", PInt 1);
               ("applications",
                PDict [("db",
                        PDict [("image", PUnicode "unknown");
                               ("ports",
                                PList [PDict [("internal", PInt 5432);
                                              ("external", PInt 54320)]]);
                               ("volume",
                                PDict [("mountpoint", PNone)])])])])
     = (ret [("db",
              {| name := "db";
                 image := {| repository := "unknown"; tag := "latest" |};
                 volume := Some {| volume_name := "db"; mountpoint := None |};
                 ports := [{| internal_port := PInt 5432;
                              external_port := PInt 54320 |}];
                 links := [];
                 environment := PNone |})],
        PDict [("version", PInt 1);
               ("applications", PDict [("db", PDict [])])]).
Proof.
  apply (report_is_read_back DockerImage_from_string
           {| repository := "unknown"; tag := "latest" |} eq_refl
           [{| name := "db";
               image := {| repository := "postgres"; tag := "9" |};
               volume := Some {| volume_name := "db";
                                 mountpoint := Some {| path := "/data" |} |};
               ports := [{| internal_port := PInt 5432;
                            external_port := PInt 54320 |}];
               links := [];
               environment :=
                 PFrozenset [PTuple [PStr "KEY"; PStr "value"]] |}]).
  split.
  - apply NoDup_singleton.
  - apply Forall_cons. split; [|apply Forall_nil_2]. by repeat split.
Defined.

Lemma current_configuration_of_reports_witness :
  current_from_configuration DockerImage_from_string
    (PDict [("host1", reported_configuration [Scenarios.web]);
            ("host2", reported_configuration [])])
  = (ret {| nodes :=
              [{| hostname := "host1";
                  applications :=
                    [{| name := "web";
                        image := {| repository := "unknown";
                                    tag := "latest" |};
                        volume := None;
                        ports := [{| internal_port := PInt 80;
                                     external_port := PInt 8080 |}];
                        links := [];
                        environment := PNone |}] |};
               {| hostname := "host2"; applications := [] |}] |},
     PDict [("host1", consumed_report [Scenarios.web]);
            ("host2", consumed_report [])]).
Proof.
  apply (current_configuration_of_reports DockerImage_from_string
           {| repository := "unknown"; tag := "latest" |} eq_refl
           [("host1", [Scenarios.web]); ("host2", [])]).
  apply Forall_cons. split; [|apply Forall_cons; split; [|apply Forall_nil_2]].
  - split; [apply NoDup_singleton|].
    apply Forall_cons. split; [|apply Forall_nil_2]. by repeat split.
  - split; [apply NoDup_nil_2|apply Forall_nil_2].
Defined.

Lemma strict_parser_rejects_a_reported_volume_witness :
  flocker_application false DockerImage_from_string "db"
    (PDict [("image", PUnicode "unknown"); ("ports", PList []);
            ("volume", PDict [("mountpoint", PNone)])])
  = (raise (config_error "db"
              ("Invalid volume specification. "
                 +:+ "Mountpoint None contains non-ASCII (unsupported).")),
     PDict []).
Proof.
  exact (strict_parser_rejects_a_reported_volume DockerImage_from_string
           {| repository := "unknown"; tag := "latest" |} eq_refl
           {| name := "db";
              image := {| repository := "postgres"; tag := "9" |};
              volume := Some {| volume_name := "db";
                                mountpoint := Some {| path := "/data" |} |};
              ports := [];
              links := [];
              environment := PNone |}
           {| volume_name := "db"; mountpoint := Some {| path := "/data" |} |}
           eq_refl eq_refl).
Defined.

Lemma wrong_version_is_rejected_witness :
  _applications_from_flocker_configuration false DockerImage_from_string
    (PDict [("version", PStr "1"); ("applications", PDict [])])
  = (raise (ConfigurationError
              ("Application configuration has an error. "
                 +:+ "Incorrect version specified.")),
     PDict [("version", PStr "1"); ("applications", PDict [])])
  /\ _deployment_from_configuration
       (PDict [("version", PStr "1"); ("nodes", PDict [])]) []
     = raise (ConfigurationError
                ("Deployment configuration has an error. "
                   +:+ "Incorrect version specified.")).
Proof.
  destruct (wrong_version_is_rejected false DockerImage_from_string
              [("version", PStr "1"); ("applications", PDict [])]
              [("version", PStr "1"); ("nodes", PDict [])]
              (PStr "1") eq_refl eq_refl eq_refl eq_refl eq_refl) as [H1 H2].
  split; [exact H1|exact (H2 [])].
Defined.

Lemma fig_build_is_not_supported_witness :
  fig_application DockerImage_from_string ["web"] "web"
    (PDict [("build", PStr "."); ("ports", PList [PStr "8080:80"])])
  = (raise (config_error "web"
              "'build' is not supported yet; please specify 'image'."),
     PDict [("build", PStr "."); ("ports", PList [PStr "8080:80"])]).
Proof.
  exact (fig_build_is_not_supported DockerImage_from_string ["web"] "web"
           [("build", PStr "."); ("ports", PList [PStr "8080:80"])]
           eq_refl eq_refl).
Defined.

Lemma fig_port_that_is_no_string_escapes_witness :
  fig_ports "web" (PDict [("image", PStr "nginx"); ("ports", PList [PInt 80])])
  = raise AttributeError.
Proof.
  exact (fig_port_that_is_no_string_escapes "web"
           [("image", PStr "nginx"); ("ports", PList [PInt 80])]
           (PInt 80) [] eq_refl eq_refl).
Defined.

Lemma node_that_is_no_list_is_rejected_witness :
  _deployment_from_configuration
    (PDict [("version", PInt 1);
            ("nodes", PDict [("host1", PList [PStr "web"]);
                             ("host2", PStr "web")])])
    [("web", web)]
  = raise (ConfigurationError
             ("Node " +:+ "host2" +:+ " has a config error. "
                +:+ "Wrong value type: " +:+ "str" +:+ ". Should be list.")).
Proof.
  apply (node_that_is_no_list_is_rejected
           (PDict [("version", PInt 1);
                   ("nodes", PDict [("host1", PList [PStr "web"]);
                                    ("host2", PStr "web")])])
           (PInt 1) [("host1", PList [PStr "web"])] [] "host2" (PStr "web")
           [("web", web)]); try reflexivity.
  apply Forall_cons. split; [|apply Forall_nil_2].
  exists [PStr "web"], [web]. split; [done|]. split; [|done].
  by repeat constructor.
Defined.

End ParserFacts.
